(** * ActiveCampaign synchronisation script: a shallow embedding of [script.py]

    The script is one Python module.  Its helpers are embedded function by
    function: pure code as Rocq functions, fallible code in the [outcome]
    monad (a Python exception is [Raise]), code that talks to the network or
    to the file store in a state-and-exception monad whose state records what
    was sent.  Python's dynamic features that the script depends on are
    modelled where they decide a property: module-level name resolution,
    attribute lookup on a [dict] or a [str], binary64 arithmetic behind
    [int / int], [float * int], [int(float)] and [math.ceil].

    Part I holds the definitions, Part II the lemmas and theorems. *)

From Stdlib Require Import ZArith Lia Bool List String Ascii Sorted.
From Stdlib Require Import Floats.SpecFloat.
From stdpp Require Import base option list gmap strings.

Local Open Scope string_scope.
Local Open Scope list_scope.
Local Open Scope Z_scope.

(* ===================================================================== *)
(** * Part I: definitions *)
(* ===================================================================== *)

(** ** Python outcomes *)

Inductive exn : Type :=
| NameError (name : string)
| AttributeError (type_name attribute : string)
| TypeError (message : string)
| KeyError (key : string)
| IndexError
| ZeroDivisionError
| OverflowError
| ValueError.

(** The result of running a piece of Python: a value, an exception, or (for
    loops modelled with fuel) not finished yet. *)
Inductive outcome (A : Type) : Type :=
| Ok (a : A)
| Raise (e : exn)
| OutOfFuel.

Arguments Ok {A} a.
Arguments Raise {A} e.
Arguments OutOfFuel {A}.

#[global] Instance outcome_ret : MRet outcome := @Ok.

#[global] Instance outcome_bind : MBind outcome :=
  fun A B f m =>
    match m with
    | Ok a => f a
    | Raise e => Raise e
    | OutOfFuel => OutOfFuel
    end.

Definition of_option {A} (e : exn) (o : option A) : outcome A :=
  match o with
  | Some a => Ok a
  | None => Raise e
  end.

(** Effectful code: a state [St] threaded through, kept when an exception
    is raised (what was sent before the exception stays sent). *)
Definition eff (St A : Type) : Type := St -> outcome A * St.

#[global] Instance eff_ret {St} : MRet (eff St) := fun A a s => (Ok a, s).

#[global] Instance eff_bind {St} : MBind (eff St) :=
  fun A B f m s =>
    match m s with
    | (Ok a, s') => f a s'
    | (Raise e, s') => (Raise e, s')
    | (OutOfFuel, s') => (OutOfFuel, s')
    end.

Definition lift {St A} (o : outcome A) : eff St A := fun s => (o, s).

(** [for x in xs: body(x)], results collected in order. *)
Fixpoint for_each {St A B} (body : A -> eff St B) (xs : list A) : eff St (list B) :=
  match xs with
  | [] => mret []
  | x :: xs' => b ← body x; bs ← for_each body xs'; mret (b :: bs)
  end.

(** ** Python values that the script inspects dynamically *)

(** Strings, integers, flat dictionaries with string values (a file entry of
    the file store, a header dictionary) and objects the script only passes
    around (modules, clients, functions, data frames). *)
Inductive pyval : Type :=
| PyStr (s : string)
| PyInt (n : Z)
| PyDict (items : list (string * string))
| PyObj (description : string).

Definition type_name (v : pyval) : string :=
  match v with
  | PyStr _ => "str"
  | PyInt _ => "int"
  | PyDict _ => "dict"
  | PyObj d => d
  end.

Fixpoint assoc (key : string) (items : list (string * string)) : option string :=
  match items with
  | [] => None
  | (k, v) :: rest => if String.eqb k key then Some v else assoc key rest
  end.

(** [v[key]] with a string key. *)
Definition py_getitem (v : pyval) (key : string) : outcome string :=
  match v with
  | PyDict items => of_option (KeyError key) (assoc key items)
  | PyStr _ => Raise (TypeError "string indices must be integers")
  | _ => Raise (TypeError "object is not subscriptable")
  end.

(** ** Strings *)

Fixpoint str_len_from (acc : Z) (s : string) : Z :=
  match s with
  | EmptyString => acc
  | String _ s' => str_len_from (acc + 1) s'
  end.

(** [len(s)] *)
Definition str_len (s : string) : Z := str_len_from 0 s.

(** [sub in s] for strings; also pandas' [.str.contains] at a literal pattern. *)
Fixpoint str_contains (sub s : string) : bool :=
  String.prefix sub s ||
  match s with
  | EmptyString => false
  | String _ s' => str_contains sub s'
  end.

Definition str_endswith (suffix s : string) : bool :=
  let n := String.length suffix in
  let m := String.length s in
  (n <=? m)%nat && String.eqb (String.substring (m - n) n s) suffix.

(** [s.split(sep)] at a one-character separator. *)
Fixpoint str_split_from (sep : ascii) (cur : string) (s : string) : list string :=
  match s with
  | EmptyString => [cur]
  | String c s' =>
      if Ascii.eqb c sep then cur :: str_split_from sep "" s'
      else str_split_from sep (cur +:+ String c "") s'
  end.

Definition str_split (sep : ascii) (s : string) : list string := str_split_from sep "" s.

(** [v.split(sep)]: only [str] has the attribute. *)
Definition py_split (v : pyval) (sep : ascii) : outcome (list string) :=
  match v with
  | PyStr s => Ok (str_split sep s)
  | _ => Raise (AttributeError (type_name v) "split")
  end.

(** ** binary64 arithmetic as CPython performs it

    [spec_float] and its operations are the Standard Library's executable
    specification of IEEE 754 arithmetic; binary64 is [prec = 53],
    [emax = 1024]. *)

Module Float64.

Definition prec : Z := 53.
Definition emax : Z := 1024.

(** An integer taken as it is, before any rounding. *)
Definition exact_int (a : Z) : spec_float :=
  match a with
  | Z0 => S754_zero false
  | Zpos p => S754_finite false p 0
  | Zneg p => S754_finite true p 0
  end.

(** [float(n)] for an [int]: round to nearest, ties to even. *)
Definition float_of_int (n : Z) : spec_float := binary_normalize prec emax n 0 false.

(** Whether anything was shifted out of a rounding record. *)
Definition inexact (mrs : shr_record) : bool := shr_r mrs || shr_s mrs.

End Float64.

(** [a / b] on two [int]s: the correctly rounded quotient. *)
Definition int_true_div (a b : Z) : outcome spec_float :=
  if b =? 0 then Raise ZeroDivisionError
  else
    match SFdiv Float64.prec Float64.emax (Float64.exact_int a) (Float64.exact_int b) with
    | S754_infinity _ => Raise OverflowError
    | q => Ok q
    end.

(** [x * n] for a [float] and an [int]: the [int] is converted first. *)
Definition float_mul_int (x : spec_float) (n : Z) : outcome spec_float :=
  match Float64.float_of_int n with
  | S754_infinity _ => Raise OverflowError
  | y => Ok (SFmul Float64.prec Float64.emax x y)
  end.

(** [int(x)]: truncation towards zero. *)
Definition py_int (x : spec_float) : outcome Z :=
  match x with
  | S754_nan => Raise ValueError
  | S754_infinity _ => Raise OverflowError
  | S754_zero _ => Ok 0
  | S754_finite s m e =>
      Ok (cond_Zopp s
            match e with
            | Zneg k => Zpos m / 2 ^ Zpos k
            | _ => Zpos m * 2 ^ e
            end)
  end.

(** [math.ceil(x)] *)
Definition math_ceil (x : spec_float) : outcome Z :=
  match x with
  | S754_nan => Raise ValueError
  | S754_infinity _ => Raise OverflowError
  | S754_zero _ => Ok 0
  | S754_finite s m e =>
      Ok match e with
         | Zneg k => - ((- cond_Zopp s (Zpos m)) / 2 ^ Zpos k)
         | _ => cond_Zopp s (Zpos m * 2 ^ e)
         end
  end.

(** [range(n)] *)
Definition range (n : Z) : list Z := seqZ 0 n.

(** [l[i]] for a non-negative index. *)
Definition py_index {A} (l : list A) (i : Z) : outcome A :=
  if i <? 0 then Raise IndexError else of_option IndexError (l !! Z.to_nat i).

Definition slice_bound (len i : Z) : Z :=
  if i <? 0 then Z.max 0 (len + i) else Z.min i len.

(** [l[a:b]] *)
Definition py_slice {A} (l : list A) (a b : Z) : list A :=
  let n := Z.of_nat (length l) in
  drop (Z.to_nat (slice_bound n a)) (take (Z.to_nat (slice_bound n b)) l).

(** ** Module-level names

    Every name the module binds at top level: its imports, assignments,
    function definitions and loop variables (lines 1-352).  Values the
    properties do not depend on are opaque objects.  Neither [url] nor
    [headers] is bound anywhere in the module. *)

Definition url_bulk_import_contact : string :=
  "https://hri618.api-us1.com/api/3/import/bulk_import".
Definition url_bounced_contact : string :=
  "https://hri618.api-us1.com/api/3/contacts?status=3".
Definition url_unsubbed_contact : string :=
  "https://hri618.api-us1.com/api/3/contacts?status=2".

Definition headers_post_bulk_import_contact : pyval :=
  PyDict [("accept", "application/json");
          ("Content-Type", "application/json");
          ("Api-Token", "<API_TOKEN_ActiveCampaign>")].

Definition headers_get_bounced_unsubbed_contact : pyval :=
  PyDict [("accept", "application/json");
          ("Api-Token", "<API_TOKEN_ActiveCampaign>")].

Definition opaque (description : string) (names : list string) : list (string * pyval) :=
  map (fun name => (name, PyObj description)) names.

Definition module_globals : gmap string pyval :=
  list_to_map
    (opaque "module"
       ["pd"; "np"; "math"; "requests"; "json"; "glob"; "sys"; "os"; "time";
        "datetime"; "pytz"]
     ++ opaque "imported name"
       ["StringIO"; "BytesIO"; "Parallel"; "delayed"; "DefaultAzureCredential";
        "SecretClient"; "Site"; "Office365"; "Version"]
     ++ opaque "function"
       ["payload_parser"; "get_bounced_contacts"; "get_unsubbed_contacts";
        "process_contacts"; "get_contacts_cons_id"; "process_cons_id"]
     ++ [("url_bulk_import_contact", PyStr url_bulk_import_contact);
         ("headers_post_bulk_import_contact", headers_post_bulk_import_contact);
         ("url_bounced_contact", PyStr url_bounced_contact);
         ("url_unsubbed_contact", PyStr url_unsubbed_contact);
         ("headers_get_bounced_unsubbed_contact", headers_get_bounced_unsubbed_contact);
         ("url_sharepoint", PyStr "https://heartresearchinstitute.sharepoint.com");
         ("weekly_multiplier", PyInt 1);
         ("lookback_days", PyInt 7)]
     ++ opaque "object"
       ["start_time"; "vault_name"; "url_vault"; "client_vault";
        "api_token_ActiveCampaign"; "username_sharepoint"; "password_sharepoint";
        "site_sharepoint_from_JO"; "site_sharepoint_from_NO";
        "site_sharepoint_log_dump"; "path_sharepoint_folder_from_JO";
        "path_sharepoint_folder_from_NO"; "path_sharepoint_folder_log_dump";
        "auth_sharepoint"; "folder_sharepoint_from_JO"; "folder_sharepoint_from_NO";
        "folder_sharepoint_log_dump"; "files_sharepoint_from_JO";
        "files_sharepoint_from_NO"; "current_date"; "year"; "month"; "day";
        "start_date"; "end_date"; "to_import_from_JO"; "i"; "df"; "dict_df"; "j";
        "payload"; "payload_index"; "_payload"; "to_import_from_NO"; "response";
        "iterator"; "list_response"; "df_contacts_bounced"; "df_contacts_unsubbed";
        "df_logs"; "_df_logs"; "buffer"; "df_logs_to_upload"]).

(** Reading a global name: [NameError] when the module does not bind it. *)
Definition load_global (g : gmap string pyval) (name : string) : outcome pyval :=
  of_option (NameError name) (g !! name).

(** ** Batch Partitioner: [payload_parser] (lines 85-94) *)

(** The payload dictionary [{"contacts": [...]}]. *)
Record payload (R : Type) : Type := { contacts : list R }.
Arguments contacts {R} p.

Section BulkImport.

(** A contact record is whatever [json.dumps] can encode; [dumps r] is the
    text [json.dumps] produces for the record [r] alone. *)
Context {R : Type}.
Variable dumps : R -> string.

(** [sys.getsizeof] of the empty [str]: the size of CPython's string header
    (49 bytes on 64-bit CPython 3.3 to 3.11). *)
Variable str_header : Z.

(** [json.dumps] of a list, with the default separators. *)
Definition json_dumps (records : list R) : string :=
  "[" +:+ String.concat ", " (map dumps records) +:+ "]".

(** [sys.getsizeof] of a [str]: [json.dumps] escapes every non-ASCII character,
    so its result takes one byte per character after the header. *)
Definition sys_getsizeof (s : string) : Z := str_header + str_len s.

(** [int(360000 / payload_size_bytes * len_payload) + 1] *)
Definition advance (payload_size_bytes len_payload : Z) : outcome Z :=
  q ← int_true_div 360000 payload_size_bytes;
  p ← float_mul_int q len_payload;
  k ← py_int p;
  mret (k + 1).

(** The [while] loop of lines 89-91; [list_index[-1]] is [last list_index]. *)
Fixpoint payload_parser_loop (fuel : nat) (len_payload payload_size_bytes : Z)
    (list_index : list Z) : outcome (list Z) :=
  match fuel with
  | O => OutOfFuel
  | S fuel' =>
      top ← of_option IndexError (last list_index);
      if top <? len_payload then
        k ← advance payload_size_bytes len_payload;
        let last_index := top + k in
        payload_parser_loop fuel' len_payload payload_size_bytes (list_index ++ [last_index])
      else mret list_index
  end.

(** [l[-1] = v] *)
Definition set_last (l : list Z) (v : Z) : outcome (list Z) :=
  match l with
  | [] => Raise IndexError
  | _ => Ok (removelast l ++ [v])
  end.

Definition payload_parser (fuel : nat) (p : payload R) : outcome (list Z) :=
  let list_index := [0] in
  let len_payload := Z.of_nat (length (contacts p)) in
  let payload_size_bytes := sys_getsizeof (json_dumps (contacts p)) in
  list_index ← payload_parser_loop fuel len_payload payload_size_bytes list_index;
  set_last list_index len_payload.

(** ** Bulk Import Client (lines 209-220 and 274-285) *)

Inductive import_event : Type :=
| Post (url : pyval) (json : payload R) (headers : pyval)
| ImportSleep (seconds : Z).

Definition requests_post (url : pyval) (json : payload R) (headers : pyval) :
    eff (list import_event) unit :=
  fun sent => (Ok tt, sent ++ [Post url json headers]).

Definition import_sleep (seconds : Z) : eff (list import_event) unit :=
  fun sent => (Ok tt, sent ++ [ImportSleep seconds]).

(** One iteration of the [for] loop: the callee [requests.post] is evaluated,
    then its arguments left to right, then the call is made. *)
Definition post_batch (g : gmap string pyval) (to_import : list R) (payload_index : list Z)
    (i : Z) : eff (list import_event) unit :=
  lo ← lift (py_index payload_index i);
  hi ← lift (py_index payload_index (i + 1));
  let _payload := {| contacts := py_slice to_import lo hi |} in
  _ ← lift (load_global g "requests");
  url ← lift (load_global g "url");
  headers ← lift (load_global g "headers_post_bulk_import_contact");
  _ ← requests_post url _payload headers;
  _ ← lift (load_global g "time");
  import_sleep 1.

(** [payload_index = payload_parser(payload)] and the loop over its batches. *)
Definition bulk_import (fuel : nat) (g : gmap string pyval) (to_import : list R) :
    eff (list import_event) unit :=
  let payload := {| contacts := to_import |} in
  payload_index ← lift (payload_parser fuel payload);
  _ ← for_each (post_batch g to_import payload_index)
        (range (Z.of_nat (length payload_index) - 1));
  mret tt.

(** The batches the loop cuts out of the record list. *)
Definition batches (to_import : list R) (payload_index : list Z) : list (list R) :=
  map (fun '(lo, hi) => py_slice to_import lo hi)
      (zip payload_index (tail payload_index)).

(** The contacts of the POST requests of a trace, in the order sent. *)
Definition posted (sent : list import_event) : list (list R) :=
  omap (fun ev => match ev with Post _ p _ => Some (contacts p) | ImportSleep _ => None end) sent.

End BulkImport.

Arguments Post {R} url json headers.
Arguments ImportSleep {R} seconds.

(** ** Paginated Collector (lines 98-157 and 288-292) *)

Inductive fetch_event : Type :=
| Get (url : string) (headers : pyval) (params : list (string * Z))
| FetchSleep (seconds : Z).

Section Collector.

(** The fields of a contact object of the API are JSON values of some type. *)
Context {V : Type}.

(** The remote API: the contact objects a listing request returns, and the
    total it reports. *)
Variable contacts_page : string -> list (string * Z) -> list (gmap string V).
Variable meta_total : string -> Z.

(** [{k: index[k] for k in keys if k in index}] *)
Definition project (keys : list string) (index : gmap string V) : gmap string V :=
  list_to_map (omap (fun k => v ← index !! k; Some (k, v)) keys).

Definition requests_get (url : pyval) (headers : pyval) (params : list (string * Z)) :
    eff (list fetch_event) (list (gmap string V)) :=
  match url with
  | PyStr u => fun sent => (Ok (contacts_page u params), sent ++ [Get u headers params])
  | _ => lift (Raise (TypeError "url must be str"))
  end.

Definition time_sleep (seconds : Z) : eff (list fetch_event) unit :=
  fun sent => (Ok tt, sent ++ [FetchSleep seconds]).

Definition bounced_keys : list string :=
  ["email"; "firstName"; "lastName"; "bounced_date"; "id"].

Definition unsubbed_keys : list string :=
  ["email"; "firstName"; "lastName"; "cdate"; "udate"; "id"].

Definition get_bounced_contacts (g : gmap string pyval) (index : Z) :
    eff (list fetch_event) (list (gmap string V)) :=
  _ ← lift (load_global g "requests");
  url ← lift (load_global g "url_bounced_contact");
  headers ← lift (load_global g "headers");
  _response ← requests_get url headers [("limit", 100); ("offset", 100 * index)];
  let _response := map (project bounced_keys) _response in
  _ ← lift (load_global g "time");
  _ ← time_sleep 1;
  mret _response.

Definition get_unsubbed_contacts (g : gmap string pyval) (index : Z) :
    eff (list fetch_event) (list (gmap string V)) :=
  _ ← lift (load_global g "requests");
  url ← lift (load_global g "url_unsubbed_contact");
  headers ← lift (load_global g "headers");
  _response ← requests_get url headers [("limit", 100); ("offset", 100 * index)];
  let _response := map (project unsubbed_keys) _response in
  _ ← lift (load_global g "time");
  _ ← time_sleep 1;
  mret _response.

(** [Parallel(n_jobs = 5)(delayed(f)(i) for i in iterator)] returns the results
    in the order of [iterator]; the calls are modelled in that order too. *)
Definition process_contacts (g : gmap string pyval) (iterator : list Z) (kind : string) :
    eff (list fetch_event) (list (list (gmap string V))) :=
  let list_response := [] in
  list_response ←
    (if String.eqb kind "bounced" then
       _response ← for_each (get_bounced_contacts g) iterator;
       mret (list_response ++ _response)
     else mret list_response);
  list_response ←
    (if String.eqb kind "unsubbed" then
       _response ← for_each (get_unsubbed_contacts g) iterator;
       mret (list_response ++ _response)
     else mret list_response);
  mret list_response.

(** [math.ceil(int(total) / 100)] *)
Definition page_count (total : Z) : outcome Z :=
  q ← int_true_div total 100;
  math_ceil q.

Definition requests_get_total (url : pyval) (headers : pyval) : eff (list fetch_event) Z :=
  match url with
  | PyStr u => fun sent => (Ok (meta_total u), sent ++ [Get u headers [("limit", 1)]])
  | _ => lift (Raise (TypeError "url must be str"))
  end.

(** The request of lines 288 and 308, which asks for one contact to learn
    the total; [meta_total u] is [int(response.json()["meta"]["total"])]. *)
Definition count_request (g : gmap string pyval) (url_name : string) :
    eff (list fetch_event) Z :=
  _ ← lift (load_global g "requests");
  url ← lift (load_global g url_name);
  headers ← lift (load_global g "headers_get_bounced_unsubbed_contact");
  requests_get_total url headers.

(** Lines 288-292 and 308-312: the total is asked for, the pages are fetched
    and flattened, [[i for j in list_response for i in j]]. *)
Definition collate (g : gmap string pyval) (url_name kind : string) :
    eff (list fetch_event) (list (gmap string V)) :=
  total ← count_request g url_name;
  _ ← lift (load_global g "math");
  pages ← lift (page_count total);
  let iterator := range pages in
  list_response ← process_contacts g iterator kind;
  mret (concat list_response).

Definition collate_bounced (g : gmap string pyval) :
    eff (list fetch_event) (list (gmap string V)) :=
  collate g "url_bounced_contact" "bounced".

Definition collate_unsubbed (g : gmap string pyval) :
    eff (list fetch_event) (list (gmap string V)) :=
  collate g "url_unsubbed_contact" "unsubbed".

End Collector.

(** ** The collected frames (lines 292-293 and 312-313) *)

(** [pd.DataFrame(records)[name]] for a list of dictionaries: the frame has a
    column for every key that some record has, and a record without the key
    holds NaN there; a key that no record has is no column of the frame. *)
Definition frame_column {V} (name : string) (records : list (gmap string V)) :
    outcome (list (option V)) :=
  if existsb (fun r => bool_decide (is_Some (r !! name))) records
  then Ok (map (fun r => r !! name) records)
  else Raise (KeyError name).

Section CollectedFrame.

Context {V : Type}.
Variable contacts_page : string -> list (string * Z) -> list (gmap string V).
Variable meta_total : string -> Z.

(** Lines 288-293, up to the subscript [df_contacts_bounced["bounced_date"]];
    [pd] is read once for [pd.DataFrame] and once for [pd.to_datetime]. *)
Definition bounced_date_column (g : gmap string pyval) :
    eff (list fetch_event) (list (option V)) :=
  records ← collate_bounced contacts_page meta_total g;
  _ ← lift (load_global g "pd");
  let df_contacts_bounced := records in
  _ ← lift (load_global g "pd");
  lift (frame_column "bounced_date" df_contacts_bounced).

(** Lines 308-313, up to the subscript [df_contacts_unsubbed["cdate"]]. *)
Definition unsubbed_cdate_column (g : gmap string pyval) :
    eff (list fetch_event) (list (option V)) :=
  records ← collate_unsubbed contacts_page meta_total g;
  _ ← lift (load_global g "pd");
  let df_contacts_unsubbed := records in
  _ ← lift (load_global g "pd");
  lift (frame_column "cdate" df_contacts_unsubbed).

End CollectedFrame.

(** ** Constituent id lookup: [get_contacts_cons_id] (lines 140-157) *)

(** One entry of a contact's [fieldValues]. *)
Record field_value : Type := { field : string; value : string }.

(** What the lookup yields: [np.nan], or the value of a field. *)
Inductive cell : Type :=
| NaN
| Cell (s : string).

Section ConsId.

(** The remote API: the [fieldValues] of the contact a URL names. *)
Variable field_values : string -> list field_value.

Definition requests_get_contact (url : string) (headers : pyval) :
    eff (list fetch_event) (list field_value) :=
  fun sent => (Ok (field_values url), sent ++ [Get url headers []]).

Definition get_contacts_cons_id (g : gmap string pyval) (cons_id : string) :
    eff (list fetch_event) cell :=
  let _url := "https://hri618.api-us1.com/api/3/contacts/" +:+ cons_id in
  _ ← lift (load_global g "requests");
  headers ← lift (load_global g "headers_get_bounced_unsubbed_contact");
  _response ← requests_get_contact _url headers;
  let matching := List.filter (fun i => String.eqb (field i) "2") _response in
  entry ←
    (if Z.of_nat (length matching) =? 0 then
       _ ← lift (load_global g "np");
       mret NaN
     else
       i ← lift (py_index matching 0);
       mret (Cell (value i)));
  _cons_id ← lift (py_index [entry] 0);
  _ ← lift (load_global g "time");
  _ ← time_sleep 1;
  mret _cons_id.

Definition process_cons_id (g : gmap string pyval) (iterator : list string) :
    eff (list fetch_event) (list cell) :=
  let list_cons_id := [] in
  _cons_id ← for_each (get_contacts_cons_id g) iterator;
  mret (list_cons_id ++ _cons_id).

End ConsId.

(** ** Dates

    A [datetime.date] is modelled by its proleptic Gregorian ordinal
    ([date.toordinal()], 1 for 0001-01-01): comparing dates compares ordinals,
    adding a [timedelta] adds days, and the result must stay within
    [date.min .. date.max]. *)

Definition is_leap (year : Z) : bool :=
  (year mod 4 =? 0) && (negb (year mod 100 =? 0) || (year mod 400 =? 0)).

Definition days_before_year (year : Z) : Z :=
  let y := year - 1 in y * 365 + y / 4 - y / 100 + y / 400.

Definition days_before_month (year month : Z) : Z :=
  nth (Z.to_nat month) [0; 0; 31; 59; 90; 120; 151; 181; 212; 243; 273; 304; 334] 0
  + (if (2 <? month) && is_leap year then 1 else 0).

(** The ordinal of [datetime.date(year, month, day)]. *)
Definition ymd2ord (year month day : Z) : Z :=
  days_before_year year + days_before_month year month + day.

Definition max_ordinal : Z := 3652059.

(** [d.weekday()]: Monday is 0, Sunday is 6. *)
Definition weekday (d : Z) : Z := (d + 6) mod 7.

(** [d + datetime.timedelta(days = n)]; [d - timedelta(days = n)] adds [- n]. *)
Definition date_add (d n : Z) : outcome Z :=
  let r := d + n in
  if (1 <=? r) && (r <=? max_ordinal) then Ok r else Raise OverflowError.

(** ** The rolling window (lines 65-73) *)

Definition weekly_multiplier : Z := 1.
Definition lookback_days : Z := 7.

Definition start_date (current_date : Z) : outcome Z :=
  d ← date_add current_date (- weekday current_date);
  d ← date_add d (- lookback_days);
  date_add d (- 1).

Definition end_date (current_date : Z) : outcome Z :=
  s ← start_date current_date;
  date_add s (7 * weekly_multiplier + 1).

(** The window as the specification words it: [last_week_start] is the Monday
    of the week before the run, and the window starts [lookback_days] before
    it. *)
Definition last_week_start (current_date : Z) : Z :=
  current_date - weekday current_date - 7.

Definition window_as_specified (current_date : Z) : Prop :=
  exists s e,
    start_date current_date = Ok s /\ end_date current_date = Ok e /\
    e = s + 8 /\ s = last_week_start current_date - lookback_days.

(** ** Date-Range Filter (lines 293-295 and 313-316) *)

(** A row of the bounced table after line 293, its date parsed. *)
Record bounced_row : Type := {
  b_email : string;
  b_firstName : string;
  b_lastName : string;
  bounced_date : Z;
  b_id : string
}.

(** A row of the unsubscribed table after line 314. *)
Record unsubbed_row : Type := {
  u_email : string;
  u_firstName : string;
  u_lastName : string;
  cdate : Z;
  udate : Z;
  u_id : string
}.

(** [df[(df["bounced_date"] > start_date) & (df["bounced_date"] < end_date)]] *)
Definition filter_bounced (start_date end_date : Z) (df : list bounced_row) :
    list bounced_row :=
  List.filter (fun r => (start_date <? bounced_date r) && (bounced_date r <? end_date)) df.

(** [df[(df["udate"] > start_date) & (df["udate"] < end_date)]] *)
Definition filter_unsubbed (start_date end_date : Z) (df : list unsubbed_row) :
    list unsubbed_row :=
  List.filter (fun r => (start_date <? udate r) && (udate r <? end_date)) df.

(** ** The reports (lines 294-300 and 315-322) *)

(** A row of the bounced report: the columns left once [id] is dropped and
    the others are renamed. *)
Record bounced_report_row : Type := {
  rb_Email : string;
  rb_First_Name : string;
  rb_Last_Name : string;
  rb_Bounced_Date : Z;
  rb_RE_Constituent_ID : cell
}.

Record unsubbed_report_row : Type := {
  ru_Email : string;
  ru_First_Name : string;
  ru_Last_Name : string;
  ru_Subscribed_Date : Z;
  ru_Unsubscribed_Date : Z;
  ru_RE_Constituent_ID : cell
}.

(** [df[name] = values] for a list: one value per row, by position; pandas
    refuses a list of another length. *)
Definition set_column {Row Value Row'} (assign : Row -> Value -> Row') (df : list Row)
    (values : list Value) : outcome (list Row') :=
  if (length values =? length df)%nat then Ok (zip_with assign df values)
  else Raise ValueError.

Section Reports.

Variable field_values : string -> list field_value.

(** Lines 294-300: the rows in the window, the constituent id of each looked
    up from its [id], [id] dropped and the columns renamed. *)
Definition bounced_report (g : gmap string pyval) (start_date end_date : Z)
    (df_contacts_bounced : list bounced_row) :
    eff (list fetch_event) (list bounced_report_row) :=
  let df_contacts_bounced := filter_bounced start_date end_date df_contacts_bounced in
  cons_ids ← process_cons_id field_values g (map b_id df_contacts_bounced);
  lift (set_column
          (fun r cons_id =>
             {| rb_Email := b_email r; rb_First_Name := b_firstName r;
                rb_Last_Name := b_lastName r; rb_Bounced_Date := bounced_date r;
                rb_RE_Constituent_ID := cons_id |})
          df_contacts_bounced cons_ids).

(** Lines 315-322. *)
Definition unsubbed_report (g : gmap string pyval) (start_date end_date : Z)
    (df_contacts_unsubbed : list unsubbed_row) :
    eff (list fetch_event) (list unsubbed_report_row) :=
  let df_contacts_unsubbed := filter_unsubbed start_date end_date df_contacts_unsubbed in
  cons_ids ← process_cons_id field_values g (map u_id df_contacts_unsubbed);
  lift (set_column
          (fun r cons_id =>
             {| ru_Email := u_email r; ru_First_Name := u_firstName r;
                ru_Last_Name := u_lastName r; ru_Subscribed_Date := cdate r;
                ru_Unsubscribed_Date := udate r; ru_RE_Constituent_ID := cons_id |})
          df_contacts_unsubbed cons_ids).

End Reports.

(** ** Record Mapper (lines 160-208 and 223-273) *)

Record contact_record : Type := {
  email : string;
  first_name : string;
  last_name : string;
  phone : option string;
  tags : list string;
  fields : list (Z * string);
  subscribe : list string
}.

Record welcome_row : Type := {
  w_Email : string;
  w_FirstName : string;
  w_Surname : string;
  w_Mobile : string;
  w_SerialNum : string;
  w_Title : string;
  w_Address : string;
  w_Suburb : string;
  w_State : string;
  w_Postcode : string;
  w_DOB : string;
  w_1stDebitDate : string;
  w_Amount : string
}.

Record segmentation_row : Type := {
  s_Email_Address : string;
  s_First_name : string;
  s_Last_name : string;
  s_Constituent_Number : string;
  s_Title : string;
  s_Appeal : string;
  s_Package : string;
  s_Description : string;
  s_Informal_Salutation : string;
  s_Fullname : string
}.

(** [np.select(condlist, choicelist)] at one row: the choice of the first
    condition that holds, the default otherwise. *)
Fixpoint np_select (condlist : list bool) (choicelist : list string) (default : string) :
    string :=
  match condlist, choicelist with
  | c :: condlist', x :: choicelist' =>
      if c then x else np_select condlist' choicelist' default
  | _, _ => default
  end.

(** The [listid] column of the segmentation table (lines 230-249). *)
Definition segmentation_listid (row : segmentation_row) : string :=
  let appeal sub := str_contains sub (s_Appeal row) in
  let package sub := str_contains sub (s_Package row) in
  np_select
    [appeal "AU" && package "Active";
     appeal "AU" && package "Lapsed";
     appeal "AU" && package "Insight";
     appeal "AU" && package "NonInsight";
     appeal "NZ" && package "Active";
     appeal "NZ" && package "Lapsed";
     appeal "NZ" && package "Other"]
    ["199"; "200"; "236"; "237"; "256"; "254"; "258"]
    "0".

(** Lines 168-181 as they would read with the separating commas the source
    lacks: five conditions on the part of the file name before its first
    dot, and the five lists they select. *)
Definition welcome_listid (name : string) : string :=
  let base := default "" (head (str_split "." name)) in
  np_select
    [str_contains "Welcome" base;
     str_contains "1stWeekEmail" base;
     str_contains "2ndMonthEmail" base;
     str_contains "3rdMonthEmail" base;
     str_contains "2YearEmail" base]
    ["71"; "26"; "246"; "241"; "72"]
    "0".

(** Lines 225-228: the table is read when the file name has a known suffix;
    for the first file of a folder [df] is unbound otherwise. *)
Definition read_table {Row} (name : string) (table : list Row) : outcome (list Row) :=
  if str_endswith ".xlsx" name || str_endswith ".xls" name || str_endswith ".csv" name
  then Ok table
  else Raise (NameError "df").

(** The record of one row of a segmentation file (lines 253-272); [i] is the
    loop variable of line 224, an entry of the folder listing. *)
Definition segmentation_record (i : pyval) (row : segmentation_row) (listid : string) :
    outcome contact_record :=
  parts ← py_split i ".";
  stem ← py_index parts 0;
  let suffix :=
    default "" (head (str_split "-" (default "" (last (str_split "_" (s_Package row)))))) in
  mret {| email := s_Email_Address row;
          first_name := s_First_name row;
          last_name := s_Last_name row;
          phone := None;
          tags := [stem +:+ "_" +:+ suffix];
          fields := [(2, s_Constituent_Number row); (5, s_Title row);
                     (96, s_Appeal row); (97, s_Package row);
                     (134, s_Description row); (113, s_Informal_Salutation row);
                     (46, s_Fullname row)];
          subscribe := [listid] |}.

Fixpoint try_map {A B} (f : A -> outcome B) (l : list A) : outcome (list B) :=
  match l with
  | [] => Ok []
  | a :: l' => b ← f a; bs ← try_map f l'; mret (b :: bs)
  end.

(** One pass of the loop of line 224 over the file entry [i], whose table,
    once read, is [table]. *)
Definition segmentation_file (i : pyval) (table : list segmentation_row) :
    outcome (list contact_record) :=
  name ← py_getitem i "Name";
  df ← read_table name table;
  try_map (fun row => segmentation_record i row (segmentation_listid row)) df.

(** The record of one row of a welcome file (lines 185-207). *)
Definition welcome_record (i : pyval) (row : welcome_row) (listid : string) :
    outcome contact_record :=
  parts ← py_split i "\";
  path_tail ← of_option IndexError (last parts);
  mret {| email := w_Email row;
          first_name := w_FirstName row;
          last_name := w_Surname row;
          phone := Some (w_Mobile row);
          tags := [default "" (head (str_split "." path_tail))];
          fields := [(2, w_SerialNum row); (5, w_Title row); (24, w_Address row);
                     (25, w_Suburb row); (26, w_State row); (27, w_Postcode row);
                     (28, w_DOB row); (29, w_1stDebitDate row); (30, w_Amount row)];
          subscribe := [listid] |}.

(** One pass of the loop of line 161.  The condition list of lines 168-174
    has no commas between its five entries, so the assignment to
    [df["listid"]] is not an expression Python accepts; the column is taken
    as given, whatever it holds. *)
Definition welcome_file (i : pyval) (table : list (welcome_row * string)) :
    outcome (list contact_record) :=
  name ← py_getitem i "Name";
  df ← read_table name table;
  try_map (fun '(row, listid) => welcome_record i row listid) df.

(** ** Run Log Appender (lines 326-352) *)

(** A data frame, and the CSV text that encodes it. *)
Record table : Type := { columns : list string; rows : list (list string) }.

Record run_metrics : Type := {
  executed_at_AEST : string;
  duration_in_mins : string;
  num_contacts_welcome : string;
  num_contacts_all_segments : string;
  date_range_bounced_unsubbed_contacts : string;
  num_contacts_bounced : string;
  num_contacts_unsubbed : string
}.

(** [df_logs] of line 326: one row under seven headers. *)
Definition df_logs (m : run_metrics) : table :=
  {| columns := ["executed_at_AEST"; "duration_in_mins"; "num_contacts_welcome";
                 "num_contacts_all_segments"; "date_range_bounced_unsubbed_contacts";
                 "num_contacts_bounced"; "num_contacts_unsubbed"];
     rows := [[executed_at_AEST m; duration_in_mins m; num_contacts_welcome m;
               num_contacts_all_segments m; date_range_bounced_unsubbed_contacts m;
               num_contacts_bounced m; num_contacts_unsubbed m]] |}.

(** [a.append(b, ignore_index = True)] on frames with the same columns: a new
    frame; [a] itself is left as it was. *)
Definition df_append (a b : table) : table :=
  {| columns := columns a; rows := rows a ++ rows b |}.

Definition log_name : string := "runtime_logs.csv".

(** The remote folder: file name to content. *)
Definition files (folder : gmap string table) : list pyval :=
  map (fun entry => PyDict [("Name", fst entry)]) (map_to_list folder).

Definition get_file (name : string) : eff (gmap string table) table :=
  fun folder => (of_option (KeyError name) (folder !! name), folder).

Definition upload_file (content : table) (name : string) : eff (gmap string table) unit :=
  fun folder => (Ok tt, <[name := content]> folder).

(** [any(i["Name"] == name for i in entries)] *)
Fixpoint any_named (name : string) (entries : list pyval) : outcome bool :=
  match entries with
  | [] => Ok false
  | i :: rest =>
      n ← py_getitem i "Name";
      if String.eqb n name then Ok true else any_named name rest
  end.

Definition append_run_log (m : run_metrics) : eff (gmap string table) unit :=
  fun folder =>
    (exists_log ← lift (any_named log_name (files folder));
     if (exists_log : bool) then
       _df_logs ← get_file log_name;
       let _ := df_append _df_logs (df_logs m) in
       let df_logs_to_upload := _df_logs in
       upload_file df_logs_to_upload log_name
     else
       let df_logs_to_upload := df_logs m in
       upload_file df_logs_to_upload log_name) folder.

(** ** Vocabulary of the statements *)

(** The boundaries the loop of [payload_parser] appends after [x]: one every
    [k] records, until [len] is reached or passed. *)
Inductive chain (k len : Z) : Z -> list Z -> Prop :=
| chain_stop (x : Z) : len <= x -> chain k len x []
| chain_step (x : Z) (ext : list Z) :
    x < len -> chain k len (x + k) ext -> chain k len x ((x + k) :: ext).

(** Consecutive boundaries: strictly increasing, at most [k] apart. *)
Definition step_within (k a b : Z) : Prop := a < b /\ b - a <= k.

(** The size bound as the specification words it: every slice the
    boundaries cut out serialises to at most 360,000 bytes. *)
Definition slices_within_ceiling {R} (dumps : R -> string) (str_header : Z)
    (p : payload R) : Prop :=
  forall fuel idx batch,
    payload_parser dumps str_header fuel p = Ok idx ->
    In batch (batches (contacts p) idx) ->
    str_len (json_dumps dumps batch) <= 360000.

(** A contact record whose [json.dumps] text has [n + 13] characters:
    an object with the one key [email]. *)
Definition uniform_record (n : nat) : string :=
  "{" +:+ String "034" "email" +:+ String "034" ": " +:+ String "034" "" +:+
  String.concat "" (repeat "a" n) +:+ String "034" "}".

(** A thousand contact records of 1098 bytes each. *)
Definition thousand_records : payload string :=
  {| contacts := repeat (uniform_record 1085) 1000 |}.

(** A bounced contact dated [d], for examples. *)
Definition bounced_on (d : Z) : bounced_row :=
  {| b_email := "a@example.org"; b_firstName := "A"; b_lastName := "B";
     bounced_date := d; b_id := "1" |}.

(** A folder listing entry named [name], as the file store returns it. *)
Definition file_entry (name : string) : pyval := PyDict [("Name", name)].

(** Two empty contact objects, for examples. *)
Definition two_records : payload string := {| contacts := ["{}"; "{}"] |}.

(** A run log of three rows under the headers of [df_logs]. *)
Definition three_row_log : table :=
  {| columns := ["executed_at_AEST"; "duration_in_mins"; "num_contacts_welcome";
                 "num_contacts_all_segments"; "date_range_bounced_unsubbed_contacts";
                 "num_contacts_bounced"; "num_contacts_unsubbed"];
     rows := [["2024-01-01 06:00:00"; "12.5"; "10"; "200"; "2023-12-17_2023-12-25"; "3"; "4"];
              ["2024-01-08 06:00:00"; "11.9"; "12"; "180"; "2023-12-24_2024-01-01"; "1"; "0"];
              ["2024-01-15 06:00:00"; "13.1"; "9"; "210"; "2023-12-31_2024-01-08"; "2"; "5"]] |}.

Definition example_metrics : run_metrics :=
  {| executed_at_AEST := "2024-01-22 06:00:00";
     duration_in_mins := "12.0";
     num_contacts_welcome := "11";
     num_contacts_all_segments := "190";
     date_range_bounced_unsubbed_contacts := "2024-01-07_2024-01-15";
     num_contacts_bounced := "2";
     num_contacts_unsubbed := "1" |}.

(** The differences between consecutive boundaries: the number of records
    of each batch. *)
Definition gaps (F : list Z) : list Z := map (fun '(lo, hi) => hi - lo) (zip F (tail F)).

(** The Monday of the week of the date [d]. *)
Definition week_start (d : Z) : Z := d - weekday d.

(** The address [get_contacts_cons_id] asks, and the cell it yields for what
    the API holds there. *)
Definition cons_id_url (cons_id : string) : string :=
  "https://hri618.api-us1.com/api/3/contacts/" +:+ cons_id.

Definition cons_id_of (field_values : string -> list field_value) (cons_id : string) : cell :=
  match List.find (fun i => String.eqb (field i) "2") (field_values (cons_id_url cons_id)) with
  | Some i => Cell (value i)
  | None => NaN
  end.

(* ===================================================================== *)
(** * Part II: lemmas and theorems *)
(* ===================================================================== *)

(** ** Facts about binary64 rounding

    The Standard Library gives the operations; what follows derives the
    facts the script's arithmetic needs: a rounded result is the shifted
    mantissa or its successor, stays within relative error 2^-52 of what was
    rounded, and is exact when nothing is shifted out. *)

Module Float64Facts.
Import Float64.


Lemma digits2_size (p : positive) : digits2_pos p = Pos.size p.
Proof. induction p; simpl; congruence. Qed.

Lemma Zdigits2_log2 (p : positive) : Zdigits2 (Zpos p) = Z.log2 (Zpos p) + 1.
Proof.
  simpl. rewrite digits2_size. destruct p; simpl; try reflexivity; lia.
Qed.

Lemma Zdigits2_bounds (m : Z) :
  0 < m -> 2 ^ (Zdigits2 m - 1) <= m < 2 ^ Zdigits2 m.
Proof.
  intros Hm. destruct m as [|p|p]; try lia.
  rewrite Zdigits2_log2.
  replace (Z.log2 (Z.pos p) + 1 - 1) with (Z.log2 (Z.pos p)) by lia.
  replace (Z.log2 (Z.pos p) + 1) with (Z.succ (Z.log2 (Z.pos p))) by lia.
  apply Z.log2_spec. lia.
Qed.

Lemma Zdigits2_pos (m : Z) : 0 < m -> 0 < Zdigits2 m.
Proof. destruct m; simpl; lia. Qed.

Lemma Zdigits2_le (m : Z) (k : Z) : 0 < m -> 0 <= k -> m < 2 ^ k -> Zdigits2 m <= k.
Proof.
  intros Hm Hk Hlt. pose proof (Zdigits2_bounds m Hm) as [Hlo _].
  pose proof (Zdigits2_pos m Hm).
  destruct (Z_le_gt_dec (Zdigits2 m) k) as [|Hgt]; [assumption|].
  assert (2 ^ k <= 2 ^ (Zdigits2 m - 1)) by (apply Z.pow_le_mono_r; lia). lia.
Qed.

Lemma Zdigits2_ge (m : Z) (k : Z) : 0 < m -> 2 ^ k <= m -> k + 1 <= Zdigits2 m.
Proof.
  intros Hm Hle. pose proof (Zdigits2_bounds m Hm) as [_ Hhi].
  pose proof (Zdigits2_pos m Hm).
  destruct (Z_le_gt_dec (k + 1) (Zdigits2 m)) as [|Hgt]; [assumption|].
  assert (2 ^ Zdigits2 m <= 2 ^ k) by (apply Z.pow_le_mono_r; lia). lia.
Qed.

(** iter_pos is plain iteration *)
Lemma iter_pos_nat {A} (f : A -> A) (p : positive) (x : A) :
  SpecFloat.iter_pos f p x = Nat.iter (Pos.to_nat p) f x.
Proof.
  revert x. induction p as [p IH|p IH|]; intros x; cbn [SpecFloat.iter_pos].
  - rewrite !IH, Pos2Nat.inj_xI. 
    replace (S (2 * Pos.to_nat p))%nat with (Pos.to_nat p + (Pos.to_nat p + 1))%nat by lia.
    rewrite !Nat.iter_add. simpl. reflexivity.
  - rewrite !IH, Pos2Nat.inj_xO.
    replace (2 * Pos.to_nat p)%nat with (Pos.to_nat p + Pos.to_nat p)%nat by lia.
    rewrite Nat.iter_add. reflexivity.
  - reflexivity.
Qed.


Lemma shr_1_spec (mrs : shr_record) :
  0 <= shr_m mrs ->
  shr_m (shr_1 mrs) = shr_m mrs / 2 /\
  inexact (shr_1 mrs) = Z.odd (shr_m mrs) || inexact mrs.
Proof.
  destruct mrs as [m r s]. unfold inexact. cbn [shr_m shr_r shr_s]. intros Hm.
  destruct m as [|[p|p|]|p]; cbn [shr_1 shr_m shr_r shr_s Z.odd]; try lia.
  - split; reflexivity.
  - split; [|reflexivity]. apply Z.div_unique with (r := 1); lia.
  - split; [|reflexivity]. apply Z.div_unique with (r := 0); lia.
  - split; reflexivity.
Qed.

Lemma shr_iter_spec (n : nat) (mrs : shr_record) :
  0 <= shr_m mrs ->
  shr_m (Nat.iter n shr_1 mrs) = shr_m mrs / 2 ^ Z.of_nat n /\
  (inexact mrs = false -> shr_m mrs mod 2 ^ Z.of_nat n = 0 ->
   inexact (Nat.iter n shr_1 mrs) = false).
Proof.
  intros Hm. induction n as [|n IH].
  - simpl. rewrite Z.div_1_r. auto.
  - destruct IH as [IHm IHx].
    assert (Hpow : 0 < 2 ^ Z.of_nat n) by (apply Z.pow_pos_nonneg; lia).
    assert (Hn : 0 <= shr_m (Nat.iter n shr_1 mrs)).
    { rewrite IHm. apply Z.div_pos; lia. }
    destruct (shr_1_spec _ Hn) as [H1 H2].
    change (Nat.iter (S n) shr_1 mrs) with (shr_1 (Nat.iter n shr_1 mrs)).
    rewrite Nat2Z.inj_succ, Z.pow_succ_r by lia.
    split.
    + rewrite H1, IHm, Z.div_div by lia. f_equal. lia.
    + intros Hex Hmod. rewrite H2.
      assert (Hmod' : shr_m mrs mod 2 ^ Z.of_nat n = 0).
      { apply Z.mod_divide in Hmod; [|lia]. apply Z.mod_divide; [lia|].
        destruct Hmod as [c Hc]. exists (c * 2). lia. }
      rewrite (IHx Hex Hmod'), orb_false_r.
      rewrite IHm. apply Z.mod_divide in Hmod; [|lia]. destruct Hmod as [c Hc].
      rewrite Hc. replace (c * (2 * 2 ^ Z.of_nat n)) with (c * 2 * 2 ^ Z.of_nat n) by lia.
      rewrite Z.div_mul by lia. rewrite Z.odd_mul. simpl. apply andb_false_r.
Qed.

Lemma shr_spec (mrs : shr_record) (e n : Z) :
  0 <= shr_m mrs ->
  let d := Z.max 0 n in
  snd (shr mrs e n) = e + d /\
  shr_m (fst (shr mrs e n)) = shr_m mrs / 2 ^ d /\
  (inexact mrs = false -> shr_m mrs mod 2 ^ d = 0 ->
   inexact (fst (shr mrs e n)) = false).
Proof.
  intros Hm d. unfold shr. destruct n as [|p|p]; simpl.
  - subst d. simpl. rewrite Z.div_1_r. split; [lia|auto].
  - subst d. rewrite iter_pos_nat.
    replace (Z.max 0 (Z.pos p)) with (Z.pos p) by lia.
    destruct (shr_iter_spec (Pos.to_nat p) mrs Hm) as [H1 H2].
    rewrite positive_nat_Z in H1, H2. auto.
  - subst d. replace (Z.max 0 (Z.neg p)) with 0 by lia. simpl. rewrite Z.div_1_r. split; [lia|auto].
Qed.

Lemma fexp_eq (x : Z) : fexp prec emax x = Z.max (x - 53) (-1074).
Proof. reflexivity. Qed.

Lemma shr_record_of_loc_m (m : Z) (l : location) : shr_m (shr_record_of_loc m l) = m.
Proof. destruct l as [|[ | | ]]; reflexivity. Qed.

Lemma round_nearest_even_cases (mrs : shr_record) :
  let m' := round_nearest_even (shr_m mrs) (loc_of_shr_record mrs) in
  (m' = shr_m mrs \/ m' = shr_m mrs + 1) /\ (inexact mrs = false -> m' = shr_m mrs).
Proof.
  destruct mrs as [m [|] [|]]; unfold inexact; cbn; try destruct (Z.even m); auto; split; auto; discriminate.
Qed.

Lemma shr_fexp_spec (m e : Z) (l : location) :
  0 <= m ->
  let d := Z.max 0 (fexp prec emax (Zdigits2 m + e) - e) in
  snd (shr_fexp prec emax m e l) = e + d /\
  shr_m (fst (shr_fexp prec emax m e l)) = m / 2 ^ d /\
  (l = loc_Exact -> m mod 2 ^ d = 0 -> inexact (fst (shr_fexp prec emax m e l)) = false).
Proof.
  intros Hm d. unfold shr_fexp.
  pose proof (shr_spec (shr_record_of_loc m l) e (fexp prec emax (Zdigits2 m + e) - e)) as H.
  rewrite shr_record_of_loc_m in H. destruct (H Hm) as (H1 & H2 & H3).
  repeat split; auto. intros -> Hmod. apply H3; auto.
Qed.

Lemma shifted_mantissa_bound (m e : Z) :
  0 <= m ->
  let d := Z.max 0 (fexp prec emax (Zdigits2 m + e) - e) in
  m / 2 ^ d < 2 ^ 53 /\ -1074 <= e + d.
Proof.
  intros Hm d. subst d. rewrite fexp_eq. split; [|lia].
  destruct (Z.eq_dec m 0) as [->|Hne].
  - rewrite Z.div_0_l; [lia|]. apply Z.pow_nonzero; lia.
  - assert (Hpos : 0 < m) by lia.
    pose proof (Zdigits2_bounds m Hpos) as [_ Hhi].
    apply Z.div_lt_upper_bound; [apply Z.pow_pos_nonneg; lia|].
    rewrite <- Z.pow_add_r by lia.
    eapply Z.lt_le_trans; [exact Hhi|]. apply Z.pow_le_mono_r; lia.
Qed.

Lemma binary_round_aux_spec (s : bool) (m e : Z) (l : location) :
  0 <= m ->
  let d1 := Z.max 0 (fexp prec emax (Zdigits2 m + e) - e) in
  let m1 := m / 2 ^ d1 in
  exists mr d2,
    (d2 = 0 \/ (d2 = 1 /\ m1 = 2 ^ 53 - 1 /\ mr = 2 ^ 52)) /\
    (mr * 2 ^ d2 = m1 \/ mr * 2 ^ d2 = m1 + 1) /\
    (l = loc_Exact -> m mod 2 ^ d1 = 0 -> d2 = 0 /\ mr = m1) /\
    0 <= m1 < 2 ^ 53 /\ 0 <= mr < 2 ^ 53 /\ -1074 <= e + d1 /\
    binary_round_aux prec emax s m e l =
      if mr =? 0 then S754_zero s
      else if e + d1 + d2 <=? 971 then S754_finite s (Z.to_pos mr) (e + d1 + d2)
      else S754_infinity s.
Proof.
  intros Hm d1 m1.
  destruct (shifted_mantissa_bound m e Hm) as [Hm1 He1]. fold d1 in Hm1, He1. fold m1 in Hm1.
  assert (Hm1' : 0 <= m1) by (apply Z.div_pos; [lia | apply Z.pow_pos_nonneg; lia]).
  destruct (shr_fexp_spec m e l Hm) as (Hs1 & Hs2 & Hs3). fold d1 in Hs1, Hs2, Hs3. fold m1 in Hs2.
  unfold binary_round_aux.
  destruct (shr_fexp prec emax m e l) as [mrs' e'] eqn:E1. simpl in Hs1, Hs2, Hs3. subst e'.
  destruct (round_nearest_even_cases mrs') as [Hr Hrx].
  remember (round_nearest_even (shr_m mrs') (loc_of_shr_record mrs')) as m' eqn:Em'.
  rewrite Hs2 in Hr, Hrx. clear Em'.
  assert (Hm' : 0 <= m') by lia.
  destruct (shr_fexp_spec m' (e + d1) loc_Exact Hm') as (Ht1 & Ht2 & _).
  destruct (shr_fexp prec emax m' (e + d1) loc_Exact) as [mrs'' e''] eqn:E2.
  simpl in Ht1, Ht2. rewrite Ht2. subst e''.
  set (n2 := Z.max 0 (fexp prec emax (Zdigits2 m' + (e + d1)) - (e + d1))) in *.
  destruct (Z.eq_dec m' (2 ^ 53)) as [Hc|Hc].
  - (* the rounded mantissa carries into a 54th digit *)
    assert (Hn2 : n2 = 1).
    { subst n2. rewrite Hc. change (Zdigits2 (2 ^ 53)) with 54. rewrite fexp_eq. lia. }
    rewrite Hn2, Hc. change (2 ^ 53 / 2 ^ 1) with (2 ^ 52).
    assert (Hm1e : m1 = 2 ^ 53 - 1) by lia.
    exists (2 ^ 52), 1.
    refine (conj _ (conj _ (conj _ (conj _ (conj _ (conj _ _)))))); try lia.
    + intros Hl Hmod. exfalso. specialize (Hrx (Hs3 Hl Hmod)). lia.
    + reflexivity.
  - assert (Hlt : m' < 2 ^ 53) by lia.
    assert (Hn2 : n2 = 0).
    { subst n2. rewrite fexp_eq. destruct (Z.eq_dec m' 0) as [->|Hne]; [simpl; lia|].
      assert (Zdigits2 m' <= 53) by (apply Zdigits2_le; lia). lia. }
    rewrite Hn2. rewrite Z.div_1_r.
    exists m', 0. rewrite Z.mul_1_r, Z.add_0_r.
    refine (conj _ (conj _ (conj _ (conj _ (conj _ (conj _ _)))))); try lia.
    + intros Hl Hmod. specialize (Hrx (Hs3 Hl Hmod)). lia.
    + destruct m' as [|p|p]; try lia; reflexivity.
Qed.

Lemma pow2_pos (k : Z) : 0 <= k -> 0 < 2 ^ k.
Proof. intros. apply Z.pow_pos_nonneg; lia. Qed.

(** Rounding a mantissa of at least 53 digits, away from underflow and
    overflow: the result is a normal number within relative error 2^-52. *)
Lemma binary_round_aux_normal (m e : Z) (l : location) :
  2 ^ 52 <= m ->
  -1074 <= Zdigits2 m + e - 53 < 971 ->
  exists mr d,
    binary_round_aux prec emax false m e l = S754_finite false (Z.to_pos mr) (e + d) /\
    2 ^ 52 <= mr < 2 ^ 53 /\
    Zdigits2 m - 53 <= d <= Zdigits2 m - 52 /\
    mr * 2 ^ d * 2 ^ 52 <= m * (2 ^ 52 + 1) /\
    m * (2 ^ 52 - 1) <= mr * 2 ^ d * 2 ^ 52 /\
    (l = loc_Exact -> m mod 2 ^ (Zdigits2 m - 53) = 0 ->
     d = Zdigits2 m - 53 /\ mr * 2 ^ d = m).
Proof.
  intros Hm He.
  assert (Hpos : 0 < m) by lia.
  pose proof (Zdigits2_bounds m Hpos) as [Hlo Hhi].
  assert (Hdig : 53 <= Zdigits2 m) by (apply (Zdigits2_ge m 52); lia).
  destruct (binary_round_aux_spec false m e l) as (mr & d2 & Hd2 & Hmr & Hex & Hm1 & Hmrb & _ & Heq); [lia|].
  rewrite fexp_eq in Hd2, Hmr, Hex, Hm1, Heq.
  replace (Z.max 0 (Z.max (Zdigits2 m + e - 53) (-1074) - e)) with (Zdigits2 m - 53) in * by lia.
  set (d1 := Zdigits2 m - 53) in *.
  set (m1 := m / 2 ^ d1) in *.
  assert (Hp1 : 0 < 2 ^ d1) by (apply pow2_pos; lia).
  assert (Hsplit : 2 ^ (Zdigits2 m - 1) = 2 ^ 52 * 2 ^ d1).
  { rewrite <- Z.pow_add_r by lia. f_equal. lia. }
  assert (Hm1lo : 2 ^ 52 <= m1).
  { apply Z.div_le_lower_bound; lia. }
  assert (Hdm : m1 * 2 ^ d1 <= m < (m1 + 1) * 2 ^ d1).
  { pose proof (Z.div_mod m (2 ^ d1) ltac:(lia)).
    pose proof (Z.mod_pos_bound m (2 ^ d1) Hp1). fold m1 in H. lia. }
  assert (Hd2' : (d2 = 0 \/ d2 = 1) /\ 2 ^ 52 <= mr).
  { destruct Hd2 as [->|(-> & _ & ->)]; [|lia]. rewrite Z.mul_1_r in Hmr. lia. }
  destruct Hd2' as [Hd2' Hmrlo].
  assert (Hp2 : 2 ^ (d1 + d2) = 2 ^ d2 * 2 ^ d1).
  { rewrite Z.pow_add_r by lia. lia. }
  exists mr, (d1 + d2).
  refine (conj _ (conj _ (conj _ (conj _ (conj _ _))))); try lia.
  - rewrite Heq. destruct (mr =? 0) eqn:E0; [lia|].
    replace (e + d1 + d2 <=? 971) with true by (symmetry; apply Z.leb_le; lia).
    f_equal. lia.
  - intros Hl Hmod. destruct (Hex Hl Hmod) as [-> ->].
    split; [lia|]. rewrite Z.add_0_r. 
    pose proof (Z.div_mod m (2 ^ d1) ltac:(lia)). fold m1 in H. lia.
Qed.




Lemma new_location_exact (nb r : Z) : r = 0 -> new_location nb r = loc_Exact.
Proof.
  intros ->. unfold new_location, new_location_even, new_location_odd.
  destruct (Z.even nb); reflexivity.
Qed.

Lemma div_core_spec (a b : Z) :
  0 < a < 2 ^ 53 -> 0 < b < 2 ^ 64 ->
  let s := 53 - Zdigits2 a + Zdigits2 b in
  exists l,
    SFdiv_core_binary prec emax a 0 b 0 = (a * 2 ^ s / b, - s, l) /\
    0 <= s /\
    2 ^ 52 <= a * 2 ^ s / b < 2 ^ 54 /\
    ((a * 2 ^ s) mod b = 0 -> l = loc_Exact).
Proof.
  intros Ha Hb s.
  pose proof (Zdigits2_bounds a ltac:(lia)) as [Halo Hahi].
  pose proof (Zdigits2_bounds b ltac:(lia)) as [Hblo Hbhi].
  assert (Hda : 1 <= Zdigits2 a <= 53).
  { split; [pose proof (Zdigits2_pos a); lia | apply Zdigits2_le; lia]. }
  assert (Hdb : 1 <= Zdigits2 b <= 64).
  { split; [pose proof (Zdigits2_pos b); lia | apply Zdigits2_le; lia]. }
  assert (Hs : 0 <= s) by (unfold s; lia).
  unfold SFdiv_core_binary. rewrite fexp_eq.
  replace (Z.min (Z.max (Zdigits2 a + 0 - (Zdigits2 b + 0) - 53) (-1074)) (0 - 0)) with (- s)
    by (unfold s; lia).
  replace (0 - 0 - - s) with s by lia.
  assert (Hm' : match s with Z.pos _ => Z.shiftl a s | 0 => a | Z.neg _ => 0 end = a * 2 ^ s).
  { destruct s as [|p|p] eqn:Es; [lia| |lia]. apply Z.shiftl_mul_pow2. lia. }
  rewrite Hm'.
  assert (Hq : fst (Z.div_eucl (a * 2 ^ s) b) = a * 2 ^ s / b) by reflexivity.
  assert (Hr : snd (Z.div_eucl (a * 2 ^ s) b) = (a * 2 ^ s) mod b) by reflexivity.
  destruct (Z.div_eucl (a * 2 ^ s) b) as [q r]. simpl in Hq, Hr. subst q r.
  exists (new_location b ((a * 2 ^ s) mod b)).
  refine (conj eq_refl (conj Hs (conj _ _))).
  - assert (Hps : 0 < 2 ^ s) by (apply pow2_pos; lia).
    assert (H1 : 2 ^ (Zdigits2 a - 1) * 2 ^ s = 2 ^ 52 * 2 ^ Zdigits2 b).
    { rewrite <- !Z.pow_add_r by lia. f_equal. unfold s. lia. }
    assert (H2 : 2 ^ Zdigits2 a * 2 ^ s = 2 ^ 54 * 2 ^ (Zdigits2 b - 1)).
    { rewrite <- !Z.pow_add_r by lia. f_equal. unfold s. lia. }
    split.
    + apply Z.div_le_lower_bound; [lia|]. 
      assert (2 ^ (Zdigits2 a - 1) * 2 ^ s <= a * 2 ^ s) by (apply Z.mul_le_mono_nonneg_r; lia).
      assert (b * 2 ^ 52 <= 2 ^ 52 * 2 ^ Zdigits2 b) by nia. lia.
    + apply Z.div_lt_upper_bound; [lia|].
      assert (a * 2 ^ s < 2 ^ Zdigits2 a * 2 ^ s) by (apply Z.mul_lt_mono_pos_r; lia).
      assert (2 ^ 54 * 2 ^ (Zdigits2 b - 1) <= b * 2 ^ 54) by nia. lia.
  - apply new_location_exact.
Qed.

Lemma SFdiv_exact_int (a b : Z) :
  0 < a -> 0 < b ->
  SFdiv prec emax (exact_int a) (exact_int b) =
  let '(mz, ez, lz) := SFdiv_core_binary prec emax a 0 b 0 in
  binary_round_aux prec emax false mz ez lz.
Proof. destruct a, b; intros; try lia; reflexivity. Qed.

(** Arithmetic behind the error bounds, with the powers of two abstracted. *)
Lemma quotient_upper (mr D E q0 b a S C : Z) :
  0 < E -> 0 < b -> 0 < C ->
  mr * D * E <= q0 * (E + 1) ->
  q0 * b <= a * S ->
  mr * (D * C) * b * E <= a * (S * C) * (E + 1).
Proof.
  intros HE Hb HC H1 H2. remember (a * S) as aS eqn:EaS.
  replace (a * (S * C)) with (aS * C) by (subst aS; ring).
  assert (mr * D * E * b <= q0 * (E + 1) * b) by (apply Z.mul_le_mono_nonneg_r; lia).
  assert (q0 * b * (E + 1) <= aS * (E + 1)) by (apply Z.mul_le_mono_nonneg_r; lia).
  assert (mr * D * E * b * C <= aS * (E + 1) * C) by (apply Z.mul_le_mono_nonneg_r; lia).
  lia.
Qed.

Lemma quotient_lower (mr D E q0 b a S C : Z) :
  1 < E -> 0 < b -> 0 < C -> E <= q0 ->
  q0 * (E - 1) <= mr * D * E ->
  a * S < (q0 + 1) * b ->
  a * (S * C) * (E - 1) <= mr * (D * C) * b * (E + 1).
Proof.
  intros HE Hb HC Hq H1 H2. remember (a * S) as aS eqn:EaS.
  replace (a * (S * C)) with (aS * C) by (subst aS; ring).
  assert (H3 : (q0 + 1) * E <= q0 * (E + 1)) by lia.
  assert (H4 : aS * E <= (q0 + 1) * b * E) by (apply Z.mul_le_mono_nonneg_r; lia).
  assert (H5 : (q0 + 1) * E * b <= q0 * (E + 1) * b) by (apply Z.mul_le_mono_nonneg_r; lia).
  assert (H6 : aS * E * (E - 1) <= q0 * (E + 1) * b * (E - 1)) by (apply Z.mul_le_mono_nonneg_r; lia).
  assert (H7 : q0 * (E - 1) * ((E + 1) * b) <= mr * D * E * ((E + 1) * b))
    by (apply Z.mul_le_mono_nonneg_r; lia).
  assert (H8 : E * (aS * (E - 1)) <= E * (mr * D * b * (E + 1))) by lia.
  apply Z.mul_le_mono_pos_l in H8; [|lia].
  assert (aS * (E - 1) * C <= mr * D * b * (E + 1) * C) by (apply Z.mul_le_mono_nonneg_r; lia).
  lia.
Qed.

(** CPython's [int / int]: the correctly rounded quotient of the two integers. *)
Lemma true_div_spec (a b : Z) :
  0 < a < 2 ^ 53 -> 0 < b < 2 ^ 64 ->
  exists m e,
    SFdiv prec emax (exact_int a) (exact_int b) = S754_finite false m e /\
    2 ^ 52 <= Zpos m < 2 ^ 53 /\
    Zdigits2 a - Zdigits2 b - 53 <= e <= Zdigits2 a - Zdigits2 b - 51 /\
    Zpos m * 2 ^ (e + 1074) * b * 2 ^ 52 <= a * 2 ^ 1074 * (2 ^ 52 + 1) /\
    a * 2 ^ 1074 * (2 ^ 52 - 1) <= Zpos m * 2 ^ (e + 1074) * b * (2 ^ 52 + 1) /\
    (a mod b = 0 -> Zpos m * 2 ^ (e + 1074) = a / b * 2 ^ 1074).
Proof.
  intros Ha Hb.
  destruct (div_core_spec a b Ha Hb) as (l & Hcore & Hs & Hq & Hl).
  pose proof (Zdigits2_pos a ltac:(lia)) as Hda0.
  assert (Hda : Zdigits2 a <= 53) by (apply Zdigits2_le; lia).
  pose proof (Zdigits2_pos b ltac:(lia)) as Hdb0.
  assert (Hdb : Zdigits2 b <= 64) by (apply Zdigits2_le; lia).
  remember (53 - Zdigits2 a + Zdigits2 b) as s eqn:Es.
  remember (a * 2 ^ s / b) as q0 eqn:Eq0.
  assert (Hdq : 53 <= Zdigits2 q0 <= 54).
  { split; [apply (Zdigits2_ge q0 52); lia | apply Zdigits2_le; lia]. }
  destruct (binary_round_aux_normal q0 (- s) l) as (mr & d & Heq & Hmr & Hd & Hup & Hlow & Hex);
    [lia | lia |].
  rewrite SFdiv_exact_int, Hcore, Heq by lia.
  exists (Z.to_pos mr), (- s + d). rewrite Z2Pos.id by lia.
  assert (Hps : 0 < 2 ^ s) by (apply pow2_pos; lia).
  assert (Hpd : 0 < 2 ^ d) by (apply pow2_pos; lia).
  assert (Hpc : 0 < 2 ^ (1074 - s)) by (apply pow2_pos; lia).
  assert (Hsc : 2 ^ (- s + d + 1074) = 2 ^ d * 2 ^ (1074 - s)).
  { rewrite <- Z.pow_add_r by lia. f_equal. lia. }
  assert (Hsc' : 2 ^ 1074 = 2 ^ s * 2 ^ (1074 - s)).
  { rewrite <- Z.pow_add_r by lia. f_equal. lia. }
  pose proof (Z.div_mod (a * 2 ^ s) b ltac:(lia)) as Hdm.
  pose proof (Z.mod_pos_bound (a * 2 ^ s) b ltac:(lia)) as Hmb.
  rewrite <- Eq0 in Hdm.
  refine (conj eq_refl (conj Hmr (conj _ (conj _ (conj _ _))))).
  - lia.
  - rewrite Hsc, Hsc'.
    apply quotient_upper with (q0 := q0); lia.
  - rewrite Hsc, Hsc'.
    apply quotient_lower with (q0 := q0); lia.
  - intros Hmod.
    apply Z.mod_divide in Hmod; [|lia]. destruct Hmod as [k Hk].
    assert (Hk0 : 0 < k) by nia.
    assert (Hq0 : q0 = k * 2 ^ s).
    { rewrite Eq0, Hk. replace (k * b * 2 ^ s) with (k * 2 ^ s * b) by lia.
      apply Z.div_mul. lia. }
    assert (Hmod0 : (a * 2 ^ s) mod b = 0).
    { rewrite Hk. replace (k * b * 2 ^ s) with (k * 2 ^ s * b) by lia.
      apply Z.mod_mul. lia. }
    assert (Hs1 : 1 <= s) by lia.
    assert (Hdiv : q0 mod 2 ^ (Zdigits2 q0 - 53) = 0).
    { apply Z.mod_divide; [apply Z.pow_nonzero; lia|].
      exists (k * 2 ^ (s - (Zdigits2 q0 - 53))).
      rewrite <- Z.mul_assoc, <- Z.pow_add_r by lia.
      rewrite Hq0 at 1. do 2 f_equal. lia. }
    destruct (Hex (Hl Hmod0) Hdiv) as [Hd' Hmrd].
    rewrite Hsc. rewrite Z.mul_assoc, Hmrd, Hq0, Hk, Z.div_mul by lia.
    rewrite Hsc'. lia.
Qed.


Lemma iter_xO_pow2 (p d : positive) : Zpos (Pos.iter xO p d) = Zpos p * 2 ^ Zpos d.
Proof.
  rewrite (Pos.iter_swap_gen _ _ Zpos xO (Z.mul 2)) by reflexivity.
  change (Pos.iter (Z.mul 2) (Z.pos p) d) with (Z.shiftl (Z.pos p) (Z.pos d)).
  apply Z.shiftl_mul_pow2. lia.
Qed.

Lemma Zdigits2_shift (n k : Z) : 0 < n -> 0 <= k -> Zdigits2 (n * 2 ^ k) = Zdigits2 n + k.
Proof.
  intros Hn Hk. pose proof (Zdigits2_bounds n Hn) as [Hlo Hhi].
  pose proof (Zdigits2_pos n Hn) as Hd. pose proof (pow2_pos k Hk) as Hp.
  assert (Hlo' : 2 ^ (Zdigits2 n + k - 1) <= n * 2 ^ k).
  { replace (Zdigits2 n + k - 1) with (Zdigits2 n - 1 + k) by lia.
    rewrite Z.pow_add_r by lia. apply Z.mul_le_mono_nonneg_r; lia. }
  assert (Hhi' : n * 2 ^ k < 2 ^ (Zdigits2 n + k)).
  { rewrite Z.pow_add_r by lia. apply Z.mul_lt_mono_pos_r; lia. }
  assert (0 < n * 2 ^ k) by lia.
  apply Z.le_antisymm.
  - apply Zdigits2_le; lia.
  - pose proof (Zdigits2_ge (n * 2 ^ k) (Zdigits2 n + k - 1)). lia.
Qed.

Lemma float_of_int_spec (n : Z) :
  0 < n < 2 ^ 64 ->
  exists m e,
    float_of_int n = S754_finite false m e /\
    2 ^ 52 <= Zpos m < 2 ^ 53 /\
    Zdigits2 n - 53 <= e <= Zdigits2 n - 52 /\
    Zpos m * 2 ^ (e + 1074) * 2 ^ 52 <= n * 2 ^ 1074 * (2 ^ 52 + 1) /\
    n * 2 ^ 1074 * (2 ^ 52 - 1) <= Zpos m * 2 ^ (e + 1074) * 2 ^ 52 /\
    (n < 2 ^ 53 -> Zpos m * 2 ^ (e + 1074) = n * 2 ^ 1074).
Proof.
  intros Hn. destruct n as [|p|p]; try lia.
  pose proof (Zdigits2_bounds (Z.pos p) ltac:(lia)) as [Hlo Hhi].
  pose proof (Zdigits2_pos (Z.pos p) ltac:(lia)) as Hd0.
  assert (Hd : Zdigits2 (Z.pos p) <= 64) by (apply Zdigits2_le; lia).
  unfold float_of_int, binary_normalize, binary_round.
  change (Z.pos (digits2_pos p)) with (Zdigits2 (Z.pos p)).
  remember (Zdigits2 (Z.pos p)) as dn eqn:Edn.
  destruct (Z_lt_le_dec dn 53) as [Hsmall|Hbig].
  - (* fewer than 53 digits: the mantissa is shifted left, nothing is lost *)
    unfold shl_align. rewrite fexp_eq.
    destruct (Z.max (dn + 0 - 53) (-1074) - 0) as [|k|k] eqn:Ek; try lia.
    assert (Hk : Z.pos k = 53 - dn) by lia.
    remember (Pos.iter xO p k) as mz eqn:Emz.
    assert (Hmz : Z.pos mz = Z.pos p * 2 ^ (53 - dn)) by (rewrite Emz, iter_xO_pow2, Hk; reflexivity).
    assert (Hdz : Zdigits2 (Z.pos mz) = 53).
    { rewrite Hmz, Zdigits2_shift by lia. lia. }
    pose proof (Zdigits2_bounds (Z.pos mz) ltac:(lia)) as [Hzlo Hzhi]. rewrite Hdz in Hzlo, Hzhi.
    destruct (binary_round_aux_normal (Z.pos mz) (Z.max (dn + 0 - 53) (-1074)) loc_Exact)
      as (mr & d & Heq & Hmr & Hdd & _ & _ & Hex); [lia | lia |].
    rewrite Hdz in Hex. destruct (Hex eq_refl) as [Hd' Hmrd]; [apply Z.mod_1_r|].
    subst d. rewrite Z.mul_1_r in Hmrd. subst mr. rewrite Heq.
    exists mz, (dn - 53). rewrite Pos2Z.id.
    assert (Hv : Z.pos mz * 2 ^ (dn - 53 + 1074) = Z.pos p * 2 ^ 1074).
    { rewrite Hmz, <- Z.mul_assoc, <- Z.pow_add_r by lia. do 2 f_equal. lia. }
    rewrite Hv.
    refine (conj _ (conj _ (conj _ (conj _ (conj _ _))))); try lia.
    f_equal. lia.
  - assert (Hp52 : 2 ^ 52 <= Z.pos p).
    { eapply Z.le_trans; [|exact Hlo]. apply Z.pow_le_mono_r; lia. }
    unfold shl_align. rewrite fexp_eq.
    destruct (Z.max (dn + 0 - 53) (-1074) - 0) as [|k|k] eqn:Ek; try lia.
    + destruct (binary_round_aux_normal (Z.pos p) 0 loc_Exact)
        as (mr & d & Heq & Hmr & Hdd & Hup & Hlow & Hex); [lia | lia |].
      rewrite Heq. exists (Z.to_pos mr), (0 + d). rewrite Z2Pos.id by lia.
      rewrite <- Edn in Hdd, Hex.
      assert (Hd53 : dn = 53) by lia.
      destruct (Hex eq_refl) as [Hd' Hmrd].
      { rewrite Hd53. apply Z.mod_1_r. }
      subst d. replace (dn - 53) with 0 in * by lia. rewrite Z.mul_1_r in Hmrd. subst mr.
      refine (conj eq_refl (conj _ (conj _ (conj _ (conj _ _))))); try lia.
    + destruct (binary_round_aux_normal (Z.pos p) 0 loc_Exact)
        as (mr & d & Heq & Hmr & Hdd & Hup & Hlow & Hex); [lia | lia |].
      rewrite Heq. exists (Z.to_pos mr), (0 + d). rewrite Z2Pos.id by lia.
      rewrite <- Edn in Hdd, Hex.
      assert (Hpd : 0 < 2 ^ d) by (apply pow2_pos; lia).
      assert (Hsc : 2 ^ (0 + d + 1074) = 2 ^ d * 2 ^ 1074).
      { rewrite <- Z.pow_add_r by lia. f_equal. }
      rewrite Hsc.
      assert (HP : 0 < 2 ^ 1074) by (apply pow2_pos; lia).
      refine (conj eq_refl (conj _ (conj _ (conj _ (conj _ _))))); try lia.
      * intros Hlt. exfalso. assert (dn <= 53) by (rewrite Edn; apply Zdigits2_le; lia). lia.
Qed.

Lemma mul_spec (mx my : positive) (ex ey : Z) :
  2 ^ 52 <= Zpos mx < 2 ^ 53 -> 2 ^ 52 <= Zpos my < 2 ^ 53 ->
  -1074 <= ex -> -52 <= ey -> ex + ey < 900 ->
  exists m e,
    SFmul prec emax (S754_finite false mx ex) (S754_finite false my ey) = S754_finite false m e /\
    2 ^ 52 <= Zpos m < 2 ^ 53 /\
    ex + ey + 52 <= e <= ex + ey + 54 /\
    Zpos m * 2 ^ (e + 1074) * 2 ^ 1074 * 2 ^ 52 <=
      (Zpos mx * 2 ^ (ex + 1074)) * (Zpos my * 2 ^ (ey + 1074)) * (2 ^ 52 + 1) /\
    (Zpos mx * 2 ^ (ex + 1074)) * (Zpos my * 2 ^ (ey + 1074)) * (2 ^ 52 - 1) <=
      Zpos m * 2 ^ (e + 1074) * 2 ^ 1074 * 2 ^ 52.
Proof.
  intros Hx Hy Hex Hey Hsum.
  cbn [SFmul xorb]. rewrite Pos2Z.inj_mul.
  remember (Z.pos mx * Z.pos my) as m0 eqn:Em0.
  assert (Hm0 : 2 ^ 104 <= m0 < 2 ^ 106).
  { subst m0. change (2 ^ 104) with (2 ^ 52 * 2 ^ 52). change (2 ^ 106) with (2 ^ 53 * 2 ^ 53).
    split; [apply Z.mul_le_mono_nonneg | apply Z.mul_lt_mono_nonneg]; lia. }
  assert (Hd0 : 105 <= Zdigits2 m0 <= 106).
  { split; [apply (Zdigits2_ge m0 104); lia | apply Zdigits2_le; lia]. }
  destruct (binary_round_aux_normal m0 (ex + ey) loc_Exact)
    as (mr & d & Heq & Hmr & Hd & Hup & Hlow & _); [lia | lia |].
  rewrite Heq. exists (Z.to_pos mr), (ex + ey + d). rewrite Z2Pos.id by lia.
  assert (Hsc : 2 ^ (ex + ey + d + 1074) * 2 ^ 1074 = 2 ^ d * (2 ^ (ex + 1074) * 2 ^ (ey + 1074))).
  { rewrite <- !Z.pow_add_r by lia. f_equal. lia. }
  pose proof (pow2_pos (ex + 1074) ltac:(lia)) as Hpx.
  pose proof (pow2_pos (ey + 1074) ltac:(lia)) as Hpy.
  refine (conj eq_refl (conj Hmr (conj _ (conj _ _)))).
  - lia.
  - rewrite <- (Z.mul_assoc mr) at 1. rewrite Hsc.
    assert (H : mr * 2 ^ d * 2 ^ 52 * (2 ^ (ex + 1074) * 2 ^ (ey + 1074)) <=
                m0 * (2 ^ 52 + 1) * (2 ^ (ex + 1074) * 2 ^ (ey + 1074)))
      by (apply Z.mul_le_mono_nonneg_r; lia).
    subst m0. 
    generalize dependent (2 ^ (ex + 1074)). generalize dependent (2 ^ (ey + 1074)).
    generalize dependent (2 ^ 52). generalize dependent (2 ^ d). clear. intros. lia.
  - rewrite <- (Z.mul_assoc mr) at 1. rewrite Hsc.
    assert (H : m0 * (2 ^ 52 - 1) * (2 ^ (ex + 1074) * 2 ^ (ey + 1074)) <=
                mr * 2 ^ d * 2 ^ 52 * (2 ^ (ex + 1074) * 2 ^ (ey + 1074)))
      by (apply Z.mul_le_mono_nonneg_r; lia).
    subst m0. 
    generalize dependent (2 ^ (ex + 1074)). generalize dependent (2 ^ (ey + 1074)).
    generalize dependent (2 ^ 52). generalize dependent (2 ^ d). clear. intros. lia.
Qed.

End Float64Facts.

(** ** The step of the Batch Partitioner *)

Lemma py_int_spec (m : positive) (e : Z) :
  -1074 <= e ->
  exists K,
    py_int (S754_finite false m e) = Ok K /\ 0 <= K /\
    K * 2 ^ 1074 <= Zpos m * 2 ^ (e + 1074) < (K + 1) * 2 ^ 1074.
Proof.
  intros He. unfold py_int, cond_Zopp.
  destruct e as [|k|k].
  - exists (Z.pos m * 2 ^ 0). rewrite Z.pow_0_r, Z.mul_1_r. simpl (0 + 1074).
    pose proof (Float64Facts.pow2_pos 1074 ltac:(lia)). repeat split; lia.
  - exists (Z.pos m * 2 ^ Z.pos k).
    pose proof (Float64Facts.pow2_pos (Z.pos k) ltac:(lia)).
    pose proof (Float64Facts.pow2_pos 1074 ltac:(lia)).
    rewrite Z.pow_add_r by lia. repeat split; nia.
  - exists (Z.pos m / 2 ^ Z.pos k).
    assert (Hk : 0 < 2 ^ Z.pos k) by (apply Float64Facts.pow2_pos; lia).
    assert (Hc : 0 < 2 ^ (Z.neg k + 1074)) by (apply Float64Facts.pow2_pos; lia).
    assert (Hsplit : 2 ^ 1074 = 2 ^ Z.pos k * 2 ^ (Z.neg k + 1074)).
    { rewrite <- Z.pow_add_r by lia. f_equal. lia. }
    pose proof (Z.div_mod (Z.pos m) (2 ^ Z.pos k) ltac:(lia)) as Hdm.
    pose proof (Z.mod_pos_bound (Z.pos m) (2 ^ Z.pos k) Hk) as Hmb.
    assert (Hq : 0 <= Z.pos m / 2 ^ Z.pos k) by (apply Z.div_pos; lia).
    rewrite Hsplit. repeat split; try assumption.
    + generalize dependent (Z.pos m / 2 ^ Z.pos k). generalize dependent (2 ^ Z.pos k).
      generalize dependent (2 ^ (Z.neg k + 1074)). clear. intros. nia.
    + generalize dependent (Z.pos m / 2 ^ Z.pos k). generalize dependent (2 ^ Z.pos k).
      generalize dependent (2 ^ (Z.neg k + 1074)). clear. intros. nia.
Qed.

(** The three roundings of [360000 / size * len] compound to a relative
    error of at most [(1 + 2^-52)^3]. *)
Lemma rounding_chain (K Vp Vq Vn A S N P E : Z) :
  0 < P -> 0 < E -> 0 <= A -> 0 <= Vq -> 0 <= Vn -> 0 <= K -> 0 <= S ->
  K * P <= Vp ->
  Vp * P * E <= Vq * Vn * (E + 1) ->
  Vq * S * E <= A * P * (E + 1) ->
  Vn * E <= N * P * (E + 1) ->
  K * S * (E * E * E) <= A * N * ((E + 1) * (E + 1) * (E + 1)).
Proof.
  intros HP HE HA HVq HVn HK HS H1 H2 H3 H4.
  assert (a1 : K * P * (P * E) <= Vp * (P * E)) by (apply Z.mul_le_mono_nonneg_r; nia).
  assert (a2 : K * P * (P * E) <= Vq * Vn * (E + 1)) by lia.
  assert (a3 : K * P * (P * E) * (S * E * E) <= Vq * Vn * (E + 1) * (S * E * E))
    by (apply Z.mul_le_mono_nonneg_r; nia).
  assert (a4 : Vq * S * E * (Vn * E) <= A * P * (E + 1) * (Vn * E))
    by (apply Z.mul_le_mono_nonneg_r; nia).
  assert (a5 : A * P * (E + 1) * (Vn * E) <= A * P * (E + 1) * (N * P * (E + 1)))
    by (apply Z.mul_le_mono_nonneg_l; nia).
  assert (a6 : Vq * S * E * (Vn * E) * (E + 1) <= A * P * (E + 1) * (N * P * (E + 1)) * (E + 1))
    by (apply Z.mul_le_mono_nonneg_r; lia).
  assert (a7 : P * P * (K * S * (E * E * E)) <= P * P * (A * N * ((E + 1) * (E + 1) * (E + 1)))).
  { replace (P * P * (K * S * (E * E * E))) with (K * P * (P * E) * (S * E * E)) by ring.
    replace (P * P * (A * N * ((E + 1) * (E + 1) * (E + 1))))
      with (A * P * (E + 1) * (N * P * (E + 1)) * (E + 1)) by ring.
    eapply Z.le_trans; [exact a3|].
    replace (Vq * Vn * (E + 1) * (S * E * E)) with (Vq * S * E * (Vn * E) * (E + 1)) by ring.
    exact a6. }
  apply Z.mul_le_mono_pos_l in a7; [exact a7 | nia].
Qed.

(** [advance] never fails on sizes a CPython process can hold, advances by at
    least one record, and overshoots [360000 * len / size] by less than the
    rounding allows. *)
Lemma advance_spec (size len : Z) :
  2 <= size < 2 ^ 63 -> 1 <= len < 2 ^ 63 ->
  exists k,
    advance size len = Ok k /\ 1 <= k /\
    (k - 1) * size * (2 ^ 52 * 2 ^ 52 * 2 ^ 52) <=
      360000 * len * ((2 ^ 52 + 1) * (2 ^ 52 + 1) * (2 ^ 52 + 1)).
Proof.
  intros Hsize Hlen. unfold advance, int_true_div.
  destruct (Float64Facts.true_div_spec 360000 size) as (mq & eq & Hq & Hmq & Heq & Hqup & _ & _);
    [lia | lia |].
  destruct (Float64Facts.float_of_int_spec len) as (mn & en & Hn & Hmn & Hen & Hnup & _ & _);
    [lia |].
  assert (Hds : 2 <= SpecFloat.Zdigits2 size <= 63).
  { split; [apply (Float64Facts.Zdigits2_ge size 1); lia | apply Float64Facts.Zdigits2_le; lia]. }
  assert (Hdl : 1 <= SpecFloat.Zdigits2 len <= 63).
  { split; [apply (Float64Facts.Zdigits2_ge len 0); lia | apply Float64Facts.Zdigits2_le; lia]. }
  change (SpecFloat.Zdigits2 360000) with 19 in Heq.
  destruct (Float64Facts.mul_spec mq mn eq en) as (mp & ep & Hp & Hmp & Hep & Hpup & _);
    [lia | lia | lia | lia | lia |].
  destruct (py_int_spec mp ep) as (K & HK & HK0 & HKlo & _); [lia|].
  replace (size =? 0) with false by (symmetry; apply Z.eqb_neq; lia).
  rewrite Hq. cbn [mbind outcome_bind]. unfold float_mul_int. rewrite Hn.
  cbn [mbind outcome_bind]. rewrite Hp, HK. cbn [mbind outcome_bind mret outcome_ret].
  exists (K + 1). split; [reflexivity|]. split; [lia|].
  replace (K + 1 - 1) with K by lia.
  pose proof (Float64Facts.pow2_pos 1074 ltac:(lia)) as HP.
  pose proof (Float64Facts.pow2_pos (eq + 1074) ltac:(lia)) as HPq.
  pose proof (Float64Facts.pow2_pos (en + 1074) ltac:(lia)) as HPn.
  apply (rounding_chain K (Z.pos mp * 2 ^ (ep + 1074)) (Z.pos mq * 2 ^ (eq + 1074))
           (Z.pos mn * 2 ^ (en + 1074)) 360000 size len (2 ^ 1074) (2 ^ 52));
    try lia.
Qed.

(** ** Strings and [json.dumps] *)

Lemma str_len_from_acc (acc : Z) (s : string) : str_len_from acc s = acc + str_len s.
Proof.
  unfold str_len. revert acc. induction s as [|c s IH]; intros acc; simpl.
  - lia.
  - rewrite (IH (acc + 1)), (IH (0 + 1)). lia.
Qed.

Lemma str_len_cons (c : ascii) (s : string) : str_len (String c s) = 1 + str_len s.
Proof. unfold str_len at 1. simpl. apply str_len_from_acc. Qed.

Lemma str_len_nonneg (s : string) : 0 <= str_len s.
Proof. induction s as [|c s IH]; [reflexivity | rewrite str_len_cons; lia]. Qed.

Lemma str_len_app (s t : string) : str_len (s +:+ t) = str_len s + str_len t.
Proof.
  induction s as [|c s IH].
  - change ("" +:+ t) with t. change (str_len "") with 0. lia.
  - change (String c s +:+ t) with (String c (s +:+ t)).
    rewrite !str_len_cons, IH. lia.
Qed.

Lemma str_len_concat (items : list string) :
  items <> [] ->
  str_len (String.concat ", " items) =
  fold_right (fun s acc => str_len s + acc) 0 items + 2 * (Z.of_nat (length items) - 1).
Proof.
  induction items as [|s items IH]; [congruence|]. intros _.
  destruct items as [|t items].
  - simpl. lia.
  - change (String.concat ", " (s :: t :: items))
      with (s +:+ ", " +:+ String.concat ", " (t :: items)).
    rewrite !str_len_app, IH by congruence.
    change (str_len ", ") with 2.
    cbn [fold_right length]. lia.
Qed.

Section JsonDumps.
Context {R : Type} (dumps : R -> string).

Lemma json_dumps_len (records : list R) :
  str_len (json_dumps dumps records) =
  match records with
  | [] => 2
  | _ => fold_right (fun r acc => str_len (dumps r) + acc) 0 records
         + 2 * Z.of_nat (length records)
  end.
Proof.
  unfold json_dumps. rewrite !str_len_app.
  change (str_len "[") with 1. change (str_len "]") with 1.
  destruct records as [|r records]; [reflexivity|].
  rewrite str_len_concat by discriminate.
  rewrite length_map.
  assert (H : forall l : list R,
             fold_right (fun s acc => str_len s + acc) 0 (map dumps l) =
             fold_right (fun r acc => str_len (dumps r) + acc) 0 l).
  { induction l as [|a l IH]; simpl; [reflexivity | rewrite IH; reflexivity]. }
  rewrite H. lia.
Qed.

Lemma json_dumps_len_lower (records : list R) :
  2 <= str_len (json_dumps dumps records) /\
  2 * Z.of_nat (length records) <= str_len (json_dumps dumps records).
Proof.
  rewrite json_dumps_len. destruct records as [|r records]; [simpl; lia|].
  assert (H : forall l : list R, 0 <= fold_right (fun r acc => str_len (dumps r) + acc) 0 l).
  { induction l as [|a l IH]; simpl; [lia | pose proof (str_len_nonneg (dumps a)); lia]. }
  specialize (H (r :: records)). cbn [length] in *. lia.
Qed.

(** Records that all encode to [b] characters. *)
Lemma json_dumps_len_uniform (b : Z) (records : list R) :
  Forall (fun r => str_len (dumps r) = b) records ->
  records <> [] ->
  str_len (json_dumps dumps records) = Z.of_nat (length records) * (b + 2).
Proof.
  intros Hall Hne. rewrite json_dumps_len.
  destruct records as [|r records]; [congruence|].
  assert (H : forall l : list R, Forall (fun r => str_len (dumps r) = b) l ->
             fold_right (fun r acc => str_len (dumps r) + acc) 0 l = Z.of_nat (length l) * b).
  { induction l as [|a l IH]; intros Hl; [reflexivity|].
    inversion Hl as [|? ? Ha Hl']; subst. cbn [fold_right length].
    rewrite IH by assumption. lia. }
  rewrite H by assumption. lia.
Qed.

End JsonDumps.

(** ** The loop of [payload_parser] *)

Lemma last_snoc_some {A} (l : list A) (x : A) : last (l ++ [x]) = Some x.
Proof. apply last_snoc. Qed.

Lemma payload_parser_loop_spec (k len size : Z) :
  (1 <= len -> advance size len = Ok k) -> 1 <= k ->
  forall (fuel : nat) (l : list Z) (x : Z),
    last l = Some x -> 0 <= x ->
    (Z.to_nat (len - x) < fuel)%nat ->
    exists ext, chain k len x ext /\ payload_parser_loop fuel len size l = Ok (l ++ ext).
Proof.
  intros Hadv Hk. induction fuel as [|fuel IH]; intros l x Hlast Hx Hfuel; [lia|].
  cbn [payload_parser_loop]. rewrite Hlast. cbn [of_option mbind outcome_bind].
  destruct (Z.ltb_spec x len) as [Hlt|Hge].
  - rewrite Hadv by lia. cbn [mbind outcome_bind].
    destruct (IH (l ++ [x + k]) (x + k)) as (ext & Hchain & Hrun);
      [apply last_snoc_some | lia | lia |].
    exists ((x + k) :: ext). split; [constructor; assumption|].
    rewrite Hrun, <- app_assoc. reflexivity.
  - exists []. split; [constructor; assumption|]. rewrite app_nil_r. reflexivity.
Qed.

Lemma sorted_weaken (P Q : Z -> Z -> Prop) (l : list Z) :
  (forall a b, P a b -> Q a b) -> Sorted P l -> Sorted Q l.
Proof.
  intros HPQ. induction 1 as [|a l Hs IH Hhd]; constructor; [assumption|].
  destruct Hhd; constructor; auto.
Qed.

(** Clamping the last boundary of a chain to [len] leaves a list that starts
    at [x], ends at [len] and advances by at most [k]. *)
Lemma chain_clamped (k len x : Z) (ext : list Z) :
  1 <= k -> chain k len x ext ->
  let F := removelast (x :: ext) ++ [len] in
  (x < len -> head F = Some x) /\
  (len <= x -> F = [len]) /\
  Sorted (step_within k) F /\
  last F = Some len.
Proof.
  intros Hk Hchain. induction Hchain as [x Hge|x ext Hlt Hchain IH].
  - cbn. repeat split; try lia; auto. 
  - cbv zeta in IH. destruct IH as (IHhd & IHstop & IHs & IHlast).
    change (removelast (x :: (x + k) :: ext)) with (x :: removelast ((x + k) :: ext)).
    cbn [app].
    set (F' := removelast ((x + k) :: ext) ++ [len]) in *.
    refine (conj (fun _ => eq_refl) (conj _ (conj _ _))).
    + lia.
    + constructor; [assumption|].
      destruct (Z_lt_le_dec (x + k) len) as [Hin|Hout].
      * specialize (IHhd Hin). destruct F' as [|a rest]; [discriminate|].
        cbn in IHhd. injection IHhd as ->. constructor. unfold step_within. lia.
      * rewrite (IHstop Hout). constructor. unfold step_within. lia.
    + destruct F' as [|a rest] eqn:EF; [discriminate|].
      rewrite <- IHlast. reflexivity.
Qed.

Lemma chain_unique (k len x : Z) (e1 e2 : list Z) :
  chain k len x e1 -> chain k len x e2 -> e1 = e2.
Proof.
  intros H1. revert e2. induction H1 as [x Hge|x ext Hlt H1 IH]; intros e2 H2.
  - inversion H2; subst; [reflexivity | lia].
  - inversion H2 as [|? ext2 ? H2']; subst; [lia|]. f_equal. apply IH. assumption.
Qed.

Section PayloadParserFacts.
Context {R : Type} (dumps : R -> string) (str_header : Z).

(** What [payload_parser] returns, with the step it advanced by. *)
Lemma payload_parser_spec (p : payload R) :
  0 <= str_header ->
  sys_getsizeof str_header (json_dumps dumps (contacts p)) < 2 ^ 63 ->
  let N := Z.of_nat (length (contacts p)) in
  let size := sys_getsizeof str_header (json_dumps dumps (contacts p)) in
  exists k idx,
    1 <= k /\
    (1 <= N ->
     (k - 1) * size * (2 ^ 52 * 2 ^ 52 * 2 ^ 52) <=
       360000 * N * ((2 ^ 52 + 1) * (2 ^ 52 + 1) * (2 ^ 52 + 1))) /\
    (forall fuel, (length (contacts p) < fuel)%nat ->
                  payload_parser dumps str_header fuel p = Ok idx) /\
    head idx = Some 0 /\
    last idx = Some N /\
    Sorted (step_within k) idx /\
    (N = 0 -> idx = [0]).
Proof.
  intros Hh Hsize N size.
  destruct (json_dumps_len_lower dumps (contacts p)) as [Hlen2 HlenN].
  assert (Hsz : 2 <= size < 2 ^ 63) by (unfold size, sys_getsizeof in *; lia).
  assert (HN : 0 <= N < 2 ^ 63) by (unfold N, size, sys_getsizeof in *; lia).
  assert (Hadv : exists k, 1 <= k /\
            (1 <= N -> advance size N = Ok k /\
               (k - 1) * size * (2 ^ 52 * 2 ^ 52 * 2 ^ 52) <=
                 360000 * N * ((2 ^ 52 + 1) * (2 ^ 52 + 1) * (2 ^ 52 + 1)))).
  { destruct (Z_le_gt_dec 1 N) as [H1|H0].
    - destruct (advance_spec size N Hsz ltac:(lia)) as (k & Hk & Hk1 & Hkb).
      exists k. auto.
    - exists 1. split; [lia|]. intros; lia. }
  destruct Hadv as (k & Hk & Hadv).
  destruct (payload_parser_loop_spec k N size (fun H => proj1 (Hadv H)) Hk
              (S (length (contacts p))) [0] 0 eq_refl ltac:(lia) ltac:(lia))
    as (ext & Hchain & _).
  destruct (chain_clamped k N 0 ext Hk Hchain) as (Hhd & Hstop & Hsorted & Hlast).
  exists k, (removelast (0 :: ext) ++ [N]).
  refine (conj Hk (conj (fun H => proj2 (Hadv H)) (conj _ (conj _ (conj Hlast (conj Hsorted _)))))).
  - intros fuel Hfuel. unfold payload_parser. fold N. fold size.
    destruct (payload_parser_loop_spec k N size (fun H => proj1 (Hadv H)) Hk
                fuel [0] 0 eq_refl ltac:(lia) ltac:(lia))
      as (ext' & Hchain' & Hrun).
    rewrite Hrun. rewrite (chain_unique k N 0 ext' ext Hchain' Hchain).
    reflexivity.
  - destruct (Z_le_gt_dec 1 N) as [H1|H0].
    + apply Hhd. lia.
    + rewrite Hstop by lia. cbn. f_equal. lia.
  - intros H0. rewrite Hstop by lia. rewrite H0. reflexivity.
Qed.

End PayloadParserFacts.

Lemma step_within_lt (k : Z) (l : list Z) :
  Sorted (step_within k) l -> StronglySorted Z.lt l.
Proof.
  intros Hs. apply Sorted_StronglySorted.
  - intros a b c; apply Z.lt_trans.
  - apply (sorted_weaken (step_within k)); [|assumption]. intros a b [H _]. exact H.
Qed.

(** C2. Batch Partitioner: for every record list of length N that a CPython
    process can hold (its serialisation stays under 2^63 bytes),
    [payload_parser] terminates: with fuel for N+1 loop tests it returns a
    boundary list that starts at 0, ends at N and is strictly increasing;
    for N = 0 the list is [[0]]. *)
Theorem payload_parser_boundaries {R : Type} (dumps : R -> string) (str_header : Z)
    (p : payload R) :
  0 <= str_header ->
  sys_getsizeof str_header (json_dumps dumps (contacts p)) < 2 ^ 63 ->
  let N := Z.of_nat (length (contacts p)) in
  exists idx,
    (forall fuel, (length (contacts p) < fuel)%nat ->
                  payload_parser dumps str_header fuel p = Ok idx) /\
    head idx = Some 0 /\
    last idx = Some N /\
    StronglySorted Z.lt idx /\
    (N = 0 -> idx = [0]).
Proof.
  intros Hh Hsize N.
  destruct (payload_parser_spec dumps str_header p Hh Hsize)
    as (k & idx & _ & _ & Hrun & Hhd & Hlast & Hsorted & Hzero).
  exists idx. repeat split; try assumption.
  eapply step_within_lt; eassumption.
Qed.

Lemma payload_parser_boundaries_witness :
  0 <= 49 /\
  sys_getsizeof 49 (json_dumps (fun r : string => r) (contacts two_records)) < 2 ^ 63 /\
  exists idx,
    (forall fuel, (length (contacts two_records) < fuel)%nat ->
                  payload_parser (fun r : string => r) 49 fuel two_records = Ok idx) /\
    head idx = Some 0 /\
    last idx = Some (Z.of_nat (length (contacts two_records))) /\
    StronglySorted Z.lt idx /\
    (Z.of_nat (length (contacts two_records)) = 0 -> idx = [0]).
Proof.
  split; [lia|]. split; [vm_compute; reflexivity|].
  apply (payload_parser_boundaries (fun r : string => r) 49 two_records);
    [lia | vm_compute; reflexivity].
Defined.

(** ** Batches partition the record list *)

Lemma py_slice_within {A} (l : list A) (a b : Z) :
  0 <= a <= Z.of_nat (length l) -> 0 <= b <= Z.of_nat (length l) ->
  py_slice l a b = drop (Z.to_nat a) (take (Z.to_nat b) l).
Proof.
  intros Ha Hb. unfold py_slice, slice_bound.
  replace (a <? 0) with false by (symmetry; apply Z.ltb_ge; lia).
  replace (b <? 0) with false by (symmetry; apply Z.ltb_ge; lia).
  rewrite !Z.min_l by lia. reflexivity.
Qed.

Lemma drop_take_glue {A} (l : list A) (a b c : nat) :
  (a <= b <= c)%nat -> (a <= length l)%nat ->
  drop a (take b l) ++ drop b (take c l) = drop a (take c l).
Proof.
  intros Habc Hal.
  rewrite <- (take_drop b (take c l)) at 2.
  rewrite take_take, Nat.min_l by lia.
  rewrite drop_app_le; [reflexivity|]. rewrite length_take. lia.
Qed.

Lemma strongly_sorted_between (l : list Z) (a z : Z) :
  StronglySorted Z.lt l -> head l = Some a -> last l = Some z ->
  Forall (fun x => a <= x <= z) l.
Proof.
  intros Hs. revert a. induction Hs as [|x l Hs IH Hall]; intros a Hhd Hlast; [constructor|].
  cbn in Hhd. injection Hhd as ->.
  destruct l as [|b l].
  - cbn in Hlast. injection Hlast as ->. constructor; [lia | constructor].
  - change (last (a :: b :: l)) with (last (b :: l)) in Hlast.
    specialize (IH b eq_refl Hlast).
    assert (Hab : a < b) by (inversion Hall; assumption).
    assert (Hbz : b <= z) by (inversion IH; lia).
    constructor; [lia|].
    eapply Forall_impl; [exact IH|]. cbn. intros y Hy. lia.
Qed.

Lemma batches_cons {A} (l : list A) (a b : Z) (F : list Z) :
  batches l (a :: b :: F) = py_slice l a b :: batches l (b :: F).
Proof. reflexivity. Qed.

Lemma concat_batches {A} (l : list A) (F : list Z) (a z : Z) :
  StronglySorted Z.lt F ->
  Forall (fun x => 0 <= x <= Z.of_nat (length l)) F ->
  head F = Some a -> last F = Some z ->
  concat (batches l F) = drop (Z.to_nat a) (take (Z.to_nat z) l).
Proof.
  intros Hs. revert a. induction Hs as [|x F Hs IH Hall]; intros a Hb Hhd Hlast; [discriminate|].
  cbn in Hhd. injection Hhd as ->.
  destruct F as [|b F].
  - cbn in Hlast. injection Hlast as ->. cbn.
    symmetry. apply drop_ge. rewrite length_take. lia.
  - change (last (a :: b :: F)) with (last (b :: F)) in Hlast.
    inversion Hb as [|? ? Ha Hb']; subst.
    assert (Hab : a < b) by (inversion Hall; assumption).
    pose proof (strongly_sorted_between (b :: F) b z Hs eq_refl Hlast) as Hbet.
    assert (Hbz : b <= z) by (inversion Hbet; lia).
    assert (Hz : 0 <= z <= Z.of_nat (length l)).
    { assert (Hin : z ∈ b :: F) by (apply last_Some_elem_of; assumption).
      rewrite Forall_forall in Hb'. apply Hb'. exact Hin. }
    assert (Hbb : 0 <= b <= Z.of_nat (length l)) by (inversion Hb'; assumption).
    rewrite batches_cons. cbn [concat].
    rewrite (IH b Hb' eq_refl Hlast).
    rewrite py_slice_within by lia.
    apply drop_take_glue; lia.
Qed.

Section BatchFacts.
Context {R : Type} (dumps : R -> string) (str_header : Z).

(** The batches [payload_parser] induces concatenate to the record list: no
    record is skipped or repeated, and the order is kept.  None is empty, and
    none holds more than the step [k]. *)
Lemma batches_partition (p : payload R) :
  0 <= str_header ->
  sys_getsizeof str_header (json_dumps dumps (contacts p)) < 2 ^ 63 ->
  exists idx,
    (forall fuel, (length (contacts p) < fuel)%nat ->
                  payload_parser dumps str_header fuel p = Ok idx) /\
    concat (batches (contacts p) idx) = contacts p.
Proof.
  intros Hh Hsize.
  destruct (payload_parser_spec dumps str_header p Hh Hsize)
    as (k & idx & _ & _ & Hrun & Hhd & Hlast & Hsorted & _).
  exists idx. split; [assumption|].
  pose proof (step_within_lt k idx Hsorted) as Hs.
  rewrite (concat_batches (contacts p) idx 0 _ Hs
             (strongly_sorted_between idx 0 _ Hs Hhd Hlast) Hhd Hlast).
  rewrite Nat2Z.id, firstn_all. reflexivity.
Qed.

End BatchFacts.

(** ** Module-level names *)

Lemma requests_bound : load_global module_globals "requests" = Ok (PyObj "module").
Proof. vm_compute. reflexivity. Qed.

Lemma time_bound : load_global module_globals "time" = Ok (PyObj "module").
Proof. vm_compute. reflexivity. Qed.

Lemma np_bound : load_global module_globals "np" = Ok (PyObj "module").
Proof. vm_compute. reflexivity. Qed.

Lemma math_bound : load_global module_globals "math" = Ok (PyObj "module").
Proof. vm_compute. reflexivity. Qed.

Lemma url_bounced_contact_bound :
  load_global module_globals "url_bounced_contact" = Ok (PyStr url_bounced_contact).
Proof. vm_compute. reflexivity. Qed.

Lemma url_unsubbed_contact_bound :
  load_global module_globals "url_unsubbed_contact" = Ok (PyStr url_unsubbed_contact).
Proof. vm_compute. reflexivity. Qed.

Lemma headers_get_bound :
  load_global module_globals "headers_get_bounced_unsubbed_contact" =
  Ok headers_get_bounced_unsubbed_contact.
Proof. vm_compute. reflexivity. Qed.

(** The endpoint is bound as [url_bulk_import_contact]; nothing binds [url]. *)
Lemma url_unbound : load_global module_globals "url" = Raise (NameError "url").
Proof. vm_compute. reflexivity. Qed.

(** The header dictionaries are bound under longer names; nothing binds
    [headers]. *)
Lemma headers_unbound : load_global module_globals "headers" = Raise (NameError "headers").
Proof. vm_compute. reflexivity. Qed.

(** ** The bulk import loop *)

Lemma for_each_raise {St A B} (body : A -> eff St B) (x : A) (xs : list A)
    (s s' : St) (e : exn) :
  body x s = (Raise e, s') -> for_each body (x :: xs) s = (Raise e, s').
Proof.
  intros H. cbn [for_each]. unfold mbind, eff_bind. rewrite H. reflexivity.
Qed.

Lemma for_each_ok {St A B} (body : A -> eff St B) (x : A) (xs : list A)
    (s s' s'' : St) (b : B) (bs : list B) :
  body x s = (Ok b, s') -> for_each body xs s' = (Ok bs, s'') ->
  for_each body (x :: xs) s = (Ok (b :: bs), s'').
Proof.
  intros H1 H2. cbn [for_each]. unfold mbind, eff_bind. rewrite H1, H2. reflexivity.
Qed.

Lemma py_index_lookup {A} (l : list A) (i : nat) (a : A) :
  l !! i = Some a -> py_index l (Z.of_nat i) = Ok a.
Proof.
  intros H. unfold py_index.
  replace (Z.of_nat i <? 0) with false by (symmetry; apply Z.ltb_ge; lia).
  rewrite Nat2Z.id, H. reflexivity.
Qed.

Section BulkImportFacts.
Context {R : Type} (dumps : R -> string) (str_header : Z).

(** With the module's own names, an iteration stops at [url]: nothing has
    been sent. *)
Lemma post_batch_unbound_url (to_import : list R) (F : list Z) (i : nat) (lo hi : Z)
    (sent : list (import_event (R := R))) :
  F !! i = Some lo -> F !! S i = Some hi ->
  post_batch module_globals to_import F (Z.of_nat i) sent = (Raise (NameError "url"), sent).
Proof.
  intros Hlo Hhi. unfold post_batch, mbind, eff_bind, lift.
  rewrite (py_index_lookup F i lo Hlo).
  replace (Z.of_nat i + 1) with (Z.of_nat (S i)) by lia.
  rewrite (py_index_lookup F (S i) hi Hhi).
  rewrite requests_bound, url_unbound. reflexivity.
Qed.

(** With [url], [requests], [time] and the header dictionary bound, an
    iteration sends its batch and then sleeps for one second. *)
Lemma post_batch_bound (g : gmap string pyval) (u h r t : pyval)
    (to_import : list R) (F : list Z) (i : nat) (lo hi : Z)
    (sent : list (import_event (R := R))) :
  g !! "requests" = Some r -> g !! "url" = Some u ->
  g !! "headers_post_bulk_import_contact" = Some h -> g !! "time" = Some t ->
  F !! i = Some lo -> F !! S i = Some hi ->
  post_batch g to_import F (Z.of_nat i) sent =
  (Ok tt, sent ++ [Post u {| contacts := py_slice to_import lo hi |} h; ImportSleep 1]).
Proof.
  intros Hr Hu Hh Ht Hlo Hhi.
  unfold post_batch, mbind, eff_bind, lift, load_global.
  rewrite (py_index_lookup F i lo Hlo).
  replace (Z.of_nat i + 1) with (Z.of_nat (S i)) by lia.
  rewrite (py_index_lookup F (S i) hi Hhi).
  rewrite Hr, Hu, Hh, Ht. cbn [of_option].
  unfold requests_post, import_sleep. rewrite <- app_assoc. reflexivity.
Qed.

Lemma for_each_post_batch (g : gmap string pyval) (u h r t : pyval) (to_import : list R) :
  g !! "requests" = Some r -> g !! "url" = Some u ->
  g !! "headers_post_bulk_import_contact" = Some h -> g !! "time" = Some t ->
  forall (todo seen : list Z) (sent : list (import_event (R := R))),
  exists units,
    for_each (post_batch g to_import (seen ++ todo))
      (seqZ (Z.of_nat (length seen)) (Z.of_nat (length todo) - 1)) sent =
    (Ok units,
     sent ++ flat_map (fun b => [Post u {| contacts := b |} h; ImportSleep 1])
                      (batches to_import todo)).
Proof.
  intros Hr Hu Hh Ht. induction todo as [|a todo IH]; intros seen sent.
  - exists []. change (batches to_import []) with (@nil (list R)).
    change (seqZ (Z.of_nat (length seen)) (Z.of_nat (length (@nil Z)) - 1)) with (@nil Z).
    cbn [flat_map for_each]. rewrite app_nil_r. reflexivity.
  - destruct todo as [|b todo].
    + exists []. change (batches to_import [a]) with (@nil (list R)).
      change (seqZ (Z.of_nat (length seen)) (Z.of_nat (length [a]) - 1)) with (@nil Z).
      cbn [flat_map for_each]. rewrite app_nil_r. reflexivity.
    + destruct (IH (seen ++ [a]) (sent ++ [Post u {| contacts := py_slice to_import a b |} h;
                                           ImportSleep 1])) as (units & Hrun).
      exists (tt :: units).
      rewrite seqZ_cons by (cbn [length]; lia).
      eapply for_each_ok.
      * apply (post_batch_bound g u h r t to_import _ (length seen) a b); try assumption.
        -- rewrite lookup_app_r by lia. rewrite Nat.sub_diag. reflexivity.
        -- rewrite lookup_app_r by lia.
           replace (S (length seen) - length seen)%nat with 1%nat by lia. reflexivity.
      * rewrite <- app_assoc in Hrun. cbn [app] in Hrun.
        rewrite length_app in Hrun. cbn [length] in Hrun |- *.
        replace (Z.succ (Z.of_nat (length seen))) with (Z.of_nat (length seen + 1)) by lia.
        replace (Z.pred (Z.of_nat (S (S (length todo))) - 1))
          with (Z.of_nat (S (length todo)) - 1) by lia.
        rewrite Hrun. rewrite batches_cons. cbn [flat_map].
        rewrite <- app_assoc. reflexivity.
Qed.

Lemma posted_flat_map (u h : pyval) (bs : list (list R)) :
  posted (flat_map (fun b => [Post u {| contacts := b |} h; ImportSleep 1]) bs) = bs.
Proof.
  induction bs as [|b bs IH]; [reflexivity|].
  cbn [flat_map app].
  change (posted (Post u {| contacts := b |} h :: ImportSleep 1 :: ?l))
    with (b :: posted l).
  rewrite IH. reflexivity.
Qed.

(** Were [url] bound (to the endpoint), the loop would POST every batch once,
    in boundary order, each followed by a one-second sleep, and the posted
    contacts would concatenate to the record list. *)
Lemma bulk_import_with_url (g : gmap string pyval) (u h r t : pyval) (to_import : list R) :
  g !! "requests" = Some r -> g !! "url" = Some u ->
  g !! "headers_post_bulk_import_contact" = Some h -> g !! "time" = Some t ->
  0 <= str_header ->
  sys_getsizeof str_header (json_dumps dumps to_import) < 2 ^ 63 ->
  exists idx sent,
    (forall fuel, (length to_import < fuel)%nat ->
       bulk_import dumps str_header fuel g to_import [] = (Ok tt, sent)) /\
    sent = flat_map (fun b => [Post u {| contacts := b |} h; ImportSleep 1])
                    (batches to_import idx) /\
    concat (posted sent) = to_import.
Proof.
  intros Hr Hu Hh Ht H0 Hsize.
  destruct (batches_partition dumps str_header {| contacts := to_import |} H0 Hsize)
    as (idx & Hrun & Hcat).
  cbn [contacts] in *.
  destruct (for_each_post_batch g u h r t to_import Hr Hu Hh Ht idx [] []) as (units & Hloop).
  cbn [app length] in Hloop. change (Z.of_nat 0) with 0 in Hloop.
  eexists idx, _. split; [|split; [reflexivity|]].
  - intros fuel Hfuel. unfold bulk_import, mbind, eff_bind, lift.
    rewrite (Hrun fuel Hfuel). unfold range. rewrite Hloop. reflexivity.
  - rewrite posted_flat_map. exact Hcat.
Qed.

(** As the module stands, the import of a non-empty record list stops in
    its first iteration on the unbound name [url]. *)
Lemma bulk_import_unbound_url (to_import : list R) :
  to_import <> [] ->
  0 <= str_header ->
  sys_getsizeof str_header (json_dumps dumps to_import) < 2 ^ 63 ->
  forall fuel, (length to_import < fuel)%nat ->
    bulk_import dumps str_header fuel module_globals to_import [] =
    (Raise (NameError "url"), []).
Proof.
  intros Hne H0 Hsize fuel Hfuel.
  destruct (payload_parser_spec dumps str_header {| contacts := to_import |} H0 Hsize)
    as (k & idx & _ & _ & Hrun & Hhd & Hlast & _ & _).
  cbn [contacts] in *.
  unfold bulk_import, mbind, eff_bind, lift. rewrite (Hrun fuel Hfuel).
  destruct idx as [|a [|b idx]]; [discriminate| |].
  - cbn in Hhd, Hlast. destruct to_import; [congruence|]. cbn [length] in Hlast. 
    assert (a = 0) by congruence. assert (a = Z.of_nat (S (length to_import))) by congruence. lia.
  - unfold range. rewrite seqZ_cons by (cbn [length]; lia).
    rewrite (for_each_raise _ _ _ _ [] (NameError "url")); [reflexivity|].
    apply (post_batch_unbound_url to_import (a :: b :: idx) 0 a b); reflexivity.
Qed.

End BulkImportFacts.

(** C3. As the module stands, the bulk-import loop POSTs nothing: for every
    non-empty record list the boundaries of [payload_parser] do partition
    the list (the batches concatenate to it), but the first iteration stops
    on the unbound name [url] (the endpoint is bound as
    [url_bulk_import_contact]) before any request is sent.  With [url] bound
    the loop would POST each batch once, in order, each followed by a
    one-second sleep ([bulk_import_with_url]). *)
Theorem bulk_import_posts_nothing {R : Type} (dumps : R -> string) (str_header : Z)
    (to_import : list R) :
  to_import <> [] ->
  0 <= str_header ->
  sys_getsizeof str_header (json_dumps dumps to_import) < 2 ^ 63 ->
  (exists idx,
     (forall fuel, (length to_import < fuel)%nat ->
        payload_parser dumps str_header fuel {| contacts := to_import |} = Ok idx) /\
     concat (batches to_import idx) = to_import) /\
  (forall fuel, (length to_import < fuel)%nat ->
     bulk_import dumps str_header fuel module_globals to_import [] =
     (Raise (NameError "url"), [])).
Proof.
  intros Hne Hh Hsize. split.
  - exact (batches_partition dumps str_header {| contacts := to_import |} Hh Hsize).
  - apply bulk_import_unbound_url; assumption.
Qed.

Lemma bulk_import_posts_nothing_witness :
  contacts two_records <> [] /\
  0 <= 49 /\
  sys_getsizeof 49 (json_dumps (fun r : string => r) (contacts two_records)) < 2 ^ 63 /\
  (exists idx,
     (forall fuel, (length (contacts two_records) < fuel)%nat ->
        payload_parser (fun r : string => r) 49 fuel
          {| contacts := contacts two_records |} = Ok idx) /\
     concat (batches (contacts two_records) idx) = contacts two_records) /\
  (forall fuel, (length (contacts two_records) < fuel)%nat ->
     bulk_import (fun r : string => r) 49 fuel module_globals (contacts two_records) [] =
     (Raise (NameError "url"), [])).
Proof.
  split; [discriminate|]. split; [lia|]. split; [vm_compute; reflexivity|].
  apply (bulk_import_posts_nothing (fun r : string => r) 49 (contacts two_records));
    [discriminate | lia | vm_compute; reflexivity].
Defined.

(** ** The size of a batch *)

Lemma py_slice_length {A} (l : list A) (lo hi : Z) :
  0 <= lo <= hi -> hi <= Z.of_nat (length l) ->
  Z.of_nat (length (py_slice l lo hi)) = hi - lo.
Proof.
  intros Hlo Hhi. rewrite py_slice_within by lia.
  rewrite length_drop, length_take. lia.
Qed.

Lemma py_slice_Forall {A} (P : A -> Prop) (l : list A) (lo hi : Z) :
  Forall P l -> Forall P (py_slice l lo hi).
Proof. intros H. unfold py_slice. apply Forall_drop, Forall_take, H. Qed.

Lemma batches_inv {A} (k : Z) (l : list A) (F : list Z) (batch : list A) :
  Sorted (step_within k) F -> In batch (batches l F) ->
  exists lo hi, batch = py_slice l lo hi /\ step_within k lo hi /\ In lo F /\ In hi F.
Proof.
  induction 1 as [|a F Hs IH Hhd]; intros Hin; [contradiction|].
  destruct F as [|b F]; [contradiction|].
  rewrite batches_cons in Hin. destruct Hin as [<-|Hin].
  - exists a, b. inversion Hhd; subst.
    split; [reflexivity|]. split; [assumption|].
    split; [left; reflexivity | right; left; reflexivity].
  - destruct (IH Hin) as (lo & hi & -> & Hst & Hlo & Hhi).
    exists lo, hi. split; [reflexivity|]. split; [assumption|].
    split; right; assumption.
Qed.

(** Among uniform records the step leaves room under the ceiling for all
    records of a batch but its last. *)
Lemma step_under_ceiling (k size N c : Z) :
  1 <= k -> 1 <= N -> 1 <= c -> N * c <= size ->
  (k - 1) * size * (2 ^ 52 * 2 ^ 52 * 2 ^ 52) <=
    360000 * N * ((2 ^ 52 + 1) * (2 ^ 52 + 1) * (2 ^ 52 + 1)) ->
  (k - 1) * c <= 360000.
Proof.
  intros Hk HN Hc Hsize Hbound.
  remember (2 ^ 52 * 2 ^ 52 * 2 ^ 52) as E3 eqn:HE3.
  remember ((2 ^ 52 + 1) * (2 ^ 52 + 1) * (2 ^ 52 + 1)) as F3 eqn:HF3.
  assert (HE3pos : 0 < E3) by (subst E3; lia).
  assert (Hnum : 360000 * F3 < 360001 * E3) by (subst E3 F3; lia).
  assert (H1 : (k - 1) * (N * c) * E3 <= (k - 1) * size * E3).
  { apply Z.mul_le_mono_nonneg_r; [lia|]. apply Z.mul_le_mono_nonneg_l; lia. }
  assert (H2 : N * ((k - 1) * c * E3) <= N * (360000 * F3)) by lia.
  apply Z.mul_le_mono_pos_l in H2; [|lia].
  destruct (Z_le_gt_dec ((k - 1) * c) 360000) as [|Hgt]; [assumption|exfalso].
  assert (360001 * E3 <= (k - 1) * c * E3) by (apply Z.mul_le_mono_nonneg_r; lia).
  lia.
Qed.

(** C4, amended. Batch Partitioner size bound: for every non-empty record
    list whose records all serialise to the same [b] bytes, every slice
    [payload_parser] cuts out serialises to at most 360,000 + (b + 2) bytes:
    the records of a slice other than its last fit under the ceiling of
    360,000 bytes, and the last one may cross it. *)
Theorem uniform_slice_size_bound {R : Type} (dumps : R -> string) (str_header : Z)
    (p : payload R) (b : Z) :
  0 <= str_header ->
  sys_getsizeof str_header (json_dumps dumps (contacts p)) < 2 ^ 63 ->
  contacts p <> [] ->
  Forall (fun r => str_len (dumps r) = b) (contacts p) ->
  exists idx,
    (forall fuel, (length (contacts p) < fuel)%nat ->
                  payload_parser dumps str_header fuel p = Ok idx) /\
    forall batch, In batch (batches (contacts p) idx) ->
                  str_len (json_dumps dumps batch) <= 360000 + (b + 2).
Proof.
  intros Hh Hsize Hne Hall.
  destruct (payload_parser_spec dumps str_header p Hh Hsize)
    as (k & idx & Hk & Hbound & Hrun & Hhd & Hlast & Hsorted & _).
  exists idx. split; [assumption|]. intros batch Hin.
  assert (HN : 1 <= Z.of_nat (length (contacts p))).
  { destruct (contacts p); [congruence | cbn [length]; lia]. }
  assert (Hb : 0 <= b).
  { destruct (contacts p) as [|r rs]; [congruence|]. inversion Hall; subst.
    apply str_len_nonneg. }
  assert (Hlen : str_len (json_dumps dumps (contacts p)) =
                 Z.of_nat (length (contacts p)) * (b + 2))
    by (apply json_dumps_len_uniform; assumption).
  assert (Hstep : (k - 1) * (b + 2) <= 360000).
  { apply (step_under_ceiling k (sys_getsizeof str_header (json_dumps dumps (contacts p)))
             (Z.of_nat (length (contacts p))) (b + 2) Hk HN ltac:(lia)).
    - unfold sys_getsizeof. rewrite Hlen. lia.
    - apply Hbound. lia. }
  destruct (batches_inv k (contacts p) idx batch Hsorted Hin)
    as (lo & hi & -> & [Hlt Hdiff] & Hlo & Hhi).
  pose proof (strongly_sorted_between idx 0 _ (step_within_lt k idx Hsorted) Hhd Hlast) as Hbet.
  rewrite Forall_forall in Hbet.
  assert (Hlo' := Hbet lo (proj2 (list_elem_of_In _ _) Hlo)).
  assert (Hhi' := Hbet hi (proj2 (list_elem_of_In _ _) Hhi)).
  cbv beta in Hlo', Hhi'.
  pose proof (py_slice_length (contacts p) lo hi ltac:(lia) ltac:(lia)) as Hsl.
  rewrite (json_dumps_len_uniform dumps b).
  - rewrite Hsl. nia.
  - apply py_slice_Forall. assumption.
  - intros Hnil. rewrite Hnil in Hsl. cbn in Hsl. lia.
Qed.

Lemma uniform_slice_size_bound_witness :
  0 <= 49 /\
  sys_getsizeof 49 (json_dumps (fun r : string => r) (contacts two_records)) < 2 ^ 63 /\
  contacts two_records <> [] /\
  Forall (fun r => str_len r = 2) (contacts two_records) /\
  exists idx,
    (forall fuel, (length (contacts two_records) < fuel)%nat ->
                  payload_parser (fun r : string => r) 49 fuel two_records = Ok idx) /\
    forall batch, In batch (batches (contacts two_records) idx) ->
                  str_len (json_dumps (fun r : string => r) batch) <= 360000 + (2 + 2).
Proof.
  split; [lia|]. split; [vm_compute; reflexivity|]. split; [discriminate|].
  split; [repeat constructor|].
  apply (uniform_slice_size_bound (fun r : string => r) 49 two_records 2);
    [lia | vm_compute; reflexivity | discriminate | repeat constructor].
Defined.

Lemma uniform_record_len : str_len (uniform_record 1085) = 1098.
Proof. vm_compute. reflexivity. Qed.

Lemma thousand_records_size :
  sys_getsizeof 49 (json_dumps (fun r : string => r) (contacts thousand_records)) = 1100049.
Proof.
  unfold sys_getsizeof.
  rewrite (json_dumps_len_uniform (fun r : string => r) 1098).
  - cbn [thousand_records contacts]. rewrite repeat_length. reflexivity.
  - apply Forall_forall. intros r Hr. apply list_elem_of_In, repeat_spec in Hr.
    subst r. apply uniform_record_len.
  - discriminate.
Qed.

Lemma thousand_records_boundaries :
  payload_parser (fun r : string => r) 49 1001 thousand_records =
  Ok [0; 328; 656; 984; 1000].
Proof.
  unfold payload_parser. rewrite thousand_records_size.
  cbn [thousand_records contacts]. rewrite repeat_length.
  vm_compute. reflexivity.
Qed.

(** C4 as stated fails: a thousand uniform records of 1098 bytes are cut
    at [0; 328; 656; 984; 1000], and the first slice, 328 records, serialises
    to 360,800 bytes. *)
Lemma uniform_slice_over_ceiling :
  Forall (fun r => str_len r = 1098) (contacts thousand_records) /\
  ~ slices_within_ceiling (fun r : string => r) 49 thousand_records.
Proof.
  assert (Hall : Forall (fun r => str_len r = 1098) (contacts thousand_records)).
  { apply Forall_forall. intros r Hr. apply list_elem_of_In, repeat_spec in Hr.
    subst r. apply uniform_record_len. }
  split; [exact Hall|]. intros H.
  specialize (H 1001%nat [0; 328; 656; 984; 1000]
                (py_slice (contacts thousand_records) 0 328)
                thousand_records_boundaries (or_introl eq_refl)).
  assert (Hlen : Z.of_nat (length (contacts thousand_records)) = 1000).
  { cbn [thousand_records contacts]. rewrite repeat_length. reflexivity. }
  pose proof (py_slice_length (contacts thousand_records) 0 328 ltac:(lia) ltac:(lia)) as Hsl.
  rewrite (json_dumps_len_uniform (fun r : string => r) 1098) in H.
  - rewrite Hsl in H. lia.
  - apply py_slice_Forall. exact Hall.
  - intros Hnil. rewrite Hnil in Hsl. cbn in Hsl. lia.
Qed.

(** ** The number of pages *)

Lemma math_ceil_spec (m : positive) (e : Z) :
  -1074 <= e ->
  exists K,
    math_ceil (S754_finite false m e) = Ok K /\
    (K - 1) * 2 ^ 1074 < Zpos m * 2 ^ (e + 1074) <= K * 2 ^ 1074.
Proof.
  intros He. unfold math_ceil, cond_Zopp.
  destruct e as [|k|k].
  - exists (Z.pos m * 2 ^ 0). rewrite Z.pow_0_r, Z.mul_1_r. simpl (0 + 1074).
    pose proof (Float64Facts.pow2_pos 1074 ltac:(lia)). repeat split; lia.
  - exists (Z.pos m * 2 ^ Z.pos k).
    pose proof (Float64Facts.pow2_pos (Z.pos k) ltac:(lia)).
    pose proof (Float64Facts.pow2_pos 1074 ltac:(lia)).
    rewrite Z.pow_add_r by lia. repeat split; nia.
  - exists (- (- Z.pos m / 2 ^ Z.pos k)).
    assert (Hk : 0 < 2 ^ Z.pos k) by (apply Float64Facts.pow2_pos; lia).
    assert (Hc : 0 < 2 ^ (Z.neg k + 1074)) by (apply Float64Facts.pow2_pos; lia).
    assert (Hsplit : 2 ^ 1074 = 2 ^ Z.pos k * 2 ^ (Z.neg k + 1074)).
    { rewrite <- Z.pow_add_r by lia. f_equal. lia. }
    pose proof (Z.div_mod (- Z.pos m) (2 ^ Z.pos k) ltac:(lia)) as Hdm.
    pose proof (Z.mod_pos_bound (- Z.pos m) (2 ^ Z.pos k) Hk) as Hmb.
    rewrite Hsplit. split; [reflexivity|].
    generalize dependent (- Z.pos m / 2 ^ Z.pos k).
    generalize dependent ((- Z.pos m) mod 2 ^ Z.pos k).
    generalize dependent (2 ^ Z.pos k).
    generalize dependent (2 ^ (Z.neg k + 1074)). clear. intros. nia.
Qed.

(** [math.ceil(int(total) / 100)] is the ceiling of [total / 100] for every
    count below 2^50: the rounding of the quotient never crosses an integer. *)
Lemma page_count_spec (total : Z) :
  0 <= total < 2 ^ 50 -> page_count total = Ok ((total + 99) / 100).
Proof.
  intros HT. destruct (Z.eq_dec total 0) as [->|Hne]; [reflexivity|].
  unfold page_count, int_true_div.
  destruct (Float64Facts.true_div_spec total 100) as (m & e & Hq & Hm & He & Hup & Hlow & Hexact);
    [lia | lia |].
  change (SpecFloat.Zdigits2 100) with 7 in He.
  pose proof (Float64Facts.Zdigits2_pos total ltac:(lia)) as Hd.
  change (100 =? 0) with false. cbv iota. rewrite Hq. cbn [mbind outcome_bind].
  destruct (math_ceil_spec m e ltac:(lia)) as (K & HK & HKlo & HKhi).
  rewrite HK. f_equal.
  pose proof (Float64Facts.pow2_pos 1074 ltac:(lia)) as HP.
  pose proof (Z.div_mod total 100 ltac:(lia)) as Hdm.
  pose proof (Z.mod_pos_bound total 100 ltac:(lia)) as Hmb.
  remember (total / 100) as k eqn:Ek. remember (total mod 100) as r eqn:Er.
  destruct (Z.eq_dec r 0) as [Hr0|Hr1].
  - (* an exact quotient is not rounded at all *)
    rewrite (Hexact Hr0) in HKlo, HKhi.
    assert ((total + 99) / 100 = k).
    { symmetry. apply (Z.div_unique _ _ _ 99); lia. }
    nia.
  - assert (HK1 : (total + 99) / 100 = k + 1).
    { symmetry. apply (Z.div_unique _ _ _ (r - 1)); lia. }
    rewrite HK1.
    remember (Z.pos m * 2 ^ (e + 1074)) as V eqn:EV.
    assert (HE : 2 ^ 52 = 4503599627370496) by reflexivity.
    assert (Hk50 : 100 * k + 99 < 2 ^ 52) by lia.
    assert (Hupper : V <= (k + 1) * 2 ^ 1074).
    { assert (H1 : V * 100 * 2 ^ 52 <= 100 * (k + 1) * 2 ^ 52 * 2 ^ 1074).
      { eapply Z.le_trans; [exact Hup|].
        replace (total * 2 ^ 1074 * (2 ^ 52 + 1)) with (total * (2 ^ 52 + 1) * 2 ^ 1074) by ring.
        apply Z.mul_le_mono_nonneg_r; [lia|]. rewrite HE in *. nia. }
      rewrite HE in H1. generalize dependent (2 ^ 1074). clear. intros. nia. }
    assert (Hlower : k * 2 ^ 1074 < V).
    { destruct (Z_lt_le_dec (k * 2 ^ 1074) V) as [|Hle]; [assumption|exfalso].
      assert (H1 : total * 2 ^ 1074 * (2 ^ 52 - 1) <= k * 2 ^ 1074 * 100 * (2 ^ 52 + 1)).
      { eapply Z.le_trans; [exact Hlow|].
        apply Z.mul_le_mono_nonneg_r; [lia|]. apply Z.mul_le_mono_nonneg_r; lia. }
      assert (H2 : 2 ^ 1074 * (total * (2 ^ 52 - 1)) <= 2 ^ 1074 * (k * 100 * (2 ^ 52 + 1))) by lia.
      apply Z.mul_le_mono_pos_l in H2; [|lia].
      rewrite HE in *. nia. }
    generalize dependent (2 ^ 1074). clear. intros. nia.
Qed.

(** ** The Paginated Collector *)

Lemma for_each_all_ok {St A B} (body : A -> eff (list St) B) (f : A -> B)
    (ev : A -> list St) (xs : list A) :
  (forall x s, body x s = (Ok (f x), s ++ ev x)) ->
  forall s, for_each body xs s = (Ok (map f xs), s ++ flat_map ev xs).
Proof.
  intros Hbody. induction xs as [|x xs IH]; intros s.
  - cbn. rewrite app_nil_r. reflexivity.
  - eapply for_each_ok; [apply Hbody|]. rewrite IH. cbn [flat_map].
    rewrite app_assoc. reflexivity.
Qed.

(** The projection keeps exactly the listed keys the contact object has;
    a listed key it lacks is left out, with no lookup failure. *)
Lemma project_cons {V : Type} (k0 : string) (keys : list string) (index : gmap string V) :
  project (k0 :: keys) index =
  match index !! k0 with
  | Some v => <[k0 := v]> (project keys index)
  | None => project keys index
  end.
Proof.
  unfold project.
  change (omap ?f (k0 :: keys))
    with (match f k0 with Some y => y :: omap f keys | None => omap f keys end).
  cbv beta. destruct (index !! k0); reflexivity.
Qed.

Lemma project_lookup {V : Type} (keys : list string) (index : gmap string V) (k : string) :
  project keys index !! k = if bool_decide (k ∈ keys) then index !! k else None.
Proof.
  induction keys as [|k0 keys IH].
  - change (project [] index) with (∅ : gmap string V). rewrite lookup_empty.
    rewrite bool_decide_eq_false_2; [reflexivity|]. apply not_elem_of_nil.
  - rewrite project_cons.
    destruct (decide (k = k0)) as [->|Hne].
    + rewrite bool_decide_eq_true_2 by constructor.
      destruct (index !! k0) as [v|] eqn:Ek0.
      * apply lookup_insert_eq.
      * rewrite IH. destruct (bool_decide (k0 ∈ keys)); reflexivity.
    + assert (Hiff : bool_decide (k ∈ k0 :: keys) = bool_decide (k ∈ keys)).
      { apply bool_decide_ext. rewrite elem_of_cons. tauto. }
      rewrite Hiff.
      destruct (index !! k0) as [v|] eqn:Ek0.
      * rewrite lookup_insert_ne by congruence. exact IH.
      * exact IH.
Qed.

Section CollectorFacts.
Context {V : Type} (contacts_page : string -> list (string * Z) -> list (gmap string V)).
Context (meta_total : string -> Z).

(** As the module stands, a page request stops on the unbound name
    [headers] before anything is sent. *)
Lemma get_bounced_contacts_unbound_headers (index : Z) (sent : list fetch_event) :
  get_bounced_contacts contacts_page module_globals index sent =
  (Raise (NameError "headers"), sent).
Proof.
  unfold get_bounced_contacts, mbind, eff_bind, lift.
  rewrite requests_bound, url_bounced_contact_bound, headers_unbound. reflexivity.
Qed.

Lemma get_unsubbed_contacts_unbound_headers (index : Z) (sent : list fetch_event) :
  get_unsubbed_contacts contacts_page module_globals index sent =
  (Raise (NameError "headers"), sent).
Proof.
  unfold get_unsubbed_contacts, mbind, eff_bind, lift.
  rewrite requests_bound, url_unsubbed_contact_bound, headers_unbound. reflexivity.
Qed.

(** Were [headers] bound, a page request would carry [limit = 100] and
    [offset = 100 * index] and return the projected contacts of the page. *)
Lemma get_bounced_contacts_with_headers (g : gmap string pyval) (u : string) (h r t : pyval)
    (index : Z) (sent : list fetch_event) :
  g !! "requests" = Some r -> g !! "url_bounced_contact" = Some (PyStr u) ->
  g !! "headers" = Some h -> g !! "time" = Some t ->
  get_bounced_contacts contacts_page g index sent =
  (Ok (map (project bounced_keys)
           (contacts_page u [("limit", 100); ("offset", 100 * index)])),
   sent ++ [Get u h [("limit", 100); ("offset", 100 * index)]; FetchSleep 1]).
Proof.
  intros Hr Hu Hh Ht.
  unfold get_bounced_contacts, mbind, eff_bind, lift, load_global.
  rewrite Hr, Hu, Hh, Ht. cbn [of_option requests_get].
  unfold time_sleep, mret, eff_ret. rewrite <- app_assoc. reflexivity.
Qed.

Lemma get_unsubbed_contacts_with_headers (g : gmap string pyval) (u : string) (h r t : pyval)
    (index : Z) (sent : list fetch_event) :
  g !! "requests" = Some r -> g !! "url_unsubbed_contact" = Some (PyStr u) ->
  g !! "headers" = Some h -> g !! "time" = Some t ->
  get_unsubbed_contacts contacts_page g index sent =
  (Ok (map (project unsubbed_keys)
           (contacts_page u [("limit", 100); ("offset", 100 * index)])),
   sent ++ [Get u h [("limit", 100); ("offset", 100 * index)]; FetchSleep 1]).
Proof.
  intros Hr Hu Hh Ht.
  unfold get_unsubbed_contacts, mbind, eff_bind, lift, load_global.
  rewrite Hr, Hu, Hh, Ht. cbn [of_option requests_get].
  unfold time_sleep, mret, eff_ret. rewrite <- app_assoc. reflexivity.
Qed.

Lemma count_request_run (g : gmap string pyval) (url_name u : string) (hg r : pyval)
    (sent : list fetch_event) :
  g !! "requests" = Some r -> g !! url_name = Some (PyStr u) ->
  g !! "headers_get_bounced_unsubbed_contact" = Some hg ->
  count_request meta_total g url_name sent =
  (Ok (meta_total u), sent ++ [Get u hg [("limit", 1)]]).
Proof.
  intros Hr Hu Hh. unfold count_request, mbind, eff_bind, lift, load_global.
  rewrite Hr, Hu, Hh. reflexivity.
Qed.

(** Were [headers] bound, the collector would issue, after the request for
    the total, [ceil(total / 100)] page requests, at offsets 0, 100, 200, ...
    in that order, and return the projected pages concatenated in page
    order. *)
Lemma collate_bounced_with_headers (g : gmap string pyval) (u : string) (h hg r t mth : pyval) :
  g !! "requests" = Some r -> g !! "url_bounced_contact" = Some (PyStr u) ->
  g !! "headers_get_bounced_unsubbed_contact" = Some hg ->
  g !! "headers" = Some h -> g !! "time" = Some t -> g !! "math" = Some mth ->
  0 <= meta_total u < 2 ^ 50 ->
  let pages := range ((meta_total u + 99) / 100) in
  collate_bounced contacts_page meta_total g [] =
  (Ok (concat (map (fun i => map (project bounced_keys)
                                 (contacts_page u [("limit", 100); ("offset", 100 * i)]))
                   pages)),
   Get u hg [("limit", 1)] ::
   flat_map (fun i => [Get u h [("limit", 100); ("offset", 100 * i)]; FetchSleep 1]) pages).
Proof.
  intros Hr Hu Hhg Hh Ht Hm HT pages.
  unfold collate_bounced, collate. unfold mbind at 1, eff_bind.
  rewrite (count_request_run g "url_bounced_contact" u hg r [] Hr Hu Hhg).
  unfold mbind at 1, eff_bind, lift, load_global. rewrite Hm. cbn [of_option].
  unfold mbind at 1, eff_bind. rewrite (page_count_spec _ HT).
  fold pages. unfold process_contacts.
  change (String.eqb "bounced" "bounced") with true.
  change (String.eqb "bounced" "unsubbed") with false. cbv iota.
  unfold mbind, eff_bind.
  rewrite (for_each_all_ok (get_bounced_contacts contacts_page g)
             (fun i => map (project bounced_keys)
                           (contacts_page u [("limit", 100); ("offset", 100 * i)]))
             (fun i => [Get u h [("limit", 100); ("offset", 100 * i)]; FetchSleep 1])).
  - reflexivity.
  - intros i s. apply (get_bounced_contacts_with_headers g u h r t); assumption.
Qed.

Lemma collate_unsubbed_with_headers (g : gmap string pyval) (u : string) (h hg r t mth : pyval) :
  g !! "requests" = Some r -> g !! "url_unsubbed_contact" = Some (PyStr u) ->
  g !! "headers_get_bounced_unsubbed_contact" = Some hg ->
  g !! "headers" = Some h -> g !! "time" = Some t -> g !! "math" = Some mth ->
  0 <= meta_total u < 2 ^ 50 ->
  let pages := range ((meta_total u + 99) / 100) in
  collate_unsubbed contacts_page meta_total g [] =
  (Ok (concat (map (fun i => map (project unsubbed_keys)
                                 (contacts_page u [("limit", 100); ("offset", 100 * i)]))
                   pages)),
   Get u hg [("limit", 1)] ::
   flat_map (fun i => [Get u h [("limit", 100); ("offset", 100 * i)]; FetchSleep 1]) pages).
Proof.
  intros Hr Hu Hhg Hh Ht Hm HT pages.
  unfold collate_unsubbed, collate. unfold mbind at 1, eff_bind.
  rewrite (count_request_run g "url_unsubbed_contact" u hg r [] Hr Hu Hhg).
  unfold mbind at 1, eff_bind, lift, load_global. rewrite Hm. cbn [of_option].
  unfold mbind at 1, eff_bind. rewrite (page_count_spec _ HT).
  fold pages. unfold process_contacts.
  change (String.eqb "unsubbed" "bounced") with false.
  change (String.eqb "unsubbed" "unsubbed") with true. cbv iota.
  unfold mbind, eff_bind. cbn [mret eff_ret].
  rewrite (for_each_all_ok (get_unsubbed_contacts contacts_page g)
             (fun i => map (project unsubbed_keys)
                           (contacts_page u [("limit", 100); ("offset", 100 * i)]))
             (fun i => [Get u h [("limit", 100); ("offset", 100 * i)]; FetchSleep 1])).
  - reflexivity.
  - intros i s. apply (get_unsubbed_contacts_with_headers g u h r t); assumption.
Qed.

(** As the module stands, collating any positive number of contacts sends
    the request for the total and then no page request at all. *)
Lemma collate_unbound_headers :
  (1 <= meta_total url_bounced_contact < 2 ^ 50 ->
   collate_bounced contacts_page meta_total module_globals [] =
   (Raise (NameError "headers"),
    [Get url_bounced_contact headers_get_bounced_unsubbed_contact [("limit", 1)]])) /\
  (1 <= meta_total url_unsubbed_contact < 2 ^ 50 ->
   collate_unsubbed contacts_page meta_total module_globals [] =
   (Raise (NameError "headers"),
    [Get url_unsubbed_contact headers_get_bounced_unsubbed_contact [("limit", 1)]])).
Proof.
  split; intros HT.
  - unfold collate_bounced, collate. unfold mbind at 1, eff_bind.
    rewrite (count_request_run module_globals "url_bounced_contact" url_bounced_contact
               headers_get_bounced_unsubbed_contact (PyObj "module") []);
      [|vm_compute; reflexivity..].
    unfold mbind at 1, eff_bind, lift. rewrite math_bound.
    unfold mbind at 1, eff_bind. rewrite (page_count_spec (meta_total url_bounced_contact) ltac:(lia)).
    assert (Hpages : 1 <= (meta_total url_bounced_contact + 99) / 100)
      by (apply Z.div_le_lower_bound; lia).
    unfold range. rewrite seqZ_cons by lia.
    unfold process_contacts.
    change (String.eqb "bounced" "bounced") with true. cbv iota.
    unfold mbind, eff_bind.
    erewrite for_each_raise;
      [reflexivity | apply get_bounced_contacts_unbound_headers].
  - unfold collate_unsubbed, collate. unfold mbind at 1, eff_bind.
    rewrite (count_request_run module_globals "url_unsubbed_contact" url_unsubbed_contact
               headers_get_bounced_unsubbed_contact (PyObj "module") []);
      [|vm_compute; reflexivity..].
    unfold mbind at 1, eff_bind, lift. rewrite math_bound.
    unfold mbind at 1, eff_bind. rewrite (page_count_spec (meta_total url_unsubbed_contact) ltac:(lia)).
    assert (Hpages : 1 <= (meta_total url_unsubbed_contact + 99) / 100)
      by (apply Z.div_le_lower_bound; lia).
    unfold range. rewrite seqZ_cons by lia.
    unfold process_contacts.
    change (String.eqb "unsubbed" "bounced") with false.
    change (String.eqb "unsubbed" "unsubbed") with true. cbv iota.
    unfold mbind, eff_bind. cbn [mret eff_ret].
    erewrite for_each_raise;
      [reflexivity | apply get_unsubbed_contacts_unbound_headers].
Qed.

End CollectorFacts.

(** C5. As the module stands, the Paginated Collector issues no page request
    for any positive total: after the request for the total, the first call
    of the page helper stops on the unbound name [headers] (the header
    dictionary is bound as [headers_get_bounced_unsubbed_contact]).  The
    page count itself is [ceil(total / 100)], and with [headers] bound the
    requests and the result are as claimed
    ([collate_bounced_with_headers], [collate_unsubbed_with_headers]). *)
Theorem collector_issues_no_request {V : Type}
    (contacts_page : string -> list (string * Z) -> list (gmap string V))
    (meta_total : string -> Z) :
  1 <= meta_total url_bounced_contact < 2 ^ 50 ->
  page_count (meta_total url_bounced_contact) =
    Ok ((meta_total url_bounced_contact + 99) / 100) /\
  collate_bounced contacts_page meta_total module_globals [] =
    (Raise (NameError "headers"),
     [Get url_bounced_contact headers_get_bounced_unsubbed_contact [("limit", 1)]]).
Proof.
  intros HT. split.
  - apply page_count_spec. lia.
  - apply (collate_unbound_headers contacts_page meta_total). assumption.
Qed.

Lemma collector_issues_no_request_witness :
  1 <= 250 < 2 ^ 50 /\
  page_count 250 = Ok ((250 + 99) / 100) /\
  collate_bounced (fun (_ : string) (_ : list (string * Z)) => @nil (gmap string string))
    (fun _ => 250) module_globals [] =
    (Raise (NameError "headers"),
     [Get url_bounced_contact headers_get_bounced_unsubbed_contact [("limit", 1)]]).
Proof.
  split; [lia|].
  apply (collector_issues_no_request
           (fun (_ : string) (_ : list (string * Z)) => @nil (gmap string string))
           (fun _ => 250)). lia.
Defined.

(** C10. As the module stands, neither page helper returns a list: each
    stops on the unbound name [headers] before its request.  The projection
    they would apply to a page keeps, of the fixed key set, exactly the keys
    the contact object has, with their values; a key the object lacks is
    left out and no lookup fails. *)
Theorem page_helpers_raise_name_error {V : Type}
    (contacts_page : string -> list (string * Z) -> list (gmap string V))
    (index : Z) (sent : list fetch_event) :
  get_bounced_contacts contacts_page module_globals index sent =
    (Raise (NameError "headers"), sent) /\
  get_unsubbed_contacts contacts_page module_globals index sent =
    (Raise (NameError "headers"), sent) /\
  (forall (keys : list string) (contact : gmap string V) (k : string),
     project keys contact !! k = if bool_decide (k ∈ keys) then contact !! k else None).
Proof.
  split; [|split].
  - apply get_bounced_contacts_unbound_headers.
  - apply get_unsubbed_contacts_unbound_headers.
  - intros keys contact k. exact (project_lookup keys contact k).
Qed.

(** ** The constituent id lookup *)

Lemma head_filter_find {A} (f : A -> bool) (l : list A) :
  head (List.filter f l) = List.find f l.
Proof.
  induction l as [|a l IH]; [reflexivity|]. cbn [List.filter List.find].
  destruct (f a); [reflexivity | exact IH].
Qed.

(** C9. [get_contacts_cons_id] returns the value of the first entry of the
    contact's [fieldValues] whose [field] is ["2"], and [NaN] when there is
    none; it raises in neither case, and makes one request followed by a
    one-second sleep. *)
Theorem get_contacts_cons_id_spec (field_values : string -> list field_value)
    (cons_id : string) (sent : list fetch_event) :
  let url := "https://hri618.api-us1.com/api/3/contacts/" +:+ cons_id in
  get_contacts_cons_id field_values module_globals cons_id sent =
  (Ok match List.find (fun i => String.eqb (field i) "2") (field_values url) with
      | Some i => Cell (value i)
      | None => NaN
      end,
   sent ++ [Get url headers_get_bounced_unsubbed_contact []; FetchSleep 1]).
Proof.
  intros url. unfold get_contacts_cons_id. fold url.
  unfold mbind at 1, eff_bind, lift. rewrite requests_bound.
  unfold mbind at 1, eff_bind. rewrite headers_get_bound.
  unfold mbind at 1, eff_bind, requests_get_contact.
  rewrite <- head_filter_find.
  destruct (List.filter (fun i => String.eqb (field i) "2") (field_values url))
    as [|i matching] eqn:Ematch.
  - cbn [length]. change (Z.of_nat 0 =? 0) with true. cbv iota.
    unfold mbind, eff_bind. rewrite np_bound, time_bound.
    change (py_index [?x] 0) with (Ok x).
    unfold time_sleep. cbn. rewrite <- app_assoc. reflexivity.
  - replace (Z.of_nat (length (i :: matching)) =? 0) with false
      by (symmetry; apply Z.eqb_neq; cbn [length]; lia).
    cbv iota. unfold mbind, eff_bind. rewrite time_bound.
    change (py_index [?x] 0) with (Ok x). change (py_index (i :: matching) 0) with (Ok i).
    unfold time_sleep. cbn. rewrite <- app_assoc. reflexivity.
Qed.

(** ** The date-range filter *)

(** C6. Date-Range Filter: a collected contact is kept if and only if its
    date (bounced_date for bounced contacts, udate for unsubscribed ones) is
    strictly after start_date and strictly before end_date; with
    start_date = 2024-01-08 and end_date = 2024-01-16 the contacts dated
    2024-01-08 and 2024-01-16 are dropped, those dated 2024-01-09 and
    2024-01-15 are kept. *)
Theorem date_filter_open_interval :
  (forall (start_date end_date : Z) (df : list bounced_row) (r : bounced_row),
     In r (filter_bounced start_date end_date df) <->
     In r df /\ start_date < bounced_date r < end_date) /\
  (forall (start_date end_date : Z) (df : list unsubbed_row) (r : unsubbed_row),
     In r (filter_unsubbed start_date end_date df) <->
     In r df /\ start_date < udate r < end_date) /\
  filter_bounced (ymd2ord 2024 1 8) (ymd2ord 2024 1 16)
    [bounced_on (ymd2ord 2024 1 8); bounced_on (ymd2ord 2024 1 9);
     bounced_on (ymd2ord 2024 1 15); bounced_on (ymd2ord 2024 1 16)] =
  [bounced_on (ymd2ord 2024 1 9); bounced_on (ymd2ord 2024 1 15)].
Proof.
  split; [|split].
  - intros s e df r. unfold filter_bounced. rewrite filter_In, andb_true_iff.
    rewrite !Z.ltb_lt. tauto.
  - intros s e df r. unfold filter_unsubbed. rewrite filter_In, andb_true_iff.
    rewrite !Z.ltb_lt. tauto.
  - vm_compute. reflexivity.
Qed.

(** ** The rolling window *)

Lemma weekday_range (d : Z) : 0 <= weekday d <= 6.
Proof. unfold weekday. pose proof (Z.mod_pos_bound (d + 6) 7 ltac:(lia)). lia. Qed.

Lemma weekday_of_monday (d : Z) : weekday (d - weekday d) = 0.
Proof.
  unfold weekday. pose proof (Z.div_mod (d + 6) 7 ltac:(lia)) as H.
  replace (d - (d + 6) mod 7 + 6) with ((d + 6) / 7 * 7) by lia.
  apply Z.mod_mul. lia.
Qed.

Lemma date_add_ok (d n : Z) : 1 <= d + n <= max_ordinal -> date_add d n = Ok (d + n).
Proof.
  intros H. unfold date_add.
  replace (1 <=? d + n) with true by (symmetry; apply Z.leb_le; lia).
  replace (d + n <=? max_ordinal) with true by (symmetry; apply Z.leb_le; lia).
  reflexivity.
Qed.

Lemma window_spec (current_date : Z) :
  15 <= current_date <= max_ordinal ->
  start_date current_date = Ok (current_date - weekday current_date - 8) /\
  end_date current_date = Ok (current_date - weekday current_date).
Proof.
  intros H. pose proof (weekday_range current_date) as Hw.
  assert (Hs : start_date current_date = Ok (current_date - weekday current_date - 8)).
  { unfold start_date, lookback_days.
    rewrite date_add_ok by lia. cbn [mbind outcome_bind].
    rewrite date_add_ok by lia. cbn [mbind outcome_bind].
    rewrite date_add_ok by lia. f_equal. lia. }
  split; [exact Hs|].
  unfold end_date, weekly_multiplier. rewrite Hs. cbn [mbind outcome_bind].
  rewrite date_add_ok by lia. f_equal. lia.
Qed.

(** C7, amended. Rolling window: for every run date from 0001-01-15 on,
    end_date = start_date + 8 days and start_date is the day before
    last_week_start, the Monday of the week before the run (start_date =
    run date - weekday - lookback_days - 1, lookback_days = 7); the dates
    strictly between start_date and end_date are exactly the seven days of
    the week before the run, Monday to Sunday. *)
Theorem rolling_window (current_date : Z) :
  15 <= current_date <= max_ordinal ->
  exists s e,
    start_date current_date = Ok s /\ end_date current_date = Ok e /\
    e = s + 8 /\
    s = current_date - weekday current_date - lookback_days - 1 /\
    s = last_week_start current_date - 1 /\
    weekday (last_week_start current_date) = 0 /\
    (forall d, s < d < e <->
               last_week_start current_date <= d <= last_week_start current_date + 6).
Proof.
  intros H. destruct (window_spec current_date H) as [Hs He].
  exists (current_date - weekday current_date - 8), (current_date - weekday current_date).
  unfold last_week_start, lookback_days.
  refine (conj Hs (conj He (conj _ (conj _ (conj _ (conj _ _)))))); try lia.
  - replace (current_date - weekday current_date - 7)
      with (current_date - 7 - weekday (current_date - 7)).
    + apply weekday_of_monday.
    + unfold weekday. replace (current_date - 7 + 6) with (current_date + 6 + (-1) * 7) by lia.
      rewrite Z.mod_add by lia. lia.
Qed.

Lemma rolling_window_witness :
  15 <= 738902 <= max_ordinal /\
  exists s e,
    start_date 738902 = Ok s /\ end_date 738902 = Ok e /\
    e = s + 8 /\
    s = 738902 - weekday 738902 - lookback_days - 1 /\
    s = last_week_start 738902 - 1 /\
    weekday (last_week_start 738902) = 0 /\
    (forall d, s < d < e <->
               last_week_start 738902 <= d <= last_week_start 738902 + 6).
Proof.
  split; [unfold max_ordinal; lia|].
  apply (rolling_window 738902). unfold max_ordinal. lia.
Defined.

(** C7 as stated fails: for a run on Wednesday 2024-01-17 the window starts
    on Sunday 2024-01-07, the day before the previous week's Monday
    2024-01-08, not a lookback of seven days before it (2024-01-01). *)
Lemma rolling_window_not_as_specified :
  start_date (ymd2ord 2024 1 17) = Ok (ymd2ord 2024 1 7) /\
  weekday (ymd2ord 2024 1 7) = 6 /\
  last_week_start (ymd2ord 2024 1 17) = ymd2ord 2024 1 8 /\
  ~ window_as_specified (ymd2ord 2024 1 17).
Proof.
  split; [vm_compute; reflexivity|]. split; [vm_compute; reflexivity|].
  split; [vm_compute; reflexivity|].
  intros (s & e & Hs & _ & _ & Hlw).
  assert (H : start_date (ymd2ord 2024 1 17) = Ok (ymd2ord 2024 1 7)) by (vm_compute; reflexivity).
  rewrite H in Hs. injection Hs as <-.
  vm_compute in Hlw. discriminate.
Qed.

(** ** The Record Mapper *)

(** The [listid] column is right where the conditions are well formed: a
    segmentation row whose Appeal contains AU and whose Package contains
    Active gets list 199 (the first condition wins). *)
Lemma segmentation_listid_AU_Active (row : segmentation_row) :
  str_contains "AU" (s_Appeal row) = true ->
  str_contains "Active" (s_Package row) = true ->
  segmentation_listid row = "199".
Proof. intros HA HP. unfold segmentation_listid. cbn [np_select]. rewrite HA, HP. reflexivity. Qed.

(** So would the welcome column be, with its commas: a base file name that
    contains Welcome selects list 71. *)
Lemma welcome_listid_Welcome (name : string) :
  str_contains "Welcome" (default "" (head (str_split "." name))) = true ->
  welcome_listid name = "71".
Proof. intros H. unfold welcome_listid. cbn [np_select]. rewrite H. reflexivity. Qed.

(** An entry of the folder listing is a dictionary, so the tag of the first
    row cannot be built: [dict] has no [split]. *)
Lemma segmentation_file_entry (name : string) (row : segmentation_row)
    (table : list segmentation_row) :
  (str_endswith ".xlsx" name || str_endswith ".xls" name || str_endswith ".csv" name) = true ->
  segmentation_file (file_entry name) (row :: table) = Raise (AttributeError "dict" "split").
Proof.
  intros Hname. unfold segmentation_file, file_entry, py_getitem.
  cbn [assoc]. rewrite String.eqb_refl. cbn [of_option mbind outcome_bind].
  unfold read_table. rewrite Hname. reflexivity.
Qed.

Lemma welcome_file_entry (name : string) (row : welcome_row) (listid : string)
    (table : list (welcome_row * string)) :
  (str_endswith ".xlsx" name || str_endswith ".xls" name || str_endswith ".csv" name) = true ->
  welcome_file (file_entry name) ((row, listid) :: table) =
  Raise (AttributeError "dict" "split").
Proof.
  intros Hname. unfold welcome_file, file_entry, py_getitem.
  cbn [assoc]. rewrite String.eqb_refl. cbn [of_option mbind outcome_bind].
  unfold read_table. rewrite Hname. reflexivity.
Qed.

(** C8. As the module stands, no contact record is ever built from a row:
    the loop variable [i] is subscripted as a dictionary ([i["Name"]]) and
    split as a string ([i.split(...)]), and no value is both, so a file with
    at least one row raises, whatever [i] is, in the welcome loop and in the
    segmentation loop alike; for an entry of the folder listing the error is
    [AttributeError].  The [listid] column of the segmentation table is as
    intended: list 199 for a row whose Appeal contains AU and whose Package
    contains Active. *)
Theorem no_record_is_built (i : pyval) :
  (forall row table, exists e, segmentation_file i (row :: table) = Raise e) /\
  (forall row table, exists e, welcome_file i (row :: table) = Raise e) /\
  (forall row, str_contains "AU" (s_Appeal row) = true ->
               str_contains "Active" (s_Package row) = true ->
               segmentation_listid row = "199") /\
  segmentation_file (file_entry "AU_Active.csv")
    [{| s_Email_Address := "a@example.org"; s_First_name := "A"; s_Last_name := "B";
        s_Constituent_Number := "1"; s_Title := "Dr"; s_Appeal := "23AU";
        s_Package := "RG_Active-1"; s_Description := ""; s_Informal_Salutation := "A";
        s_Fullname := "A B" |}] = Raise (AttributeError "dict" "split") /\
  welcome_file (file_entry "Welcome.csv")
    [({| w_Email := "a@example.org"; w_FirstName := "A"; w_Surname := "B";
         w_Mobile := "0"; w_SerialNum := "1"; w_Title := "Dr"; w_Address := "";
         w_Suburb := ""; w_State := ""; w_Postcode := ""; w_DOB := "";
         w_1stDebitDate := ""; w_Amount := "1" |}, "71")] =
    Raise (AttributeError "dict" "split").
Proof.
  split; [|split; [|split; [|split]]].
  - intros row table. unfold segmentation_file.
    destruct i as [s|n|items|d]; try (eexists; reflexivity).
    unfold py_getitem. destruct (assoc "Name" items) as [name|];
      [|eexists; reflexivity].
    cbn [of_option mbind outcome_bind]. unfold read_table.
    destruct (_ || _); eexists; reflexivity.
  - intros row table. unfold welcome_file.
    destruct i as [s|n|items|d]; try (eexists; reflexivity).
    unfold py_getitem. destruct (assoc "Name" items) as [name|];
      [|eexists; reflexivity].
    cbn [of_option mbind outcome_bind]. unfold read_table.
    destruct (_ || _); [|eexists; reflexivity]. destruct row as [row listid].
    eexists; reflexivity.
  - apply segmentation_listid_AU_Active.
  - apply segmentation_file_entry. vm_compute. reflexivity.
  - apply welcome_file_entry. vm_compute. reflexivity.
Qed.

(** ** The Run Log Appender *)

Lemma any_named_entries (name : string) (entries : list (string * table)) :
  any_named name (map (fun entry => PyDict [("Name", fst entry)]) entries) =
  Ok (existsb (fun entry => String.eqb (fst entry) name) entries).
Proof.
  induction entries as [|[k v] entries IH]; [reflexivity|].
  cbn [map any_named py_getitem assoc fst existsb].
  rewrite String.eqb_refl. cbn [of_option mbind outcome_bind].
  destruct (String.eqb k name); [reflexivity | exact IH].
Qed.

Lemma any_named_files (name : string) (folder : gmap string table) :
  any_named name (files folder) = Ok (bool_decide (is_Some (folder !! name))).
Proof.
  unfold files. rewrite any_named_entries. f_equal.
  destruct (folder !! name) as [v|] eqn:Elook.
  - rewrite bool_decide_eq_true_2 by eauto.
    apply existsb_exists. exists (name, v). split.
    + apply list_elem_of_In, elem_of_map_to_list. assumption.
    + apply String.eqb_refl.
  - rewrite bool_decide_eq_false_2 by (intros [? ?]; discriminate).
    apply not_true_is_false. intros H. apply existsb_exists in H.
    destruct H as ([k v] & Hin & Heq). apply String.eqb_eq in Heq. cbn in Heq. subst k.
    apply list_elem_of_In, elem_of_map_to_list in Hin. congruence.
Qed.


(** When a log exists, what is uploaded is that log as it was: the result
    of [append] is dropped. *)
Lemma append_run_log_existing (m : run_metrics) (folder : gmap string table) (old : table) :
  folder !! log_name = Some old ->
  append_run_log m folder = (Ok tt, <[log_name := old]> folder).
Proof.
  intros Hsome. unfold append_run_log, mbind, eff_bind, lift.
  rewrite any_named_files, Hsome.
  rewrite bool_decide_eq_true_2 by eauto.
  unfold get_file. rewrite Hsome. reflexivity.
Qed.

(** C1. As the module stands, a run against an existing log uploads that
    log as it was: the frame [append] returns, which has this run's row after
    the prior rows, is dropped (line 342), so an existing log of n rows is
    uploaded with n rows, not n + 1. *)
Theorem run_log_row_is_dropped (m : run_metrics) (folder : gmap string table) (old : table) :
  let before := <[log_name := old]> folder in
  fst (append_run_log m before) = Ok tt /\
  snd (append_run_log m before) !! log_name = Some old /\
  rows (df_append old (df_logs m)) = rows old ++ rows (df_logs m) /\
  length (rows (df_append old (df_logs m))) = S (length (rows old)).
Proof.
  intros before.
  rewrite (append_run_log_existing m before old) by apply lookup_insert_eq.
  cbn [fst snd]. rewrite lookup_insert_eq.
  repeat split. cbn [df_append rows df_logs]. rewrite length_app. cbn [length]. lia.
Qed.

(** Against the three-row log, the uploaded log still has three rows. *)
Example three_row_log_stays_three_rows :
  let after := snd (append_run_log example_metrics {[ log_name := three_row_log ]}) in
  (rows <$> after !! log_name) = Some (rows three_row_log).
Proof.
  cbv zeta. rewrite (append_run_log_existing _ _ three_row_log) by apply lookup_singleton_eq.
  cbn [snd]. rewrite lookup_insert_eq. reflexivity.
Qed.

(** ** The model on small inputs *)

Example payload_parser_three_records :
  payload_parser (fun r : string => r) 49 4 {| contacts := ["{}"; "{}"; "{}"] |} = Ok [0; 3].
Proof. vm_compute. reflexivity. Qed.

Example payload_parser_no_record :
  payload_parser (fun r : string => r) 49 1 {| contacts := [] |} = Ok [0].
Proof. vm_compute. reflexivity. Qed.

Example advance_thousand_records : advance 1100049 1000 = Ok 328.
Proof. vm_compute. reflexivity. Qed.

Example page_count_250 : page_count 250 = Ok 3.
Proof. vm_compute. reflexivity. Qed.

Example run_date_2024_01_17 :
  ymd2ord 2024 1 17 = 738902 /\ weekday 738902 = 2 /\
  start_date 738902 = Ok (ymd2ord 2024 1 7) /\
  end_date 738902 = Ok (ymd2ord 2024 1 15).
Proof. vm_compute. repeat split. Qed.

Example cons_id_missing :
  fst (get_contacts_cons_id (fun _ => [{| field := "1"; value := "x" |}])
         module_globals "42" []) = Ok NaN.
Proof. vm_compute. reflexivity. Qed.

Example cons_id_first_match :
  fst (get_contacts_cons_id
         (fun _ => [{| field := "1"; value := "x" |}; {| field := "2"; value := "C-7" |};
                    {| field := "2"; value := "C-8" |}])
         module_globals "42" []) = Ok (Cell "C-7").
Proof. vm_compute. reflexivity. Qed.

(* ===================================================================== *)
(** * Further properties of the code *)
(* ===================================================================== *)

(** ** The step of the Batch Partitioner in exact arithmetic *)

(** The three roundings of [360000 / size * len], from below. *)
Lemma rounding_chain_lower (K Vp Vq Vn A S N P E : Z) :
  0 < P -> 1 < E -> 0 <= A -> 0 <= Vq -> 0 <= Vn -> 0 <= N -> 0 < S ->
  Vp < (K + 1) * P ->
  Vq * Vn * (E - 1) <= Vp * P * E ->
  A * P * (E - 1) <= Vq * S * (E + 1) ->
  N * P * (E - 1) <= Vn * E ->
  A * N * ((E - 1) * (E - 1) * (E - 1)) < (K + 1) * S * (E * E * (E + 1)).
Proof.
  intros HP HE HA HVq HVn HN HS H1 H2 H3 H4.
  assert (a1 : Vp * (P * E) < (K + 1) * P * (P * E)) by (apply Z.mul_lt_mono_pos_r; nia).
  assert (a2 : Vq * Vn * (E - 1) < (K + 1) * P * (P * E)) by lia.
  assert (a3 : Vq * Vn * (E - 1) * (S * (E + 1) * E) < (K + 1) * P * (P * E) * (S * (E + 1) * E))
    by (apply Z.mul_lt_mono_pos_r; nia).
  assert (a4 : A * P * (E - 1) * (Vn * E) <= Vq * S * (E + 1) * (Vn * E))
    by (apply Z.mul_le_mono_nonneg_r; nia).
  assert (a5 : A * P * (E - 1) * (N * P * (E - 1)) <= A * P * (E - 1) * (Vn * E))
    by (apply Z.mul_le_mono_nonneg_l; nia).
  assert (a6 : A * P * (E - 1) * (N * P * (E - 1)) * (E - 1) <=
               Vq * S * (E + 1) * (Vn * E) * (E - 1))
    by (apply Z.mul_le_mono_nonneg_r; lia).
  assert (a7 : P * P * (A * N * ((E - 1) * (E - 1) * (E - 1))) <
               P * P * ((K + 1) * S * (E * E * (E + 1)))).
  { replace (P * P * (A * N * ((E - 1) * (E - 1) * (E - 1))))
      with (A * P * (E - 1) * (N * P * (E - 1)) * (E - 1)) by ring.
    replace (P * P * ((K + 1) * S * (E * E * (E + 1))))
      with ((K + 1) * P * (P * E) * (S * (E + 1) * E)) by ring.
    eapply Z.le_lt_trans; [exact a6|].
    replace (Vq * S * (E + 1) * (Vn * E) * (E - 1))
      with (Vq * Vn * (E - 1) * (S * (E + 1) * E)) by ring.
    exact a3. }
  apply Z.mul_lt_mono_pos_l in a7; [exact a7 | nia].
Qed.

(** [advance] does not fall short of [360000 * len / size] by more than the
    rounding allows. *)
Lemma advance_lower (size len : Z) :
  2 <= size < 2 ^ 63 -> 1 <= len < 2 ^ 63 ->
  exists k,
    advance size len = Ok k /\
    360000 * len * ((2 ^ 52 - 1) * (2 ^ 52 - 1) * (2 ^ 52 - 1)) <
      k * size * (2 ^ 52 * 2 ^ 52 * (2 ^ 52 + 1)).
Proof.
  intros Hsize Hlen. unfold advance, int_true_div.
  destruct (Float64Facts.true_div_spec 360000 size) as (mq & eq & Hq & Hmq & Heq & _ & Hqlo & _);
    [lia | lia |].
  destruct (Float64Facts.float_of_int_spec len) as (mn & en & Hn & Hmn & Hen & _ & Hnlo & _);
    [lia |].
  assert (Hds : 2 <= SpecFloat.Zdigits2 size <= 63).
  { split; [apply (Float64Facts.Zdigits2_ge size 1); lia | apply Float64Facts.Zdigits2_le; lia]. }
  assert (Hdl : 1 <= SpecFloat.Zdigits2 len <= 63).
  { split; [apply (Float64Facts.Zdigits2_ge len 0); lia | apply Float64Facts.Zdigits2_le; lia]. }
  change (SpecFloat.Zdigits2 360000) with 19 in Heq.
  destruct (Float64Facts.mul_spec mq mn eq en) as (mp & ep & Hp & Hmp & Hep & _ & Hplo);
    [lia | lia | lia | lia | lia |].
  destruct (py_int_spec mp ep) as (K & HK & HK0 & _ & HKhi); [lia|].
  replace (size =? 0) with false by (symmetry; apply Z.eqb_neq; lia).
  rewrite Hq. cbn [mbind outcome_bind]. unfold float_mul_int. rewrite Hn.
  cbn [mbind outcome_bind]. rewrite Hp, HK. cbn [mbind outcome_bind mret outcome_ret].
  exists (K + 1). split; [reflexivity|].
  pose proof (Float64Facts.pow2_pos 1074 ltac:(lia)) as HP.
  pose proof (Float64Facts.pow2_pos (eq + 1074) ltac:(lia)) as HPq.
  pose proof (Float64Facts.pow2_pos (en + 1074) ltac:(lia)) as HPn.
  apply (rounding_chain_lower K (Z.pos mp * 2 ^ (ep + 1074)) (Z.pos mq * 2 ^ (eq + 1074))
           (Z.pos mn * 2 ^ (en + 1074)) 360000 size len (2 ^ 1074) (2 ^ 52));
    try lia.
Qed.

(** With [360000 * len] below 2^50 the roundings cannot carry the truncated
    product across a multiple of [size]. *)
Lemma advance_exact (size len : Z) :
  2 <= size < 2 ^ 63 -> 1 <= len -> 360000 * len < 2 ^ 50 ->
  exists k,
    advance size len = Ok k /\ 1 <= k /\
    (k - 1) * size <= 360000 * len <= k * size.
Proof.
  intros Hsize Hlen Hsmall.
  destruct (advance_spec size len Hsize ltac:(lia)) as (k & Hk & Hk1 & Hup).
  destruct (advance_lower size len Hsize ltac:(lia)) as (k' & Hk' & Hlo).
  rewrite Hk in Hk'. injection Hk' as <-.
  exists k. split; [exact Hk|]. split; [exact Hk1|].
  remember (360000 * len) as t eqn:Et.
  assert (HE : 2 ^ 52 = 4503599627370496) by reflexivity.
  assert (H50 : 2 ^ 50 = 1125899906842624) by reflexivity.
  rewrite HE in Hup, Hlo. rewrite H50 in Hsmall.
  split.
  - destruct (Z_le_gt_dec ((k - 1) * size) t) as [|Hgt]; [assumption|exfalso].
    assert (t + 1 <= (k - 1) * size) by lia.
    nia.
  - destruct (Z_le_gt_dec t (k * size)) as [|Hgt]; [assumption|exfalso].
    assert (k * size <= t - 1) by lia.
    nia.
Qed.

(** X1. The step of line 90, [int(360000 / payload_size_bytes * len_payload)
    + 1], computed in binary64, is the step exact arithmetic gives: for up to
    2^50 / 360000 records (about three thousand million) it is the least [k]
    with [360000 * len_payload <= k * payload_size_bytes], or one more when
    [payload_size_bytes] divides [360000 * len_payload]; whenever the
    quotient is not an integer it is [floor(360000 * len_payload /
    payload_size_bytes) + 1]. *)
Theorem step_is_exact_quotient (payload_size_bytes len_payload : Z) :
  2 <= payload_size_bytes < 2 ^ 63 ->
  1 <= len_payload ->
  360000 * len_payload < 2 ^ 50 ->
  exists k,
    advance payload_size_bytes len_payload = Ok k /\
    (k - 1) * payload_size_bytes <= 360000 * len_payload <= k * payload_size_bytes /\
    ((360000 * len_payload) mod payload_size_bytes <> 0 ->
     k = 360000 * len_payload / payload_size_bytes + 1).
Proof.
  intros Hsize Hlen Hsmall.
  destruct (advance_exact _ _ Hsize Hlen Hsmall) as (k & Hk & _ & Hlo & Hhi).
  exists k. split; [exact Hk|]. split; [lia|]. intros Hmod.
  pose proof (Z.div_mod (360000 * len_payload) payload_size_bytes ltac:(lia)) as Hdm.
  pose proof (Z.mod_pos_bound (360000 * len_payload) payload_size_bytes ltac:(lia)) as Hmb.
  remember (360000 * len_payload / payload_size_bytes) as q eqn:Eq.
  remember ((360000 * len_payload) mod payload_size_bytes) as r eqn:Er.
  nia.
Qed.

Lemma step_is_exact_quotient_witness :
  2 <= 1100049 < 2 ^ 63 /\ 1 <= 1000 /\ 360000 * 1000 < 2 ^ 50 /\
  exists k,
    advance 1100049 1000 = Ok k /\
    (k - 1) * 1100049 <= 360000 * 1000 <= k * 1100049 /\
    ((360000 * 1000) mod 1100049 <> 0 -> k = 360000 * 1000 / 1100049 + 1).
Proof.
  split; [lia|]. split; [lia|]. split; [lia|].
  apply (step_is_exact_quotient 1100049 1000); lia.
Defined.

(** ** The shape of the batches *)

Lemma gaps_cons (a b : Z) (F : list Z) : gaps (a :: b :: F) = (b - a) :: gaps (b :: F).
Proof. reflexivity. Qed.

(** A clamped chain advances by [k] every time but the last, where it
    advances by what is left. *)
Lemma chain_gaps (k len x : Z) (ext : list Z) :
  1 <= k -> x < len -> chain k len x ext ->
  let F := removelast (x :: ext) ++ [len] in
  head F = Some x /\
  exists (full : nat) (rest : Z),
    gaps F = repeat k full ++ [rest] /\ 1 <= rest <= k /\
    x + Z.of_nat full * k + rest = len.
Proof.
  intros Hk Hlt Hchain. revert Hlt.
  induction Hchain as [x Hge|x ext Hlt' Hchain IH]; intros Hlt; [lia|].
  cbv zeta in *.
  change (removelast (x :: (x + k) :: ext)) with (x :: removelast ((x + k) :: ext)).
  cbn [app]. split; [reflexivity|].
  destruct (Z_lt_le_dec (x + k) len) as [Hin|Hout].
  - destruct (IH Hin) as (Hhd & full & rest & Hgaps & Hrest & Hsum).
    destruct (removelast ((x + k) :: ext) ++ [len]) as [|a F'] eqn:EF; [discriminate|].
    cbn in Hhd. injection Hhd as ->.
    exists (S full), rest. rewrite gaps_cons, Hgaps.
    split; [cbn [repeat app]; f_equal; lia|]. split; [lia|]. lia.
  - inversion Hchain as [? Hge|]; subst; [|lia].
    exists 0%nat, (len - x). cbn. split; [reflexivity|]. lia.
Qed.

Lemma batches_lengths {A} (l : list A) (F : list Z) :
  Sorted Z.le F -> Forall (fun x => 0 <= x <= Z.of_nat (length l)) F ->
  map (fun b => Z.of_nat (length b)) (batches l F) = gaps F.
Proof.
  induction 1 as [|a F Hs IH Hhd]; intros Hall; [reflexivity|].
  destruct F as [|b F]; [reflexivity|].
  inversion Hall as [|? ? Ha Hall']; subst. inversion Hall' as [|? ? Hb _]; subst.
  inversion Hhd; subst.
  rewrite batches_cons, gaps_cons. cbn [map]. rewrite IH by assumption.
  rewrite py_slice_length by lia. reflexivity.
Qed.

Lemma py_slice_all {A} (l : list A) : py_slice l 0 (Z.of_nat (length l)) = l.
Proof.
  rewrite py_slice_within by lia. rewrite Nat2Z.id. cbn [Z.to_nat drop].
  apply firstn_all.
Qed.

Section PartitionerShape.
Context {R : Type} (dumps : R -> string) (str_header : Z).

(** [payload_parser] with its loop unrolled: the step [k], which every
    iteration computes anew from the same two numbers, and the chain of
    boundaries it spans. *)
Lemma payload_parser_chain (p : payload R) :
  0 <= str_header ->
  contacts p <> [] ->
  sys_getsizeof str_header (json_dumps dumps (contacts p)) < 2 ^ 63 ->
  360000 * Z.of_nat (length (contacts p)) < 2 ^ 50 ->
  let N := Z.of_nat (length (contacts p)) in
  let size := sys_getsizeof str_header (json_dumps dumps (contacts p)) in
  exists k ext,
    advance size N = Ok k /\
    1 <= k /\ (k - 1) * size <= 360000 * N <= k * size /\
    chain k N 0 ext /\
    forall fuel, (length (contacts p) < fuel)%nat ->
      payload_parser dumps str_header fuel p = Ok (removelast (0 :: ext) ++ [N]).
Proof.
  intros Hh Hne Hsize Hsmall N size.
  destruct (json_dumps_len_lower dumps (contacts p)) as [Hlen2 HlenN].
  assert (Hsz : 2 <= size < 2 ^ 63) by (unfold size, sys_getsizeof in *; lia).
  assert (HN : 1 <= N).
  { unfold N. destruct (contacts p); [congruence | cbn [length]; lia]. }
  destruct (advance_exact size N Hsz HN Hsmall) as (k & Hadv & Hk & Hbounds).
  destruct (payload_parser_loop_spec k N size (fun _ => Hadv) Hk
              (S (length (contacts p))) [0] 0 eq_refl ltac:(lia) ltac:(lia))
    as (ext & Hchain & _).
  exists k, ext. split; [exact Hadv|].
  split; [exact Hk|]. split; [exact Hbounds|]. split; [exact Hchain|].
  intros fuel Hfuel. unfold payload_parser. fold N. fold size.
  destruct (payload_parser_loop_spec k N size (fun _ => Hadv) Hk
              fuel [0] 0 eq_refl ltac:(lia) ltac:(lia))
    as (ext' & Hchain' & Hrun).
  rewrite Hrun. rewrite (chain_unique k N 0 ext' ext Hchain' Hchain).
  reflexivity.
Qed.

(** The batches of a non-empty record list: [full] batches of [k] records
    and a last one of [rest]. *)
Lemma payload_parser_batches (p : payload R) :
  0 <= str_header ->
  contacts p <> [] ->
  sys_getsizeof str_header (json_dumps dumps (contacts p)) < 2 ^ 63 ->
  360000 * Z.of_nat (length (contacts p)) < 2 ^ 50 ->
  let N := Z.of_nat (length (contacts p)) in
  let size := sys_getsizeof str_header (json_dumps dumps (contacts p)) in
  exists k idx (full : nat) (rest : Z),
    advance size N = Ok k /\
    (k - 1) * size <= 360000 * N <= k * size /\
    (forall fuel, (length (contacts p) < fuel)%nat ->
       payload_parser dumps str_header fuel p = Ok idx) /\
    Sorted (step_within k) idx /\
    map (fun b => Z.of_nat (length b)) (batches (contacts p) idx) = repeat k full ++ [rest] /\
    1 <= rest <= k /\
    Z.of_nat full * k + rest = N.
Proof.
  intros Hh Hne Hsize Hsmall N size.
  destruct (payload_parser_chain p Hh Hne Hsize Hsmall)
    as (k & ext & Hadv & Hk & Hbounds & Hchain & Hrun).
  fold N in Hadv, Hbounds, Hchain, Hrun. fold size in Hadv, Hbounds.
  assert (HN : 1 <= N).
  { unfold N. destruct (contacts p); [congruence | cbn [length]; lia]. }
  destruct (chain_clamped k N 0 ext Hk Hchain) as (Hhd & _ & Hsorted & Hlast).
  destruct (chain_gaps k N 0 ext Hk ltac:(lia) Hchain) as (_ & full & rest & Hgaps & Hrest & Hsum).
  exists k, (removelast (0 :: ext) ++ [N]), full, rest.
  split; [exact Hadv|]. split; [exact Hbounds|]. split; [exact Hrun|].
  split; [exact Hsorted|]. split; [|split; [exact Hrest | lia]].
  rewrite <- Hgaps. apply batches_lengths.
  - apply (sorted_weaken (step_within k)); [|exact Hsorted]. intros a b [H _]. lia.
  - apply (strongly_sorted_between _ 0 N); [| apply Hhd; lia | exact Hlast].
    eapply step_within_lt; exact Hsorted.
Qed.

End PartitionerShape.

(** X2. The Batch Partitioner cuts by record count, not by bytes: for a
    non-empty record list, every batch the boundaries of [payload_parser]
    cut out holds exactly [k] records, [k] the step of line 90, except the
    last, which holds what is left, between 1 and [k] records; together they
    hold the [N] records. *)
Theorem payload_parser_equal_batches {R : Type} (dumps : R -> string) (str_header : Z)
    (p : payload R) :
  0 <= str_header ->
  contacts p <> [] ->
  sys_getsizeof str_header (json_dumps dumps (contacts p)) < 2 ^ 63 ->
  360000 * Z.of_nat (length (contacts p)) < 2 ^ 50 ->
  let N := Z.of_nat (length (contacts p)) in
  let size := sys_getsizeof str_header (json_dumps dumps (contacts p)) in
  exists k idx (full : nat) (rest : Z),
    advance size N = Ok k /\
    (forall fuel, (length (contacts p) < fuel)%nat ->
       payload_parser dumps str_header fuel p = Ok idx) /\
    map (fun b => Z.of_nat (length b)) (batches (contacts p) idx) = repeat k full ++ [rest] /\
    1 <= rest <= k /\
    Z.of_nat full * k + rest = N.
Proof.
  intros Hh Hne Hsize Hsmall N size.
  destruct (payload_parser_batches dumps str_header p Hh Hne Hsize Hsmall)
    as (k & idx & full & rest & Hadv & _ & Hrun & _ & Hlen & Hrest & Hsum).
  exists k, idx, full, rest. auto.
Qed.

Lemma payload_parser_equal_batches_witness :
  0 <= 49 /\ contacts two_records <> [] /\
  sys_getsizeof 49 (json_dumps (fun r : string => r) (contacts two_records)) < 2 ^ 63 /\
  360000 * Z.of_nat (length (contacts two_records)) < 2 ^ 50 /\
  exists k idx (full : nat) (rest : Z),
    advance (sys_getsizeof 49 (json_dumps (fun r : string => r) (contacts two_records)))
      (Z.of_nat (length (contacts two_records))) = Ok k /\
    (forall fuel, (length (contacts two_records) < fuel)%nat ->
       payload_parser (fun r : string => r) 49 fuel two_records = Ok idx) /\
    map (fun b => Z.of_nat (length b)) (batches (contacts two_records) idx) =
      repeat k full ++ [rest] /\
    1 <= rest <= k /\
    Z.of_nat full * k + rest = Z.of_nat (length (contacts two_records)).
Proof.
  split; [lia|]. split; [discriminate|]. split; [vm_compute; reflexivity|].
  split; [vm_compute; reflexivity|].
  apply (payload_parser_equal_batches (fun r : string => r) 49 two_records);
    [lia | discriminate | vm_compute; reflexivity | vm_compute; reflexivity].
Defined.

(** X3. A payload that fits under the ceiling is sent whole: when the
    serialised record list takes at most 360,000 bytes ([sys.getsizeof]
    included), [payload_parser] returns [[0, N]] and the one batch is the
    record list itself. *)
Theorem payload_parser_single_batch {R : Type} (dumps : R -> string) (str_header : Z)
    (p : payload R) :
  0 <= str_header ->
  contacts p <> [] ->
  sys_getsizeof str_header (json_dumps dumps (contacts p)) <= 360000 ->
  forall fuel, (length (contacts p) < fuel)%nat ->
    payload_parser dumps str_header fuel p = Ok [0; Z.of_nat (length (contacts p))] /\
    batches (contacts p) [0; Z.of_nat (length (contacts p))] = [contacts p].
Proof.
  intros Hh Hne Hsize fuel Hfuel.
  destruct (json_dumps_len_lower dumps (contacts p)) as [_ HlenN].
  assert (HN : 1 <= Z.of_nat (length (contacts p))).
  { destruct (contacts p); [congruence | cbn [length]; lia]. }
  destruct (payload_parser_chain dumps str_header p Hh Hne)
    as (k & ext & _ & Hk & [_ Hhi] & Hchain & Hrun);
    [lia | unfold sys_getsizeof in *; lia |].
  cbv zeta in *.
  assert (HkN : Z.of_nat (length (contacts p)) <= k).
  { remember (Z.of_nat (length (contacts p))) as N.
    remember (sys_getsizeof str_header (json_dumps dumps (contacts p))) as size.
    assert (0 < size) by (subst size; unfold sys_getsizeof; lia).
    nia. }
  split.
  - rewrite (Hrun fuel Hfuel). f_equal.
    inversion Hchain as [? Hge|? ext' Hlt Hchain']; subst; [lia|].
    inversion Hchain' as [? Hge|]; subst; [reflexivity | lia].
  - cbn. rewrite py_slice_all. reflexivity.
Qed.

Lemma payload_parser_single_batch_witness :
  0 <= 49 /\ contacts two_records <> [] /\
  sys_getsizeof 49 (json_dumps (fun r : string => r) (contacts two_records)) <= 360000 /\
  forall fuel, (length (contacts two_records) < fuel)%nat ->
    payload_parser (fun r : string => r) 49 fuel two_records =
      Ok [0; Z.of_nat (length (contacts two_records))] /\
    batches (contacts two_records) [0; Z.of_nat (length (contacts two_records))] =
      [contacts two_records].
Proof.
  split; [lia|]. split; [discriminate|]. split; [vm_compute; discriminate|].
  apply (payload_parser_single_batch (fun r : string => r) 49 two_records);
    [lia | discriminate | vm_compute; discriminate].
Defined.

(** X4. The number of batches, hence of POST requests the import loop is to
    make, is at most [ceil(payload_size_bytes / 360000)]: with [n] batches,
    [(n - 1) * 360000 < payload_size_bytes]; and there is at least one. *)
Theorem payload_parser_batch_count {R : Type} (dumps : R -> string) (str_header : Z)
    (p : payload R) :
  0 <= str_header ->
  contacts p <> [] ->
  sys_getsizeof str_header (json_dumps dumps (contacts p)) < 2 ^ 63 ->
  360000 * Z.of_nat (length (contacts p)) < 2 ^ 50 ->
  exists idx,
    (forall fuel, (length (contacts p) < fuel)%nat ->
       payload_parser dumps str_header fuel p = Ok idx) /\
    1 <= Z.of_nat (length (batches (contacts p) idx)) /\
    (Z.of_nat (length (batches (contacts p) idx)) - 1) * 360000 <
      sys_getsizeof str_header (json_dumps dumps (contacts p)).
Proof.
  intros Hh Hne Hsize Hsmall.
  destruct (payload_parser_batches dumps str_header p Hh Hne Hsize Hsmall)
    as (k & idx & full & rest & _ & [_ Hhi] & Hrun & _ & Hlen & Hrest & Hsum).
  exists idx. split; [exact Hrun|].
  assert (HN : 1 <= Z.of_nat (length (contacts p))).
  { destruct (contacts p); [congruence | cbn [length]; lia]. }
  apply (f_equal (@length Z)) in Hlen.
  rewrite length_map, length_app, repeat_length in Hlen. cbn [length] in Hlen.
  rewrite Hlen.
  remember (Z.of_nat (length (contacts p))) as N.
  remember (sys_getsizeof str_header (json_dumps dumps (contacts p))) as size.
  destruct (json_dumps_len_lower dumps (contacts p)) as [Hlen2 _].
  assert (Hsz : 0 < size) by (subst size; unfold sys_getsizeof; lia).
  split; [lia|].
  replace (Z.of_nat (full + 1) - 1) with (Z.of_nat full) by lia.
  assert (H1 : Z.of_nat full * k <= N - 1) by lia.
  assert (H2 : Z.of_nat full * k * size <= (N - 1) * size)
    by (apply Z.mul_le_mono_nonneg_r; lia).
  assert (H3 : Z.of_nat full * (360000 * N) <= Z.of_nat full * (k * size))
    by (apply Z.mul_le_mono_nonneg_l; lia).
  assert (H4 : N * (Z.of_nat full * 360000) < N * size) by lia.
  apply Z.mul_lt_mono_pos_l in H4; lia.
Qed.

Lemma payload_parser_batch_count_witness :
  0 <= 49 /\ contacts two_records <> [] /\
  sys_getsizeof 49 (json_dumps (fun r : string => r) (contacts two_records)) < 2 ^ 63 /\
  360000 * Z.of_nat (length (contacts two_records)) < 2 ^ 50 /\
  exists idx,
    (forall fuel, (length (contacts two_records) < fuel)%nat ->
       payload_parser (fun r : string => r) 49 fuel two_records = Ok idx) /\
    1 <= Z.of_nat (length (batches (contacts two_records) idx)) /\
    (Z.of_nat (length (batches (contacts two_records) idx)) - 1) * 360000 <
      sys_getsizeof 49 (json_dumps (fun r : string => r) (contacts two_records)).
Proof.
  split; [lia|]. split; [discriminate|]. split; [vm_compute; reflexivity|].
  split; [vm_compute; reflexivity|].
  apply (payload_parser_batch_count (fun r : string => r) 49 two_records);
    [lia | discriminate | vm_compute; reflexivity | vm_compute; reflexivity].
Defined.

(** X5. Among records that all serialise to the same [b] bytes, the batches
    are filled up to the ceiling: every batch but the last serialises to at
    least 360,000 bytes less the size of the [str] header. *)
Theorem uniform_full_batches_reach_ceiling {R : Type} (dumps : R -> string) (str_header : Z)
    (p : payload R) (b : Z) :
  0 <= str_header ->
  contacts p <> [] ->
  sys_getsizeof str_header (json_dumps dumps (contacts p)) < 2 ^ 63 ->
  360000 * Z.of_nat (length (contacts p)) < 2 ^ 50 ->
  Forall (fun r => str_len (dumps r) = b) (contacts p) ->
  exists idx,
    (forall fuel, (length (contacts p) < fuel)%nat ->
       payload_parser dumps str_header fuel p = Ok idx) /\
    forall (i : nat) (batch : list R),
      batches (contacts p) idx !! i = Some batch ->
      (S i < length (batches (contacts p) idx))%nat ->
      360000 - str_header <= str_len (json_dumps dumps batch).
Proof.
  intros Hh Hne Hsize Hsmall Hall.
  destruct (payload_parser_batches dumps str_header p Hh Hne Hsize Hsmall)
    as (k & idx & full & rest & _ & [_ Hhi] & Hrun & Hsorted & Hlen & Hrest & Hsum).
  exists idx. split; [exact Hrun|]. intros i batch Hi Hnotlast.
  assert (Hlength : length (batches (contacts p) idx) = (full + 1)%nat).
  { apply (f_equal (@length Z)) in Hlen.
    rewrite length_map, length_app, repeat_length in Hlen. exact Hlen. }
  assert (Hifull : (i < full)%nat) by lia.
  assert (Hk : Z.of_nat (length batch) = k).
  { assert (H : map (fun b => Z.of_nat (length b)) (batches (contacts p) idx) !! i =
                Some (Z.of_nat (length batch))) by (rewrite list_lookup_fmap, Hi; reflexivity).
    rewrite Hlen in H. rewrite lookup_app_l in H by (rewrite repeat_length; lia).
    apply list_elem_of_lookup_2, list_elem_of_In, repeat_spec in H. exact H. }
  assert (Hin : In batch (batches (contacts p) idx))
    by (apply list_elem_of_In; eapply list_elem_of_lookup_2; exact Hi).
  destruct (batches_inv k (contacts p) idx batch Hsorted Hin) as (lo & hi & -> & _).
  assert (Hb : 0 <= b).
  { destruct (contacts p) as [|r rs]; [congruence|]. inversion Hall; subst.
    apply str_len_nonneg. }
  rewrite (json_dumps_len_uniform dumps b).
  - rewrite Hk.
    unfold sys_getsizeof in Hhi.
    rewrite (json_dumps_len_uniform dumps b (contacts p) Hall Hne) in Hhi.
    remember (Z.of_nat (length (contacts p))) as N.
    assert (HkN : k <= N - 1).
    { assert (1 <= Z.of_nat full) by lia.
      assert (k * 1 <= Z.of_nat full * k) by nia. lia. }
    assert (H1 : k * str_header <= N * str_header) by (apply Z.mul_le_mono_nonneg_r; lia).
    assert (H2 : N * (360000 - str_header) <= N * (k * (b + 2))) by lia.
    apply Z.mul_le_mono_pos_l in H2; lia.
  - apply py_slice_Forall. exact Hall.
  - intros Hnil. rewrite Hnil in Hk. cbn in Hk. lia.
Qed.

Lemma uniform_full_batches_reach_ceiling_witness :
  0 <= 49 /\ contacts thousand_records <> [] /\
  sys_getsizeof 49 (json_dumps (fun r : string => r) (contacts thousand_records)) < 2 ^ 63 /\
  360000 * Z.of_nat (length (contacts thousand_records)) < 2 ^ 50 /\
  Forall (fun r => str_len r = 1098) (contacts thousand_records) /\
  exists idx,
    (forall fuel, (length (contacts thousand_records) < fuel)%nat ->
       payload_parser (fun r : string => r) 49 fuel thousand_records = Ok idx) /\
    forall (i : nat) (batch : list string),
      batches (contacts thousand_records) idx !! i = Some batch ->
      (S i < length (batches (contacts thousand_records) idx))%nat ->
      360000 - 49 <= str_len (json_dumps (fun r : string => r) batch).
Proof.
  assert (Hall : Forall (fun r => str_len r = 1098) (contacts thousand_records)).
  { apply Forall_forall. intros r Hr. apply list_elem_of_In, repeat_spec in Hr.
    subst r. apply uniform_record_len. }
  assert (Hlen : Z.of_nat (length (contacts thousand_records)) = 1000).
  { cbn [thousand_records contacts]. rewrite repeat_length. reflexivity. }
  split; [lia|]. split; [discriminate|].
  split; [rewrite thousand_records_size; lia|].
  split; [rewrite Hlen; lia|].
  split; [exact Hall|].
  apply (uniform_full_batches_reach_ceiling (fun r : string => r) 49 thousand_records 1098);
    [lia | discriminate | rewrite thousand_records_size; lia | rewrite Hlen; lia | exact Hall].
Defined.

(** X6. With no record to import the loop of lines 213-220 (and 278-285)
    does nothing: [payload_parser] returns [[0]], [range(0)] is empty, so no
    request is sent, no sleep is taken and no name of the loop body is looked
    up; whatever the module binds, the import ends normally. *)
Theorem bulk_import_of_nothing {R : Type} (dumps : R -> string) (str_header : Z)
    (g : gmap string pyval) (fuel : nat) (sent : list (import_event (R := R))) :
  payload_parser dumps str_header (S fuel) {| contacts := [] |} = Ok [0] /\
  bulk_import dumps str_header (S fuel) g [] sent = (Ok tt, sent).
Proof. split; reflexivity. Qed.

(** ** Edges of the Paginated Collector *)

Lemma pd_bound : load_global module_globals "pd" = Ok (PyObj "module").
Proof. vm_compute. reflexivity. Qed.

Lemma process_contacts_nil {V : Type}
    (contacts_page : string -> list (string * Z) -> list (gmap string V))
    (g : gmap string pyval) (kind : string) (sent : list fetch_event) :
  process_contacts contacts_page g [] kind sent = (Ok [], sent).
Proof.
  unfold process_contacts.
  destruct (String.eqb kind "bounced"), (String.eqb kind "unsubbed"); reflexivity.
Qed.

(** X7. [process_contacts] fetches nothing, and fails on nothing, when there
    is no page to fetch or when [kind] is neither ["bounced"] nor
    ["unsubbed"]: it returns the empty list without a request, whatever the
    module binds; a misspelt kind is not reported. *)
Theorem process_contacts_fetches_nothing {V : Type}
    (contacts_page : string -> list (string * Z) -> list (gmap string V))
    (g : gmap string pyval) (iterator : list Z) (kind : string) (sent : list fetch_event) :
  iterator = [] \/ (kind <> "bounced" /\ kind <> "unsubbed") ->
  process_contacts contacts_page g iterator kind sent = (Ok [], sent).
Proof.
  intros [->|[Hb Hu]]; [apply process_contacts_nil|].
  unfold process_contacts.
  apply String.eqb_neq in Hb, Hu. rewrite Hb, Hu. reflexivity.
Qed.

Lemma process_contacts_fetches_nothing_witness :
  (range 3 = [] \/ ("Bounced" <> "bounced" /\ "Bounced" <> "unsubbed")) /\
  process_contacts (fun (_ : string) (_ : list (string * Z)) => @nil (gmap string string))
    module_globals (range 3) "Bounced" [] = (Ok [], []).
Proof.
  split; [right; split; discriminate|].
  apply (process_contacts_fetches_nothing
           (fun (_ : string) (_ : list (string * Z)) => @nil (gmap string string))
           module_globals (range 3) "Bounced" []).
  right; split; discriminate.
Defined.

(** X8. When the API reports no bounced (no unsubscribed) contact at all,
    the collation stage stops with [KeyError]: the request for the total is
    the only one sent, no page helper is called (so the unbound name
    [headers] is never read), the collected list is empty, the frame built
    from it has no column, and the subscript [["bounced_date"]] of line 293
    ([["cdate"]] of line 313) fails. *)
Theorem nothing_collected_raises_key_error {V : Type}
    (contacts_page : string -> list (string * Z) -> list (gmap string V))
    (meta_total : string -> Z) :
  meta_total url_bounced_contact = 0 ->
  meta_total url_unsubbed_contact = 0 ->
  collate_bounced contacts_page meta_total module_globals [] =
    (Ok [], [Get url_bounced_contact headers_get_bounced_unsubbed_contact [("limit", 1)]]) /\
  bounced_date_column contacts_page meta_total module_globals [] =
    (Raise (KeyError "bounced_date"),
     [Get url_bounced_contact headers_get_bounced_unsubbed_contact [("limit", 1)]]) /\
  unsubbed_cdate_column contacts_page meta_total module_globals [] =
    (Raise (KeyError "cdate"),
     [Get url_unsubbed_contact headers_get_bounced_unsubbed_contact [("limit", 1)]]).
Proof.
  intros Hb Hu.
  assert (Hcb : collate_bounced contacts_page meta_total module_globals [] =
    (Ok [], [Get url_bounced_contact headers_get_bounced_unsubbed_contact [("limit", 1)]])).
  { unfold collate_bounced, collate. unfold mbind at 1, eff_bind.
    rewrite (count_request_run meta_total module_globals "url_bounced_contact"
               url_bounced_contact headers_get_bounced_unsubbed_contact (PyObj "module") []);
      [|vm_compute; reflexivity..].
    rewrite Hb. unfold mbind at 1, eff_bind, lift. rewrite math_bound.
    unfold mbind at 1, eff_bind. change (page_count 0) with (Ok 0).
    change (range 0) with (@nil Z). unfold mbind, eff_bind.
    rewrite process_contacts_nil. reflexivity. }
  assert (Hcu : collate_unsubbed contacts_page meta_total module_globals [] =
    (Ok [], [Get url_unsubbed_contact headers_get_bounced_unsubbed_contact [("limit", 1)]])).
  { unfold collate_unsubbed, collate. unfold mbind at 1, eff_bind.
    rewrite (count_request_run meta_total module_globals "url_unsubbed_contact"
               url_unsubbed_contact headers_get_bounced_unsubbed_contact (PyObj "module") []);
      [|vm_compute; reflexivity..].
    rewrite Hu. unfold mbind at 1, eff_bind, lift. rewrite math_bound.
    unfold mbind at 1, eff_bind. change (page_count 0) with (Ok 0).
    change (range 0) with (@nil Z). unfold mbind, eff_bind.
    rewrite process_contacts_nil. reflexivity. }
  split; [exact Hcb|]. split.
  - unfold bounced_date_column. unfold mbind at 1, eff_bind. rewrite Hcb.
    unfold mbind, eff_bind, lift. rewrite pd_bound. reflexivity.
  - unfold unsubbed_cdate_column. unfold mbind at 1, eff_bind. rewrite Hcu.
    unfold mbind, eff_bind, lift. rewrite pd_bound. reflexivity.
Qed.

Lemma nothing_collected_raises_key_error_witness :
  (fun _ : string => 0) url_bounced_contact = 0 /\
  (fun _ : string => 0) url_unsubbed_contact = 0 /\
  collate_bounced (fun (_ : string) (_ : list (string * Z)) => @nil (gmap string string))
    (fun _ => 0) module_globals [] =
    (Ok [], [Get url_bounced_contact headers_get_bounced_unsubbed_contact [("limit", 1)]]) /\
  bounced_date_column (fun (_ : string) (_ : list (string * Z)) => @nil (gmap string string))
    (fun _ => 0) module_globals [] =
    (Raise (KeyError "bounced_date"),
     [Get url_bounced_contact headers_get_bounced_unsubbed_contact [("limit", 1)]]) /\
  unsubbed_cdate_column (fun (_ : string) (_ : list (string * Z)) => @nil (gmap string string))
    (fun _ => 0) module_globals [] =
    (Raise (KeyError "cdate"),
     [Get url_unsubbed_contact headers_get_bounced_unsubbed_contact [("limit", 1)]]).
Proof.
  split; [reflexivity|]. split; [reflexivity|].
  apply (nothing_collected_raises_key_error
           (fun (_ : string) (_ : list (string * Z)) => @nil (gmap string string))
           (fun _ => 0)); reflexivity.
Defined.

(** X9. The pages asked for cover the contacts and nothing more: with
    [pages = math.ceil(total / 100)] and the offsets [100 * i] for [i] in
    [range(pages)], every position below the total lies in the hundred
    positions of one requested page, and no requested page starts at or
    after the total. *)
Theorem pages_cover_every_contact (total : Z) :
  0 <= total < 2 ^ 50 ->
  exists pages,
    page_count total = Ok pages /\
    (forall j, 0 <= j < total -> exists i, In i (range pages) /\ 100 * i <= j < 100 * i + 100) /\
    (forall i, In i (range pages) -> 100 * i < total).
Proof.
  intros HT. exists ((total + 99) / 100). split; [apply page_count_spec; exact HT|].
  pose proof (Z.div_mod (total + 99) 100 ltac:(lia)) as Hdm.
  pose proof (Z.mod_pos_bound (total + 99) 100 ltac:(lia)) as Hmb.
  split.
  - intros j Hj. exists (j / 100).
    pose proof (Z.div_mod j 100 ltac:(lia)) as Hj1.
    pose proof (Z.mod_pos_bound j 100 ltac:(lia)) as Hj2.
    split; [|lia].
    unfold range. apply list_elem_of_In, elem_of_seqZ. lia.
  - intros i Hi. unfold range in Hi. apply list_elem_of_In, elem_of_seqZ in Hi. lia.
Qed.

Lemma pages_cover_every_contact_witness :
  0 <= 250 < 2 ^ 50 /\
  exists pages,
    page_count 250 = Ok pages /\
    (forall j, 0 <= j < 250 -> exists i, In i (range pages) /\ 100 * i <= j < 100 * i + 100) /\
    (forall i, In i (range pages) -> 100 * i < 250).
Proof.
  split; [lia|]. apply (pages_cover_every_contact 250). lia.
Defined.

(** ** Constituent ids of the kept contacts *)

(** One lookup, as the module stands. *)
Lemma get_contacts_cons_id_run (field_values : string -> list field_value)
    (cons_id : string) (sent : list fetch_event) :
  get_contacts_cons_id field_values module_globals cons_id sent =
  (Ok (cons_id_of field_values cons_id),
   sent ++ [Get (cons_id_url cons_id) headers_get_bounced_unsubbed_contact []; FetchSleep 1]).
Proof.
  unfold get_contacts_cons_id, cons_id_of, cons_id_url.
  unfold mbind at 1, eff_bind, lift. rewrite requests_bound.
  unfold mbind at 1, eff_bind. rewrite headers_get_bound.
  unfold mbind at 1, eff_bind, requests_get_contact.
  rewrite <- head_filter_find.
  destruct (List.filter (fun i => String.eqb (field i) "2") _) as [|i matching] eqn:Ematch.
  - cbn [length]. change (Z.of_nat 0 =? 0) with true. cbv iota.
    unfold mbind, eff_bind. rewrite np_bound, time_bound.
    change (py_index [?x] 0) with (Ok x).
    unfold time_sleep. cbn. rewrite <- app_assoc. reflexivity.
  - replace (Z.of_nat (length (i :: matching)) =? 0) with false
      by (symmetry; apply Z.eqb_neq; cbn [length]; lia).
    cbv iota. unfold mbind, eff_bind. rewrite time_bound.
    change (py_index [?x] 0) with (Ok x). change (py_index (i :: matching) 0) with (Ok i).
    unfold time_sleep. cbn. rewrite <- app_assoc. reflexivity.
Qed.

Lemma process_cons_id_run (field_values : string -> list field_value)
    (iterator : list string) (sent : list fetch_event) :
  process_cons_id field_values module_globals iterator sent =
  (Ok (map (cons_id_of field_values) iterator),
   sent ++ flat_map (fun cons_id =>
                       [Get (cons_id_url cons_id) headers_get_bounced_unsubbed_contact [];
                        FetchSleep 1]) iterator).
Proof.
  unfold process_cons_id, mbind, eff_bind.
  rewrite (for_each_all_ok (get_contacts_cons_id field_values module_globals)
             (cons_id_of field_values)
             (fun cons_id => [Get (cons_id_url cons_id) headers_get_bounced_unsubbed_contact [];
                              FetchSleep 1])).
  - reflexivity.
  - intros cons_id s. apply get_contacts_cons_id_run.
Qed.

Lemma set_column_map {Row Value Row'} (assign : Row -> Value -> Row') (key : Row -> Value)
    (df : list Row) :
  set_column assign df (map key df) = Ok (map (fun r => assign r (key r)) df).
Proof.
  unfold set_column. rewrite length_map, Nat.eqb_refl. f_equal.
  induction df as [|r df IH]; [reflexivity|]. cbn. rewrite IH. reflexivity.
Qed.


(** X11. The reports look up the kept contacts only: of the collected
    table, the rows dated inside the window are kept in their order, each
    with the constituent id found for its [id]; one request is made per kept
    row, in row order, and none for a contact outside the window; the
    assignment of the looked-up column never fails on a length mismatch. *)
Theorem reports_look_up_kept_contacts_only (field_values : string -> list field_value)
    (start_date end_date : Z) (sent : list fetch_event) :
  (forall df : list bounced_row,
     let kept := filter_bounced start_date end_date df in
     bounced_report field_values module_globals start_date end_date df sent =
     (Ok (map (fun r => {| rb_Email := b_email r; rb_First_Name := b_firstName r;
                           rb_Last_Name := b_lastName r; rb_Bounced_Date := bounced_date r;
                           rb_RE_Constituent_ID := cons_id_of field_values (b_id r) |}) kept),
      sent ++ flat_map (fun r => [Get (cons_id_url (b_id r))
                                    headers_get_bounced_unsubbed_contact [];
                                  FetchSleep 1]) kept)) /\
  (forall df : list unsubbed_row,
     let kept := filter_unsubbed start_date end_date df in
     unsubbed_report field_values module_globals start_date end_date df sent =
     (Ok (map (fun r => {| ru_Email := u_email r; ru_First_Name := u_firstName r;
                           ru_Last_Name := u_lastName r; ru_Subscribed_Date := cdate r;
                           ru_Unsubscribed_Date := udate r;
                           ru_RE_Constituent_ID := cons_id_of field_values (u_id r) |}) kept),
      sent ++ flat_map (fun r => [Get (cons_id_url (u_id r))
                                    headers_get_bounced_unsubbed_contact [];
                                  FetchSleep 1]) kept)).
Proof.
  split; intros df kept.
  - unfold bounced_report. fold kept. unfold mbind, eff_bind.
    rewrite process_cons_id_run. unfold lift.
    rewrite (map_map b_id (cons_id_of field_values)).
    rewrite (set_column_map _ (fun r => cons_id_of field_values (b_id r))).
    rewrite flat_map_concat_map, map_map, <- flat_map_concat_map. reflexivity.
  - unfold unsubbed_report. fold kept. unfold mbind, eff_bind.
    rewrite process_cons_id_run. unfold lift.
    rewrite (map_map u_id (cons_id_of field_values)).
    rewrite (set_column_map _ (fun r => cons_id_of field_values (u_id r))).
    rewrite flat_map_concat_map, map_map, <- flat_map_concat_map. reflexivity.
Qed.

(** ** The window and the filter together *)

(** The dates strictly inside the window of a run are the dates of the week
    before the week of the run. *)
Lemma previous_week (current_date x : Z) :
  current_date - weekday current_date - 8 < x < current_date - weekday current_date <->
  week_start x + 7 = week_start current_date.
Proof.
  unfold week_start, weekday.
  pose proof (Z.div_mod (current_date + 6) 7 ltac:(lia)) as Hc.
  pose proof (Z.mod_pos_bound (current_date + 6) 7 ltac:(lia)) as Hcb.
  pose proof (Z.div_mod (x + 6) 7 ltac:(lia)) as Hx.
  pose proof (Z.mod_pos_bound (x + 6) 7 ltac:(lia)) as Hxb.
  lia.
Qed.

(** X12. The filter applied with the window of a run keeps a contact exactly
    when its date falls in the week (Monday to Sunday) before the week of
    the run: whichever day of a week the script runs, it reports the same
    contacts, and runs in consecutive weeks report every contact once, with
    no day left out and none reported twice. *)
Theorem kept_contacts_are_last_weeks (current_date : Z) :
  15 <= current_date <= max_ordinal ->
  exists s e,
    start_date current_date = Ok s /\ end_date current_date = Ok e /\
    (forall (df : list bounced_row) (r : bounced_row),
       In r (filter_bounced s e df) <->
       In r df /\ week_start (bounced_date r) + 7 = week_start current_date) /\
    (forall (df : list unsubbed_row) (r : unsubbed_row),
       In r (filter_unsubbed s e df) <->
       In r df /\ week_start (udate r) + 7 = week_start current_date).
Proof.
  intros H. destruct (window_spec current_date H) as [Hs He].
  exists (current_date - weekday current_date - 8), (current_date - weekday current_date).
  split; [exact Hs|]. split; [exact He|]. split.
  - intros df r. unfold filter_bounced. rewrite filter_In, andb_true_iff, !Z.ltb_lt.
    rewrite <- previous_week. tauto.
  - intros df r. unfold filter_unsubbed. rewrite filter_In, andb_true_iff, !Z.ltb_lt.
    rewrite <- previous_week. tauto.
Qed.

Lemma kept_contacts_are_last_weeks_witness :
  15 <= 738902 <= max_ordinal /\
  exists s e,
    start_date 738902 = Ok s /\ end_date 738902 = Ok e /\
    (forall (df : list bounced_row) (r : bounced_row),
       In r (filter_bounced s e df) <->
       In r df /\ week_start (bounced_date r) + 7 = week_start 738902) /\
    (forall (df : list unsubbed_row) (r : unsubbed_row),
       In r (filter_unsubbed s e df) <->
       In r df /\ week_start (udate r) + 7 = week_start 738902).
Proof.
  split; [unfold max_ordinal; lia|].
  apply (kept_contacts_are_last_weeks 738902). unfold max_ordinal. lia.
Defined.

(** ** The list of a segmentation row *)

Lemma prefix_app_contains (a b s : string) :
  String.prefix (a +:+ b) s = true -> str_contains b s = true.
Proof.
  revert s. induction a as [|c a IH]; intros s H.
  - change ("" +:+ b) with b in H. destruct s; cbn [str_contains]; rewrite H; reflexivity.
  - change (String c a +:+ b) with (String c (a +:+ b)) in H.
    destruct s as [|d s]; [discriminate|]. cbn [String.prefix] in H.
    destruct (ascii_dec c d); [|discriminate].
    cbn [str_contains]. rewrite (IH s H). apply orb_true_r.
Qed.

(** A string that contains [a ++ b] contains [b]. *)
Lemma str_contains_app (a b s : string) :
  str_contains (a +:+ b) s = true -> str_contains b s = true.
Proof.
  induction s as [|d s IH]; intros H.
  - cbn [str_contains] in H. rewrite orb_false_r in H. apply (prefix_app_contains a b). exact H.
  - cbn [str_contains] in H. apply orb_true_iff in H. destruct H as [H|H].
    + apply (prefix_app_contains a b). exact H.
    + cbn [str_contains]. rewrite (IH H). apply orb_true_r.
Qed.

(** X13. The list 237 (SG NonInsight) is never selected: a Package that
    contains NonInsight contains Insight, and the condition for Insight
    stands before the one for NonInsight in the condition list of lines
    231-238, so an AU row whose Package contains NonInsight is subscribed to
    list 236, unless Active or Lapsed put it on 199 or 200. *)
Theorem noninsight_list_is_never_selected (row : segmentation_row) :
  segmentation_listid row <> "237" /\
  (str_contains "AU" (s_Appeal row) = true ->
   str_contains "NonInsight" (s_Package row) = true ->
   In (segmentation_listid row) ["199"; "200"; "236"]).
Proof.
  pose proof (str_contains_app "Non" "Insight" (s_Package row)) as Hsub.
  change ("Non" +:+ "Insight") with "NonInsight" in Hsub.
  unfold segmentation_listid. cbn [np_select]. split.
  - destruct (str_contains "AU" (s_Appeal row)),
             (str_contains "Active" (s_Package row)),
             (str_contains "Lapsed" (s_Package row)),
             (str_contains "Insight" (s_Package row)),
             (str_contains "NonInsight" (s_Package row)),
             (str_contains "NZ" (s_Appeal row)),
             (str_contains "Other" (s_Package row));
      cbn; try discriminate; specialize (Hsub eq_refl); discriminate.
  - intros HA HN. rewrite HA, (Hsub HN).
    destruct (str_contains "Active" (s_Package row)),
             (str_contains "Lapsed" (s_Package row)); cbn; auto.
Qed.

(** ** The tags *)












(** ** The run log over several runs *)





(** ** The further definitions on small inputs *)

Example thousand_records_batch_sizes :
  exists idx,
    payload_parser (fun r : string => r) 49 1001 thousand_records = Ok idx /\
    gaps idx = [328; 328; 328; 16].
Proof. eexists. split; [apply thousand_records_boundaries | reflexivity]. Qed.

Example frame_column_with_a_gap :
  frame_column "bounced_date"
    [({[ "email" := "a@example.org"; "bounced_date" := "2024-01-09" ]} : gmap string string);
     {[ "email" := "b@example.org" ]}] =
  Ok [Some "2024-01-09"; None].
Proof. vm_compute. reflexivity. Qed.

Example frame_column_of_no_record :
  frame_column "bounced_date" (@nil (gmap string string)) = Raise (KeyError "bounced_date").
Proof. reflexivity. Qed.

Example segmentation_tag_of_a_file_name :
  match segmentation_record (PyStr "AU_Active.v2.csv")
     {| s_Email_Address := "a@example.org"; s_First_name := "A"; s_Last_name := "B";
        s_Constituent_Number := "1"; s_Title := "Dr"; s_Appeal := "23AU";
        s_Package := "RG_Active-1"; s_Description := ""; s_Informal_Salutation := "A";
        s_Fullname := "A B" |} "199" with
  | Ok r => tags r = ["AU_Active_Active"]
  | _ => False
  end.
Proof. vm_compute. reflexivity. Qed.

Example welcome_tag_of_a_path :
  match welcome_record (PyStr "C:\files\Welcome.v2.csv")
     {| w_Email := "a@example.org"; w_FirstName := "A"; w_Surname := "B";
        w_Mobile := "0"; w_SerialNum := "1"; w_Title := "Dr"; w_Address := "";
        w_Suburb := ""; w_State := ""; w_Postcode := ""; w_DOB := "";
        w_1stDebitDate := ""; w_Amount := "1" |} "71" with
  | Ok r => tags r = ["Welcome"]
  | _ => False
  end.
Proof. vm_compute. reflexivity. Qed.

Example noninsight_row_goes_to_insight :
  segmentation_listid
    {| s_Email_Address := "a@example.org"; s_First_name := "A"; s_Last_name := "B";
       s_Constituent_Number := "1"; s_Title := "Dr"; s_Appeal := "23AU";
       s_Package := "SG_NonInsight-1"; s_Description := ""; s_Informal_Salutation := "A";
       s_Fullname := "A B" |} = "236".
Proof. vm_compute. reflexivity. Qed.

Example week_start_2024_01_17 :
  week_start (ymd2ord 2024 1 17) = ymd2ord 2024 1 15 /\
  week_start (ymd2ord 2024 1 9) + 7 = week_start (ymd2ord 2024 1 17).
Proof. vm_compute. split; reflexivity. Qed.
